(** * teacher_app: attendance ledger, session tokens and QR export

    A shallow embedding of the attendance/identity core of the teacher_app
    backend (src/db/attendance.py, src/db/student.py,
    src/db/teacher_groups.py, src/db/connection.py, src/auth/JWT.py and
    the handlers of src/main.py that call them), followed by the
    properties of the specification stated against that embedding.

    The SQLite store is a record of tables (lists of rows); the schema is
    the one the modules create at import time on a fresh database
    ([create_attendance_table], [create_student_table], [create_table]),
    with [PRAGMA foreign_keys = ON] as set by [get_connection].  Storage
    failures (sqlite3.OperationalError: locked or unwritable database)
    are driven by a fault plan carried in the world: every
    [cursor.execute] and every [conn.commit] consumes one flag. *)

From Stdlib Require Import Strings.Byte.
From stdpp Require Import base numbers list sorting strings gmap pretty.

Open Scope string_scope.
Open Scope list_scope.
Open Scope Z_scope.

(** ** Python values and truthiness *)

Definition truthy_int (n : Z) : bool := negb (n =? 0).
Definition truthy_str (s : string) : bool := negb (String.eqb s "").
Definition truthy_list {A} (l : list A) : bool :=
  match l with [] => false | _ :: _ => true end.
Definition truthy_opt {A} (o : option A) : bool :=
  match o with None => false | Some _ => true end.

(** Python's [bool] is a subclass of [int]: [True == 1], [False == 0]. *)
Definition int_of_bool (b : bool) : Z := if b then 1 else 0.

(** ** Exceptions, state and configuration *)

(** The PyJWT exception classes [verify_token] can meet; all derive from
    [jwt.InvalidTokenError]. *)
Inductive JwtErrorKind :=
| DecodeError
| InvalidAlgorithmError
| InvalidSignatureError
| ExpiredSignatureError
| ImmatureSignatureError
| InvalidIssuedAtError
| InvalidAudienceError
| InvalidSubjectError
| InvalidJTIError.

Inductive exn :=
| OperationalError                       (* sqlite3: injected storage failure *)
| IntegrityError (constraint : string)   (* sqlite3: UNIQUE / FOREIGN KEY violation *)
| OSError (what : string)
| QRError
| JWTError (k : JwtErrorKind)
| HTTPException (status_code : Z) (detail : string).

Inductive Res (A : Type) := Val (a : A) | Exc (e : exn).
Arguments Val {A} a.
Arguments Exc {A} e.

(** Computations over a state [S] that return or raise. *)
Definition SE (S A : Type) : Type := S → Res A * S.

#[global] Instance SE_ret {S} : MRet (SE S) := λ A a s, (Val a, s).
#[global] Instance SE_bind {S} : MBind (SE S) := λ A B f m s,
  match m s with
  | (Val a, s') => f a s'
  | (Exc e, s') => (Exc e, s')
  end.

Definition raise {S A} (e : exn) : SE S A := λ s, (Exc e, s).

(** [try: m except Exception as e: h e] *)
Definition try_except {S A} (m : SE S A) (h : exn → SE S A) : SE S A := λ s,
  match m s with
  | (Val a, s') => (Val a, s')
  | (Exc e, s') => h e s'
  end.

(** config.py: the settings the modelled code reads. *)
Record Config := mkConfig {
  JWT_SECRET_KEY : string;
  JWT_ALGORITHM : string;
  JWT_EXPIRATION_HOURS : Z;
  QR_CODES_DIR : string;
  MAX_STUDENTS_PER_GROUP : Z
}.

(** The values taken when the environment sets nothing. *)
Definition default_config : Config :=
  mkConfig "your-secret-key-change-in-production" "HS256" 24 "qrcodes" 500.

(** ** The store *)

Module Store.

Record Student := mkStudent {
  student_id : Z;
  student_name : string;
  student_group : Z;
  attendance_count : Z
}.

Record AttendanceRow := mkAttendance {
  attendance_id : Z;
  att_student : Z;
  att_group : Z;
  att_date : string;
  att_present : Z          (* INTEGER: 1 if present else 0 *)
}.

Record Group := mkGroup {
  group_id : Z;
  group_name : string;
  class_name : string;
  teacher_id : string
}.

Record Exam := mkExam {
  exam_id : Z;
  exam_title : string;
  exam_date : string;
  exam_group : Z
}.

(** The two uniqueness policies found in the sources:
    [UNIQUE(student_id, date)] in attendance.py and
    [UNIQUE(student_id, group_id, date)] in connection.py. *)
Inductive UniqueKey := ByStudentDate | ByStudentGroupDate.

Record DB := mkDB {
  students : list Student;
  attendance : list AttendanceRow;
  groups : list Group;
  exams : list Exam;
  attendance_seq : Z;        (* AUTOINCREMENT counter of attendance *)
  attendance_key : UniqueKey
}.

Definition with_students (db : DB) (l : list Student) : DB :=
  mkDB l (attendance db) (groups db) (exams db) (attendance_seq db) (attendance_key db).
Definition with_attendance (db : DB) (l : list AttendanceRow) : DB :=
  mkDB (students db) l (groups db) (exams db) (attendance_seq db) (attendance_key db).
Definition with_groups (db : DB) (l : list Group) : DB :=
  mkDB (students db) (attendance db) l (exams db) (attendance_seq db) (attendance_key db).
Definition with_exams (db : DB) (l : list Exam) : DB :=
  mkDB (students db) (attendance db) (groups db) l (attendance_seq db) (attendance_key db).

(** A statement either violates a constraint or yields a value and the
    updated (uncommitted) database. *)
Definition Stmt (A : Type) := DB -> exn + (A * DB).

#[global] Instance UniqueKey_eq_dec : EqDecision UniqueKey.
Proof. solve_decision. Defined.

Definition same_key (k : UniqueKey) (sid gid : Z) (d : string) (r : AttendanceRow) : Prop :=
  att_student r = sid ∧ att_date r = d ∧ (k = ByStudentGroupDate → att_group r = gid).

#[global] Instance same_key_dec k sid gid d r : Decision (same_key k sid gid d r).
Proof. unfold same_key. apply _. Defined.

Definition student_exists (db : DB) (sid : Z) : bool :=
  bool_decide (sid ∈ student_id <$> students db).
Definition group_exists (db : DB) (gid : Z) : bool :=
  bool_decide (gid ∈ group_id <$> groups db).

(** The rows of a student on a date, whatever group they were filed under. *)
Definition rows_for (sid : Z) (d : string) (db : DB) : list AttendanceRow :=
  filter (λ r, att_student r = sid ∧ att_date r = d) (attendance db).

(** SELECT attendance_id FROM attendance WHERE student_id = ? AND date = ?
    (fetch_one) *)
Definition select_attendance_id (sid : Z) (d : string) : Stmt (option Z) := λ db,
  inr (attendance_id <$> head (rows_for sid d db), db).

(** INSERT INTO attendance (student_id, group_id, date, present) VALUES (?,?,?,?) *)
Definition insert_attendance (sid gid : Z) (d : string) (p : Z) : Stmt Z := λ db,
  if bool_decide (Exists (same_key (attendance_key db) sid gid d) (attendance db))
  then inl (IntegrityError "UNIQUE constraint failed")
  else if negb (student_exists db sid && group_exists db gid)
  then inl (IntegrityError "FOREIGN KEY constraint failed")
  else
    let aid := attendance_seq db + 1 in
    inr (1, mkDB (students db)
                 (attendance db ++ [mkAttendance aid sid gid d p])
                 (groups db) (exams db) aid (attendance_key db)).

Definition bump (sid : Z) (s : Student) : Student :=
  if bool_decide (student_id s = sid)
  then mkStudent (student_id s) (student_name s) (student_group s) (attendance_count s + 1)
  else s.

Definition rowcount {A} (l : list A) : Z := Z.of_nat (length l).

(** UPDATE students SET attendance_count = attendance_count + 1 WHERE student_id = ? *)
Definition increment_attendance_count (sid : Z) : Stmt Z := λ db,
  inr (rowcount (filter (λ s, student_id s = sid) (students db)),
       with_students db (bump sid <$> students db)).

(** DELETE FROM students WHERE student_id = ?
    (attendance rows of the student go with it: ON DELETE CASCADE) *)
Definition delete_student (sid : Z) : Stmt Z := λ db,
  inr (rowcount (filter (λ s, student_id s = sid) (students db)),
       mkDB (filter (λ s, student_id s ≠ sid) (students db))
            (if student_exists db sid
             then filter (λ r, att_student r ≠ sid) (attendance db)
             else attendance db)
            (groups db) (exams db) (attendance_seq db) (attendance_key db)).

(** ORDER BY over the rows in table order: rows that tie on the sort
    key keep that order. *)
Fixpoint order_insert {A} (R : relation A) `{∀ x y, Decision (R x y)} (a : A) (l : list A)
  : list A :=
  match l with
  | [] => [a]
  | b :: t => if decide (R a b) then a :: l else b :: order_insert R a t
  end.

Definition order_by {A} (R : relation A) `{∀ x y, Decision (R x y)} (l : list A) : list A :=
  foldr (order_insert R) [] l.

Definition name_le (a b : Student) : Prop :=
  Is_true (String.leb (student_name a) (student_name b)).

(** SELECT student_id, name, group_id, attendance_count FROM students
    WHERE group_id = ? ORDER BY name (fetch_all) *)
Definition select_students_in_group (gid : Z) : Stmt (list Student) := λ db,
  inr (order_by name_le (filter (λ s, student_group s = gid) (students db)), db).

(** DELETE FROM attendance WHERE group_id = ? *)
Definition delete_attendance_of_group (gid : Z) : Stmt Z := λ db,
  inr (rowcount (filter (λ r, att_group r = gid) (attendance db)),
       with_attendance db (filter (λ r, att_group r ≠ gid) (attendance db))).

(** DELETE FROM exams WHERE group_id = ? *)
Definition delete_exams_of_group (gid : Z) : Stmt Z := λ db,
  inr (rowcount (filter (λ e, exam_group e = gid) (exams db)),
       with_exams db (filter (λ e, exam_group e ≠ gid) (exams db))).

(** DELETE FROM students WHERE group_id = ?
    (cascades to the attendance rows of the deleted students) *)
Definition delete_students_of_group (gid : Z) : Stmt Z := λ db,
  let gone := filter (λ s, student_group s = gid) (students db) in
  inr (rowcount gone,
       mkDB (filter (λ s, student_group s ≠ gid) (students db))
            (filter (λ r, att_student r ∉ student_id <$> gone) (attendance db))
            (groups db) (exams db) (attendance_seq db) (attendance_key db)).

(** DELETE FROM groups WHERE group_id = ?
    students.group_id references groups without ON DELETE (NO ACTION);
    attendance.group_id references it with ON DELETE CASCADE. *)
Definition delete_group (gid : Z) : Stmt Z := λ db,
  if group_exists db gid && bool_decide (gid ∈ student_group <$> students db)
  then inl (IntegrityError "FOREIGN KEY constraint failed")
  else
    inr (rowcount (filter (λ g, group_id g = gid) (groups db)),
         mkDB (students db)
              (if group_exists db gid
               then filter (λ r, att_group r ≠ gid) (attendance db)
               else attendance db)
              (filter (λ g, group_id g ≠ gid) (groups db))
              (exams db) (attendance_seq db) (attendance_key db)).

End Store.

(** ** The attendance ledger (db/connection.py, db/attendance.py,
       db/student.py, db/teacher_groups.py) *)

Module Ledger.
Import Store.

Inductive LogEvent :=
| DatabaseError (e : exn)
| InvalidAttendanceParameters
| AlreadyRecorded (sid : Z) (d : string)
| AttendanceRecorded (sid : Z) (present : bool)
| FailedToRecord (sid : Z)
| ErrorRecordingAttendance (e : exn)
| MarkedAbsent (success_count total : Z)
| ErrorMarkingAbsent (e : exn)
| RemovedStudent (sid : Z)
| NoStudentFound (sid : Z)
| ErrorRemovingStudent (sid : Z) (e : exn)
| DeletedGroup (gid students_deleted exams_deleted attendance_deleted : Z)
| NoGroupFound (gid : Z)
| ErrorDeletingGroup (gid : Z) (e : exn)
| ErrorGettingStudents (gid : Z) (e : exn).

(** The process: the committed database, the plan of storage faults still
    to come (one flag per [cursor.execute] / [conn.commit]; an exhausted
    plan means no further fault) and what was logged. *)
Record World := mkWorld {
  w_db : DB;
  w_faults : list bool;
  w_log : list LogEvent
}.

(** An open connection: the uncommitted view and the last committed one. *)
Record Conn := mkConn {
  c_work : DB;
  c_committed : DB;
  c_faults : list bool;
  c_log : list LogEvent
}.

Definition log (ev : LogEvent) : SE World () := λ w,
  (Val (), mkWorld (w_db w) (w_faults w) (w_log w ++ [ev])).

Definition conn_log (ev : LogEvent) : SE Conn () := λ c,
  (Val (), mkConn (c_work c) (c_committed c) (c_faults c) (c_log c ++ [ev])).

Definition fault_point : SE Conn () := λ c,
  match c_faults c with
  | true :: fs => (Exc OperationalError, mkConn (c_work c) (c_committed c) fs (c_log c))
  | false :: fs => (Val (), mkConn (c_work c) (c_committed c) fs (c_log c))
  | [] => (Val (), c)
  end.

Definition run_stmt {A} (q : Stmt A) : SE Conn A := λ c,
  match q (c_work c) with
  | inl e => (Exc e, c)
  | inr (a, db') => (Val a, mkConn db' (c_committed c) (c_faults c) (c_log c))
  end.

(** [cursor.execute(query, params)] *)
Definition cursor_execute {A} (q : Stmt A) : SE Conn A :=
  fault_point ;; run_stmt q.

Definition make_durable : SE Conn () := λ c,
  (Val (), mkConn (c_work c) (c_work c) (c_faults c) (c_log c)).

(** [conn.commit()] *)
Definition commit : SE Conn () :=
  fault_point ;; make_durable.

(** [with db_manager.get_connection() as conn: body]: on an exception the
    connection rolls back, logs and re-raises; it is closed in any case,
    which drops whatever was not committed. *)
Definition get_connection {A} (body : SE Conn A) : SE World A := λ w,
  match body (mkConn (w_db w) (w_db w) (w_faults w) (w_log w)) with
  | (Val a, c) => (Val a, mkWorld (c_committed c) (c_faults c) (c_log c))
  | (Exc e, c) => (Exc e, mkWorld (c_committed c) (c_faults c) (c_log c ++ [DatabaseError e]))
  end.

Inductive Fetch := FetchOne | FetchAll | NoFetch.

(** [db_manager.execute_query(query, params, fetch_one, fetch_all)]:
    only the non-fetching form commits. *)
Definition execute_query {A} (q : Stmt A) (f : Fetch) : SE World A :=
  get_connection
    (r ← cursor_execute q;
     match f with
     | NoFetch => commit ;; mret r
     | _ => mret r
     end).

Definition record_attendance (sid gid : Z) (date : string) (present : bool)
  : SE World bool :=
  if negb (truthy_int sid && truthy_int gid && truthy_str date) then
    log InvalidAttendanceParameters ;; mret false
  else
    try_except
      (existing ← execute_query (select_attendance_id sid date) FetchOne;
       if truthy_opt existing then
         log (AlreadyRecorded sid date) ;; mret false
       else
         rows_affected ←
           execute_query (insert_attendance sid gid date (if present then 1 else 0)) NoFetch;
         if bool_decide (0 < rows_affected) then
           (if present return SE World ()
            then execute_query (increment_attendance_count sid) NoFetch ;; mret ()
            else mret ()) ;;
           log (AttendanceRecorded sid present) ;; mret true
         else
           log (FailedToRecord sid) ;; mret false)
      (λ e, log (ErrorRecordingAttendance e) ;; mret false).

(** The [for student_id in absent_student_ids] loop with its counter. *)
Fixpoint mark_absent_loop (gid : Z) (date : string) (ids : list Z) (success_count : Z)
  : SE World Z :=
  match ids with
  | [] => mret success_count
  | sid :: rest =>
      record_attendance sid gid date false ≫= λ ok : bool,
      mark_absent_loop gid date rest (if ok then success_count + 1 else success_count)
  end.

Definition mark_absent_students (gid : Z) (date : string) (absent_student_ids : list Z)
  : SE World bool :=
  if negb (truthy_int gid && truthy_str date && truthy_list absent_student_ids) then
    mret false
  else
    try_except
      (success_count ← mark_absent_loop gid date absent_student_ids 0;
       log (MarkedAbsent success_count (Z.of_nat (length absent_student_ids))) ;;
       mret (bool_decide (0 < success_count)))
      (λ e, log (ErrorMarkingAbsent e) ;; mret false).

Definition remove_student (sid : Z) : SE World bool :=
  if negb (truthy_int sid) then mret false
  else
    try_except
      (rows_affected ← execute_query (delete_student sid) NoFetch;
       let success := bool_decide (0 < rows_affected) in
       (if success return SE World ()
        then log (RemovedStudent sid) else log (NoStudentFound sid)) ;;
       mret success)
      (λ e, log (ErrorRemovingStudent sid e) ;; mret false).

Definition delete_group_by_id (gid : Z) : SE World bool :=
  if negb (truthy_int gid) then mret false
  else
    try_except
      (get_connection
         (attendance_deleted ← cursor_execute (delete_attendance_of_group gid);
          exams_deleted ← cursor_execute (delete_exams_of_group gid);
          students_deleted ← cursor_execute (delete_students_of_group gid);
          groups_deleted ← cursor_execute (delete_group gid);
          commit ;;
          if bool_decide (0 < groups_deleted) then
            conn_log (DeletedGroup gid students_deleted exams_deleted attendance_deleted) ;;
            mret true
          else
            conn_log (NoGroupFound gid) ;; mret false))
      (λ e, log (ErrorDeletingGroup gid e) ;; mret false).

Definition get_students_in_group (gid : Z) : SE World (list Student) :=
  if negb (truthy_int gid) then mret []
  else
    try_except
      (execute_query (select_students_in_group gid) FetchAll)
      (λ e, log (ErrorGettingStudents gid e) ;; mret []).

End Ledger.

(** ** Session tokens (auth/JWT.py) *)

Module JWT.

(** Claim values: text or integers (timestamps are seconds since the epoch,
    the form [jwt.encode] gives to [exp] and [iat]). *)
Inductive Value := VStr (s : string) | VNum (n : Z).

#[global] Instance Value_eq_dec : EqDecision Value.
Proof. solve_decision. Defined.

#[global] Instance Value_countable : Countable Value.
Proof.
  refine (inj_countable' (λ v, match v with VStr s => inl s | VNum n => inr n end)
                         (λ x, match x with inl s => VStr s | inr n => VNum n end) _).
  by intros [].
Defined.

Definition truthy_value (v : Value) : bool :=
  match v with VStr s => truthy_str s | VNum n => truthy_int n end.

(** A signed token, symbolically: the algorithm of its header, its claims,
    and the key its signature was computed with.  The signature checks
    against a key exactly when it was made with that key. *)
Record JWS := mkJWS {
  jws_alg : string;
  jws_claims : gmap string Value;
  jws_signed_with : string
}.

#[global] Instance JWS_eq_dec : EqDecision JWS.
Proof. solve_decision. Defined.

#[global] Instance JWS_countable : Countable JWS.
Proof.
  refine (inj_countable' (λ t, (jws_alg t, jws_claims t, jws_signed_with t))
                         (λ x, mkJWS x.1.1 x.1.2 x.2) _).
  by intros [].
Defined.

(** [request.headers] and [request.query_params]. *)
Record Request := mkRequest {
  headers : gmap string string;
  query_params : gmap string string
}.

Section Tokens.

Variable config : Config.

(** The compact serialisation of the library and its reading back
    ([None]: not a well-formed token), Python's [int()] on text
    ([None]: ValueError) and [str(e)] on an exception. *)
Variable jwt_serialize : JWS → string.
Variable jwt_parse : string → option JWS.
Variable py_int : string → option Z.
Variable exn_str : exn → string.

(** [jwt.encode(payload, key, algorithm=...)], for a payload the library
    takes (see [TokenSpec.encodable]). *)
Definition jwt_encode (payload : gmap string Value) (key algorithm : string) : string :=
  jwt_serialize (mkJWS algorithm payload key).

(** [int(payload[claim])] as the claim validators take it. *)
Definition int_claim (v : Value) : option Z :=
  match v with VNum n => Some n | VStr s => py_int s end.

Definition validate_iat (now : Z) (payload : gmap string Value) : Res () :=
  match payload !! "iat" with
  | None => Val ()
  | Some v =>
      match int_claim v with
      | None => Exc (JWTError InvalidIssuedAtError)
      | Some iat => if bool_decide (now < iat) then Exc (JWTError ImmatureSignatureError)
                    else Val ()
      end
  end.

Definition validate_nbf (now : Z) (payload : gmap string Value) : Res () :=
  match payload !! "nbf" with
  | None => Val ()
  | Some v =>
      match int_claim v with
      | None => Exc (JWTError DecodeError)
      | Some nbf => if bool_decide (now < nbf) then Exc (JWTError ImmatureSignatureError)
                    else Val ()
      end
  end.

Definition validate_exp (now : Z) (payload : gmap string Value) : Res () :=
  match payload !! "exp" with
  | None => Val ()
  | Some v =>
      match int_claim v with
      | None => Exc (JWTError DecodeError)
      | Some exp => if bool_decide (exp ≤ now) then Exc (JWTError ExpiredSignatureError)
                    else Val ()
      end
  end.

(** No audience is passed to [jwt.decode]: a token that names one is refused. *)
Definition validate_aud (payload : gmap string Value) : Res () :=
  match payload !! "aud" with
  | None => Val ()
  | Some v => if truthy_value v then Exc (JWTError InvalidAudienceError) else Val ()
  end.

(** A subject and a token id, when there, must be text. *)
Definition validate_sub (payload : gmap string Value) : Res () :=
  match payload !! "sub" with
  | Some (VNum _) => Exc (JWTError InvalidSubjectError)
  | _ => Val ()
  end.

Definition validate_jti (payload : gmap string Value) : Res () :=
  match payload !! "jti" with
  | Some (VNum _) => Exc (JWTError InvalidJTIError)
  | _ => Val ()
  end.

Definition res_then {A} (r : Res ()) (k : Res A) : Res A :=
  match r with Val _ => k | Exc e => Exc e end.

(** [jwt.decode(token, key, algorithms=[...])] at clock reading [now]:
    structure, algorithm, signature, then the registered claims in the
    library's order (iat, nbf, exp, aud, sub, jti). *)
Definition jwt_decode (now : Z) (token key : string) (algorithms : list string)
  : Res (gmap string Value) :=
  match jwt_parse token with
  | None => Exc (JWTError DecodeError)
  | Some t =>
      if negb (bool_decide (jws_alg t ∈ algorithms)) then Exc (JWTError InvalidAlgorithmError)
      else if negb (bool_decide (jws_signed_with t = key)) then
        Exc (JWTError InvalidSignatureError)
      else
        res_then (validate_iat now (jws_claims t))
       (res_then (validate_nbf now (jws_claims t))
       (res_then (validate_exp now (jws_claims t))
       (res_then (validate_aud (jws_claims t))
       (res_then (validate_sub (jws_claims t))
       (res_then (validate_jti (jws_claims t))
       (Val (jws_claims t)))))))
  end.

(** [generate_token(data)]; [utcnow1] and [utcnow2] are the two readings
    of [datetime.utcnow()], the first for [expire], the second for [iat]. *)
Definition generate_token (utcnow1 utcnow2 : Z) (data : gmap string Value) : string :=
  let to_encode := data in
  let expire := utcnow1 + 3600 * JWT_EXPIRATION_HOURS config in
  let to_encode :=
    <["type" := VStr "access_token"]>
      (<["iat" := VNum utcnow2]> (<["exp" := VNum expire]> to_encode)) in
  jwt_encode to_encode (JWT_SECRET_KEY config) (JWT_ALGORITHM config).

(** The body of the [try] in [verify_token]. *)
Definition verify_token_body (now : Z) (token : string) : Res Value :=
  match jwt_decode now token (JWT_SECRET_KEY config) [JWT_ALGORITHM config] with
  | Exc e => Exc e
  | Val payload =>
      let username := payload !! "username" in
      let token_type := payload !! "type" in
      match username with
      | None => Exc (HTTPException 401 "Invalid token: missing username")
      | Some u =>
          if negb (bool_decide (token_type = Some (VStr "access_token")))
          then Exc (HTTPException 401 "Invalid token type")
          else Val u
      end
  end.

(** [verify_token(token)]: the [except] clauses in their order. *)
Definition verify_token (now : Z) (token : string) : Res Value :=
  match verify_token_body now token with
  | Val u => Val u
  | Exc (JWTError ExpiredSignatureError) => Exc (HTTPException 401 "Token expired")
  | Exc (JWTError _) => Exc (HTTPException 401 "Invalid token")
  | Exc e => Exc (HTTPException 401 ("Token verification failed: " +:+ exn_str e))
  end.

(** [get_current_teacher_optional(request)] *)
Definition get_current_teacher_optional (now : Z) (request : Request) : Res (option Value) :=
  let token : option string := None in
  let auth_header := headers request !! "Authorization" in
  let token :=
    match auth_header with
    | Some h =>
        if truthy_str h && String.prefix "Bearer " h
        then Some (String.substring 7 (String.length h - 7) h)
        else token
    | None => token
    end in
  let token :=
    if negb (from_option truthy_str false token)
    then query_params request !! "token"
    else token in
  match token with
  | Some t =>
      if negb (truthy_str t) then Val None
      else match verify_token now t with
           | Val u => Val (Some u)
           | Exc e => Exc e
           end
  | None => Val None
  end.

(** [create_access_token(username, additional_claims=None)] *)
Definition create_access_token (utcnow1 utcnow2 : Z) (username : string)
    (additional_claims : option (gmap string Value)) : string :=
  let data : gmap string Value := {[ "username" := VStr username ]} in
  let data :=
    match additional_claims with
    | Some claims => if bool_decide (claims = ∅) then data else claims ∪ data
    | None => data
    end in
  generate_token utcnow1 utcnow2 data.

End Tokens.

End JWT.

(** ** QR images on disk (db/student.py) *)

Module QR.

(** What [generate_student_qr] prints. *)
Inductive Printed :=
| CreatedQrDirectory (dir : string)
| QrSaved (path : string) (file_size : Z)
| QrFileEmpty (path : string)
| QrNotCreated (path : string)
| QrErrorPrinted (sid : Z) (e : exn).

(** The host: files with their bytes, directories, standard output. *)
Record Host := mkHost {
  files : gmap string (list byte);
  dirs : gset string;
  stdout : list Printed
}.

(** How [img.save] ends: the whole image on disk, only its first [n]
    bytes (raising or not), or no file at all. *)
Inductive SaveOutcome :=
| SaveWhole
| SaveShort (n : nat) (raises : bool)
| SaveNotCreated (raises : bool).

(** The behaviour of the libraries and of the file system during one call:
    the image the QR library renders for a text (or its exception), the
    outcome of the save, whether [os.makedirs] and [os.remove] fail. *)
Record QrEnv := mkQrEnv {
  makedirs_raises : bool;
  make_image : string → Res (list byte);
  save_outcome : SaveOutcome;
  remove_raises : bool
}.

Definition print (ev : Printed) : SE Host () := λ h,
  (Val (), mkHost (files h) (dirs h) (stdout h ++ [ev])).

(** [os.path.exists(p)] *)
Definition path_exists (p : string) : SE Host bool := λ h,
  (Val (bool_decide (is_Some (files h !! p) ∨ p ∈ dirs h)), h).

(** [os.makedirs(p)] *)
Definition makedirs (raises : bool) (p : string) : SE Host () := λ h,
  if raises then (Exc (OSError "makedirs"), h)
  else (Val (), mkHost (files h) ({[p]} ∪ dirs h) (stdout h)).

Definition write_file (p : string) (content : list byte) : SE Host () := λ h,
  (Val (), mkHost (<[p := content]> (files h)) (dirs h) (stdout h)).

(** [img.save(qr_path, "PNG", optimize=True)] *)
Definition img_save (env : QrEnv) (img : list byte) (p : string) : SE Host () :=
  match save_outcome env with
  | SaveWhole => write_file p img
  | SaveShort n raises =>
      write_file p (take n img) ;;
      if raises then raise (OSError "write") else mret ()
  | SaveNotCreated raises =>
      if raises then raise (OSError "open") else mret ()
  end.

(** [os.path.getsize(p)] *)
Definition getsize (p : string) : SE Host Z := λ h,
  match files h !! p with
  | Some content => (Val (Z.of_nat (length content)), h)
  | None => (Exc (OSError "getsize"), h)
  end.

(** [os.remove(p)] *)
Definition os_remove (env : QrEnv) (p : string) : SE Host () := λ h,
  if remove_raises env then (Exc (OSError "remove"), h)
  else (Val (), mkHost (delete p (files h)) (dirs h) (stdout h)).

Definition lift_res {S A} (r : Res A) : SE S A := λ s, (r, s).

Definition qr_path_of (sid : Z) : string :=
  "qrcodes" +:+ "/student_" +:+ pretty sid +:+ ".png".

Definition generate_student_qr (env : QrEnv) (sid : Z) : SE Host (option string) :=
  let qr_dir := "qrcodes" in
  dir_there ← path_exists qr_dir;
  (if negb dir_there return SE Host ()
   then makedirs (makedirs_raises env) qr_dir ;; print (CreatedQrDirectory qr_dir)
   else mret ()) ;;
  let qr_path := qr_path_of sid in
  try_except
    (img ← lift_res (make_image env (pretty sid));
     img_save env img qr_path ;;
     path_exists qr_path ≫= λ there : bool,
     if there then
       getsize qr_path ≫= λ file_size : Z,
       if bool_decide (0 < file_size) then
         print (QrSaved qr_path file_size) ;; mret (Some qr_path)
       else
         print (QrFileEmpty qr_path) ;; mret None
     else
       print (QrNotCreated qr_path) ;; mret None)
    (λ e,
       print (QrErrorPrinted sid e) ;;
       (* Clean up any partially created file *)
       path_exists qr_path ≫= λ there : bool,
       (if there return SE Host ()
        then try_except (os_remove env qr_path) (λ _, mret ())
        else mret ()) ;;
       mret None).

End QR.

(** ** Request handlers (main.py) *)

Module Main.
Import Store Ledger QR.

Inductive Response :=
| JsonResponse (success : bool) (message : string)
| FileResponse (path media_type filename : string).

(** The JSON body of [POST /attendance/scan]; [None] is a missing field. *)
Record ScanRequest := mkScanRequest {
  scan_student_id : option Z;
  scan_group_id : option Z;
  scan_date : option string;
  scan_present : option bool
}.

Definition scan_attendance (request : ScanRequest) : SE World Response :=
  let present := default true (scan_present request) in
  match scan_student_id request, scan_group_id request, scan_date request with
  | Some student_id, Some group_id, Some date =>
      if negb (truthy_int student_id && truthy_int group_id && truthy_str date) then
        raise (HTTPException 400 "Missing required fields: student_id, group_id, date")
      else
        try_except
          (record_attendance student_id group_id date present ≫= λ success : bool,
           if success then
             mret (JsonResponse true "Attendance recorded successfully")
           else
             mret (JsonResponse false "Attendance already recorded for this student today"))
          (λ e, raise (HTTPException 500 "Failed to record attendance"))
  | _, _, _ =>
      raise (HTTPException 400 "Missing required fields: student_id, group_id, date")
  end.

(** The bulk export works on the store and on the host. *)
Record App := mkApp {
  app_world : World;
  app_host : Host
}.

Definition in_world {A} (m : SE World A) : SE App A := λ a,
  let '(r, w) := m (app_world a) in (r, mkApp w (app_host a)).

Definition in_host {A} (m : SE Host A) : SE App A := λ a,
  let '(r, h) := m (app_host a) in (r, mkApp (app_world a) h).

Section BulkExport.

Variable config : Config.
(** Per student id, how the libraries and the disk behave. *)
Variable env : Z → QrEnv.
Variable qr_dir_raises : bool.
(** utils/file_manager.py [create_safe_filename] and the packaging of
    the collected files into the archive response; both lie behind the
    two guards studied here and are left open. *)
Variable create_safe_filename : string → string.
Variable package : Z → list (string * string) → SE App Response.

(** The [for student in students] loop collecting [valid_qr_files]. *)
Fixpoint qr_loop (students : list Student) (valid_qr_files : list (string * string))
  : SE Host (list (string * string)) :=
  match students with
  | [] => mret valid_qr_files
  | student :: rest =>
      let student_id := student_id student in
      let student_name := student_name student in
      generate_student_qr (env student_id) student_id ≫= λ qr_path : option string,
      match qr_path with
      | Some p =>
          path_exists p ≫= λ there : bool,
          if truthy_str p && there then
            getsize p ≫= λ file_size : Z,
            if bool_decide (0 < file_size) then
              qr_loop rest
                (valid_qr_files ++ [(p, create_safe_filename (student_name +:+ "_QR.png"))])
            else qr_loop rest valid_qr_files
          else qr_loop rest valid_qr_files
      | None => qr_loop rest valid_qr_files
      end
  end.

Definition get_group_qrcodes_endpoint (group_id : Z) : SE App Response :=
  in_world (get_students_in_group group_id) ≫= λ students : list Student,
  if negb (truthy_list students) then
    raise (HTTPException 404 "No students found in this group")
  else if bool_decide (MAX_STUDENTS_PER_GROUP config < Z.of_nat (length students)) then
    raise (HTTPException 400
             ("Group too large. Maximum " +:+ pretty (MAX_STUDENTS_PER_GROUP config)
              +:+ " students allowed for bulk download"))
  else
    let qr_dir := QR_CODES_DIR config in
    in_host (path_exists qr_dir) ≫= λ there : bool,
    (if negb there return SE App ()
     then in_host (makedirs qr_dir_raises qr_dir)
     else mret ()) ;;
    in_host (qr_loop students []) ≫= λ valid_qr_files : list (string * string),
    if negb (truthy_list valid_qr_files) then
      raise (HTTPException 500 "Failed to generate any QR codes")
    else
      package group_id valid_qr_files.

End BulkExport.

End Main.

(** ** Properties of the ledger: vocabulary *)

Module LedgerSpec.
Import Store Ledger.

(** An attendance row exists for the student on the date, under any group. *)
Definition recorded (sid : Z) (d : string) (db : DB) : Prop :=
  ∃ r, r ∈ attendance db ∧ att_student r = sid ∧ att_date r = d.

(** The store after a successful INSERT into attendance. *)
Definition inserted (db : DB) (sid gid : Z) (d : string) (p : Z) : DB :=
  mkDB (students db)
       (attendance db ++ [mkAttendance (attendance_seq db + 1) sid gid d p])
       (groups db) (exams db) (attendance_seq db + 1) (attendance_key db).

(** The store after the counter UPDATE. *)
Definition counted (db : DB) (sid : Z) : DB :=
  with_students db (bump sid <$> students db).

(** No storage failure is still to come. *)
Definition fault_free (w : World) : Prop := true ∉ w_faults w.

Definition next_fault (fs : list bool) : bool :=
  match fs with true :: _ => true | _ => false end.

(** The store accesses of one [record_attendance] that goes all the way:
    SELECT, INSERT, commit, and for a presence UPDATE, commit. *)
Definition accesses (present : bool) : nat := if present then 5%nat else 3%nat.

(** A storage failure lies within the accesses of the call. *)
Definition storage_failure (present : bool) (w : World) : Prop :=
  true ∈ take (accesses present) (w_faults w).

(** What the fault plan has become: some of its head was consumed. *)
Definition consumed (w w' : World) : Prop :=
  ∃ k, w_faults w' = Nat.iter k tail (w_faults w).

(** The rows that count for a student: their own, with [present = 1]. *)
Definition present_rows (sid : Z) (db : DB) : list AttendanceRow :=
  filter (λ r, att_student r = sid ∧ att_present r = 1) (attendance db).

Definition count_matches (db : DB) (s : Student) : Prop :=
  attendance_count s = rowcount (present_rows (student_id s) db).

(** The counter invariant, with the primary key of students. *)
Definition consistent (db : DB) : Prop :=
  NoDup (student_id <$> students db) ∧ Forall (count_matches db) (students db).

#[global] Instance consistent_dec db : Decision (consistent db).
Proof. unfold consistent, count_matches. apply _. Defined.

(** No presence filed under the group belongs to a student of another
    group (absences filed there may). *)
Definition group_closed (gid : Z) (db : DB) : Prop :=
  Forall (λ r, att_group r = gid → att_present r = 1 →
               Forall (λ s, student_id s = att_student r → student_group s = gid)
                      (students db))
         (attendance db).

(** The store fails at the counter UPDATE of a presence or at its commit,
    after the lookup, the INSERT and its commit went through: the fourth
    or the fifth access fails, none of the first three does. *)
Definition update_fails (w : World) : Prop :=
  (true ∉ take 3 (w_faults w)) ∧ (true ∈ take 2 (drop 3 (w_faults w))).

#[global] Instance update_fails_dec w : Decision (update_fails w).
Proof. unfold update_fails. apply _. Defined.

(** The recording of a presence gets as far as its counter UPDATE and the
    store fails there: the parameters are well-formed, the student has
    no row for the date, student and group exist, and [update_fails]. *)
Definition cut_at_update (sid gid : Z) (date : string) (w : World) : Prop :=
  truthy_int sid && truthy_int gid && truthy_str date = true
  ∧ rows_for sid date (w_db w) = []
  ∧ student_exists (w_db w) sid = true ∧ group_exists (w_db w) gid = true
  ∧ update_fails w.

#[global] Instance cut_at_update_dec sid gid date w : Decision (cut_at_update sid gid date w).
Proof. unfold cut_at_update. apply _. Defined.

(** The call goes through with its deletions: a non-zero id, and no
    storage failure within the four DELETEs and their commit. *)
Definition deletes_group (gid : Z) (w : World) : Prop :=
  truthy_int gid = true ∧ true ∉ take 5 (w_faults w).

#[global] Instance deletes_group_dec gid w : Decision (deletes_group gid w).
Proof. unfold deletes_group. apply _. Defined.

#[global] Instance group_closed_dec gid db : Decision (group_closed gid db).
Proof. unfold group_closed. apply _. Defined.

#[global] Instance fault_free_dec w : Decision (fault_free w).
Proof. unfold fault_free. apply _. Defined.

(** The four mutating operations. *)
Inductive Op :=
| OpRecord (sid gid : Z) (date : string) (present : bool)
| OpMarkAbsent (gid : Z) (date : string) (ids : list Z)
| OpRemoveStudent (sid : Z)
| OpDeleteGroup (gid : Z).

Definition run_op (op : Op) (w : World) : World :=
  match op with
  | OpRecord sid gid date present => (record_attendance sid gid date present w).2
  | OpMarkAbsent gid date ids => (mark_absent_students gid date ids w).2
  | OpRemoveStudent sid => (remove_student sid w).2
  | OpDeleteGroup gid => (delete_group_by_id gid w).2
  end.

(** The conditions under which an operation keeps the counters right:
    the recording of a presence is not cut at its counter UPDATE, and a
    group that gets deleted holds no presence of a student of another
    group.  Storage failures anywhere else, and calls that end before
    they write, are admitted. *)
Definition admissible (op : Op) (w : World) : Prop :=
  match op with
  | OpRecord sid gid date true => ¬ cut_at_update sid gid date w
  | OpDeleteGroup gid => deletes_group gid w → group_closed gid (w_db w)
  | _ => True
  end.

#[global] Instance admissible_dec op w : Decision (admissible op w).
Proof. destruct op as [? ? ? []| | |]; simpl; apply _. Defined.

Inductive reachable (w0 : World) : World → Prop :=
| reach_start : reachable w0 w0
| reach_step w op : reachable w0 w → admissible op w → reachable w0 (run_op op w).

(** The store after the four DELETEs of [delete_group_by_id]. *)
Definition group_deleted (gid : Z) (db : DB) : DB :=
  let gone := filter (λ s, student_group s = gid) (students db) in
  mkDB (filter (λ s, student_group s ≠ gid) (students db))
       (filter (λ r, att_student r ∉ student_id <$> gone)
          (filter (λ r, att_group r ≠ gid) (attendance db)))
       (filter (λ g, group_id g ≠ gid) (groups db))
       (filter (λ e, exam_group e ≠ gid) (exams db))
       (attendance_seq db) (attendance_key db).

(** *** Sample stores *)

(** One class of three, a second empty group, nothing recorded yet. *)
Definition class_db : DB :=
  mkDB [mkStudent 1 "Ada" 1 0; mkStudent 2 "Bob" 1 0; mkStudent 3 "Cyd" 1 0]
       []
       [mkGroup 1 "Maths" "5A" "teacher"; mkGroup 2 "Physics" "5B" "teacher"]
       [] 0 ByStudentDate.

Definition class_world : World := mkWorld class_db [] [].

(** Student 2 already has a row for the day (recorded present). *)
Definition class_world_day : World :=
  (record_attendance 2 1 "2024-01-01" true class_world).2.

(** The same class while the store fails at the counter UPDATE: the
    SELECT, the INSERT and its commit go through, the fourth access fails. *)
Definition failing_update_world : World :=
  mkWorld class_db [false; false; false; true] [].

(** The same class while the store fails once, at the sixth access. *)
Definition late_fault_world : World :=
  mkWorld class_db [false; false; false; false; false; true] [].

End LedgerSpec.

(** ** Properties of the token layer and of the bulk export: vocabulary *)

Module TokenSpec.
Import JWT.

(** The claims [generate_token] signs. *)
Definition issued_claims (config : Config) (utcnow1 utcnow2 : Z) (data : gmap string Value)
  : gmap string Value :=
  <["type" := VStr "access_token"]>
    (<["iat" := VNum utcnow2]>
       (<["exp" := VNum (utcnow1 + 3600 * JWT_EXPIRATION_HOURS config)]> data)).

(** The claim is text, or not there. *)
Definition text_or_absent (claim : string) (payload : gmap string Value) : Prop :=
  match payload !! claim with
  | Some (VNum _) => False
  | _ => True
  end.

(** The payloads every version of the library encodes: later versions
    raise TypeError for an issuer that is not text, and no token comes
    out. *)
Definition encodable (payload : gmap string Value) : Prop :=
  text_or_absent "iss" payload.

(** What a request carrying token [t] gets: the verdict of [verify_token]. *)
Definition authenticated (config : Config) (jwt_parse : string → option JWS)
    (py_int : string → option Z) (exn_str : exn → string) (now : Z) (t : string)
  : Res (option Value) :=
  match verify_token config jwt_parse py_int exn_str now t with
  | Val u => Val (Some u)
  | Exc e => Exc e
  end.

(** The request carries no token in its Authorization header: no such
    header, one that does not begin with "Bearer ", or nothing after
    that prefix. *)
Definition no_bearer_token (request : Request) : Prop :=
  match headers request !! "Authorization" with
  | None => True
  | Some h => String.prefix "Bearer " h = false ∨ h = "Bearer "
  end.

(** The request carries no token in its query: no [token] parameter, or
    an empty one. *)
Definition no_query_token (request : Request) : Prop :=
  match query_params request !! "token" with
  | None => True
  | Some t => t = ""
  end.

End TokenSpec.

Module ExportSpec.
Import Store Ledger Main.

(** The students of a group, as the table has them. *)
Definition members (gid : Z) (a : App) : list Student :=
  filter (λ s, student_group s = gid) (students (w_db (app_world a))).

End ExportSpec.

(** ** A wire format for tokens

    The properties of the token layer are stated for any serialisation
    that reads back what it wrote.  This one, binary digits of the
    token's code, shows that such a serialisation exists. *)

Module Wire.

Definition digit0 : Ascii.ascii := Ascii.Ascii false false false false true true false false.
Definition digit1 : Ascii.ascii := Ascii.Ascii true false false false true true false false.

Fixpoint digits (p : positive) : string :=
  match p with
  | xH => ""
  | xO q => String digit0 (digits q)
  | xI q => String digit1 (digits q)
  end.

Fixpoint undigits (s : string) : option positive :=
  match s with
  | EmptyString => Some xH
  | String c r =>
      if Ascii.eqb c digit0 then xO <$> undigits r
      else if Ascii.eqb c digit1 then xI <$> undigits r
      else None
  end.

Definition serialize (t : JWT.JWS) : string := digits (encode t).

Definition parse (s : string) : option JWT.JWS := undigits s ≫= decode.

(** Text is never read as a number, and exceptions print as nothing. *)
Definition no_int (s : string) : option Z := None.
Definition blank (e : exn) : string := "".

(** A request with a Bearer header and a query token as well. *)
Definition alice_request : JWT.Request :=
  JWT.mkRequest {[ "Authorization" := "Bearer " +:+ "not-a-token" ]}
                {[ "token" := "ignored" ]}.

End Wire.

(** ** Sample hosts for the QR code paths *)

Module QRSamples.
Import QR.

(** The first bytes of a PNG file stand for the rendered image. *)
Definition sample_png : list byte := [x89; x50; x4e; x47; x0d; x0a; x1a; x0a].

(** A host with the qrcodes directory and nothing in it. *)
Definition bare_host : Host := mkHost ∅ {[ "qrcodes" ]} [].

(** Everything works. *)
Definition working_env : QrEnv :=
  mkQrEnv false (λ _, Val sample_png) SaveWhole false.

(** The save returns normally but nothing reached the disk: the file
    exists with zero bytes. *)
Definition silent_empty_env : QrEnv :=
  mkQrEnv false (λ _, Val sample_png) (SaveShort 0 false) false.

(** The save fails midway and the partial file cannot be removed. *)
Definition stuck_partial_env : QrEnv :=
  mkQrEnv false (λ _, Val sample_png) (SaveShort 3 true) true.

(** The image of student 2 cannot be rendered; the others work. *)
Definition second_fails (sid : Z) : QrEnv :=
  if bool_decide (sid = 2) then mkQrEnv false (λ _, Exc QRError) SaveWhole false
  else working_env.

(** A configuration allowing two students per bulk export. *)
Definition small_config : Config :=
  mkConfig "your-secret-key-change-in-production" "HS256" 24 "qrcodes" 2.

(** A packaging step that answers with the archive path at once. *)
Definition no_package (gid : Z) (valid_qr_files : list (string * string))
  : SE Main.App Main.Response :=
  mret (Main.FileResponse "archive.zip" "application/zip" "group_qrcodes.zip").

End QRSamples.

(** ** Further vocabulary for the ledger *)

Module LedgerMore.
Import Store Ledger LedgerSpec.

(** At most one attendance row per (student, date), whatever the group. *)
Definition one_row_per_day (db : DB) : Prop :=
  NoDup ((λ r, (att_student r, att_date r)) <$> attendance db).

#[global] Instance one_row_per_day_dec db : Decision (one_row_per_day db).
Proof. unfold one_row_per_day. apply _. Defined.

(** Running a list of operations, first to last. *)
Definition run_ops (ops : list Op) (w : World) : World :=
  foldl (λ w op, run_op op w) w ops.

(** A storage failure lies within the first [n] accesses to come. *)
Definition failure_within (n : nat) (w : World) : Prop :=
  true ∈ take n (w_faults w).

#[global] Instance failure_within_dec n w : Decision (failure_within n w).
Proof. unfold failure_within. apply _. Defined.

#[global] Instance storage_failure_dec p w : Decision (storage_failure p w).
Proof. unfold storage_failure. apply _. Defined.

#[global] Instance recorded_dec sid d db : Decision (recorded sid d db).
Proof.
  refine (cast_if (decide (Exists (λ r, att_student r = sid ∧ att_date r = d) (attendance db))));
    unfold recorded; rewrite Exists_exists in *; naive_solver.
Defined.

(** The AUTOINCREMENT counter of attendance is at or above every id in
    the table. *)
Definition seq_bounds_ids (db : DB) : Prop :=
  Forall (λ r, attendance_id r ≤ attendance_seq db) (attendance db).

#[global] Instance seq_bounds_ids_dec db : Decision (seq_bounds_ids db).
Proof. unfold seq_bounds_ids. apply _. Defined.

(** The attendance_count of a student id, as the students table has it. *)
Definition count_of (sid : Z) (db : DB) : list Z :=
  attendance_count <$> filter (λ s, student_id s = sid) (students db).

(** Recording a presence on each of a list of dates, in turn. *)
Definition record_days (sid gid : Z) (dates : list string) (w : World) : World :=
  foldl (λ w d, (record_attendance sid gid d true w).2) w dates.

End LedgerMore.

(** ** Required authentication (auth/JWT.py) *)

Module JWTMore.
Import JWT.

(** [HTTPAuthorizationCredentials]: the scheme and the token of the
    Authorization header, as the framework's bearer dependency hands
    them over. *)
Record Credentials := mkCredentials {
  scheme : string;
  credentials : string
}.

Section Required.

Variable config : Config.
Variable jwt_parse : string → option JWS.
Variable py_int : string → option Z.
Variable exn_str : exn → string.

(** [get_current_teacher(credentials)] *)
Definition get_current_teacher (now : Z) (creds : option Credentials) : Res Value :=
  match creds with
  | None => Exc (HTTPException 401 "Authentication required")
  | Some c =>
      if negb (truthy_str (credentials c))
      then Exc (HTTPException 401 "Authentication required")
      else
        let token := credentials c in
        verify_token config jwt_parse py_int exn_str now token
  end.

(** [decode_token_payload(token)]: the claims without any verification,
    or an [error] entry. *)
Definition decode_token_payload (token : string) : gmap string Value :=
  match jwt_parse token with
  | Some t => jws_claims t
  | None => {[ "error" := VStr (exn_str (JWTError DecodeError)) ]}
  end.

End Required.

End JWTMore.

(** ** Further vocabulary for the bulk export *)

Module QRMore.
Import Store QR.

(** The generation for this id goes through: a non-empty image, saved whole. *)
Definition qr_good (e : QrEnv) (sid : Z) : bool :=
  match make_image e (pretty sid), save_outcome e with
  | Val (_ :: _), SaveWhole => true
  | _, _ => false
  end.

(** The rendering for this id raises. *)
Definition qr_bad (e : QrEnv) (sid : Z) : bool :=
  match make_image e (pretty sid) with
  | Exc _ => true
  | Val _ => false
  end.

(** The archive entry of a student: the QR path and the name in the archive. *)
Definition archive_entry (create_safe_filename : string → string) (s : Student)
  : string * string :=
  (qr_path_of (student_id s), create_safe_filename (student_name s +:+ "_QR.png")).

End QRMore.

(** ** Reading the ledger (db/attendance.py) and the handlers around the
       removals (main.py) *)

Module Reads.
Import Store Ledger.

(** What these functions log when the store fails. *)
Inductive ReadEvent :=
| ErrorGettingGroupAttendance (gid : Z) (e : exn)
| ErrorGettingStudentAttendance (sid : Z) (e : exn)
| ErrorGettingSummary (gid : Z) (e : exn).

(** The process with the log lines of the reading functions beside it. *)
Record RWorld := mkRWorld {
  r_world : World;
  r_log : list ReadEvent
}.

Definition in_ledger {A} (m : SE World A) : SE RWorld A := λ r,
  let '(a, w) := m (r_world r) in (a, mkRWorld w (r_log r)).

Definition read_log (ev : ReadEvent) : SE RWorld () := λ r,
  (Val (), mkRWorld (r_world r) (r_log r ++ [ev])).

(** ORDER BY date DESC, student_id *)
Definition newest_first_by_student (a b : AttendanceRow) : Prop :=
  match String.compare (att_date b) (att_date a) with
  | Lt => True
  | Eq => att_student a ≤ att_student b
  | Gt => False
  end.

#[global] Instance newest_first_by_student_dec a b : Decision (newest_first_by_student a b).
Proof. unfold newest_first_by_student. destruct (String.compare _ _); apply _. Defined.

(** ORDER BY date DESC *)
Definition newest_first (a b : AttendanceRow) : Prop :=
  Is_true (String.leb (att_date b) (att_date a)).

(** SELECT attendance_id, student_id, group_id, date, present FROM attendance
    WHERE group_id = ? ORDER BY date DESC, student_id *)
Definition select_attendance_of_group (gid : Z) : Stmt (list AttendanceRow) := λ db,
  inr (order_by newest_first_by_student (filter (λ r, att_group r = gid) (attendance db)),
       db).

(** SELECT ... FROM attendance WHERE student_id = ? ORDER BY date DESC *)
Definition select_attendance_of_student (sid : Z) : Stmt (list AttendanceRow) := λ db,
  inr (order_by newest_first (filter (λ r, att_student r = sid) (attendance db)), db).

Definition get_attendance_for_group (gid : Z) : SE RWorld (list AttendanceRow) :=
  if negb (truthy_int gid) then mret []
  else
    try_except
      (in_ledger (execute_query (select_attendance_of_group gid) FetchAll))
      (λ e, read_log (ErrorGettingGroupAttendance gid e) ;; mret []).

Definition get_attendance_for_student (sid : Z) : SE RWorld (list AttendanceRow) :=
  if negb (truthy_int sid) then mret []
  else
    try_except
      (in_ledger (execute_query (select_attendance_of_student sid) FetchAll))
      (λ e, read_log (ErrorGettingStudentAttendance sid e) ;; mret []).

(** SUM(present): NULL ([None]) over no rows. *)
Definition sql_sum (l : list Z) : option Z :=
  match l with
  | [] => None
  | _ :: _ => Some (foldr Z.add 0 l)
  end.

(** COUNT(DISTINCT column) *)
Definition count_distinct `{EqDecision A} (l : list A) : Z := rowcount (remove_dups l).

(** The one row of the summary query; [None] is SQL NULL.  The overall
    form also counts the distinct days and students. *)
Inductive Summary :=
| DatedSummary (total_records : Z) (present_count absent_count : option Z)
| OverallSummary (total_records : Z) (present_count absent_count : option Z)
                 (total_days total_students : Z).

Definition select_summary_on (gid : Z) (date : string) : Stmt Summary := λ db,
  let rows := filter (λ r, att_group r = gid ∧ att_date r = date) (attendance db) in
  let present := sql_sum (att_present <$> rows) in
  inr (DatedSummary (rowcount rows) present ((λ p, rowcount rows - p) <$> present), db).

Definition select_summary_overall (gid : Z) : Stmt Summary := λ db,
  let rows := filter (λ r, att_group r = gid) (attendance db) in
  let present := sql_sum (att_present <$> rows) in
  inr (OverallSummary (rowcount rows) present ((λ p, rowcount rows - p) <$> present)
                      (count_distinct (att_date <$> rows))
                      (count_distinct (att_student <$> rows)), db).

(** [get_attendance_summary(group_id, date=None)]; [None] is the empty dict. *)
Definition get_attendance_summary (gid : Z) (date : option string)
  : SE RWorld (option Summary) :=
  if negb (truthy_int gid) then mret None
  else
    try_except
      (let query :=
         match date with
         | Some d => if truthy_str d then select_summary_on gid d
                     else select_summary_overall gid
         | None => select_summary_overall gid
         end in
       in_ledger (execute_query query FetchOne) ≫= λ result : Summary,
       mret (Some result))
      (λ e, read_log (ErrorGettingSummary gid e) ;; mret None).

(** Every presence flag is 0 or 1, as [record_attendance] writes them. *)
Definition flags_ok (db : DB) : Prop :=
  Forall (λ row, att_present row = 0 ∨ att_present row = 1) (attendance db).

#[global] Instance flags_ok_dec db : Decision (flags_ok db).
Proof. unfold flags_ok. apply _. Defined.

(** The replies of the removal handlers. *)
Inductive Reply :=
| StudentReply (success : bool) (student_id : Z)
| GroupReply (success : bool) (group_id : Z)
| MessageReply (success : bool) (message : string).

(** [DELETE /groups/{group_id}/students/{student_id}] *)
Definition remove_student_endpoint (group_id student_id : Z) : SE World Reply :=
  remove_student student_id ;; mret (StudentReply true student_id).

(** [DELETE /groups/{group_id}] *)
Definition delete_group_endpoint (group_id : Z) : SE World Reply :=
  delete_group_by_id group_id ≫= λ success : bool,
  if success then mret (GroupReply true group_id)
  else raise (HTTPException 404 "Group not found or could not be deleted").

(** The JSON body of [POST /groups/{group_id}/attendance/absent]. *)
Record AbsentRequest := mkAbsentRequest {
  absent_date : option string;
  absent_student_ids : option (list Z)
}.

Definition mark_absent_endpoint (group_id : Z) (request : AbsentRequest) : SE World Reply :=
  let date := absent_date request in
  let absent_student_ids := default [] (absent_student_ids request) in
  match date with
  | Some date =>
      if negb (truthy_str date) || negb (truthy_list absent_student_ids) then
        raise (HTTPException 400 "Missing required fields: date, absent_student_ids")
      else
        try_except
          (mark_absent_students group_id date absent_student_ids ≫= λ success : bool,
           if success then
             mret (MessageReply true
                     ("Marked " +:+ pretty (length absent_student_ids)
                      +:+ " students as absent"))
           else
             mret (MessageReply false "Failed to mark students as absent"))
          (λ e, raise (HTTPException 500 "Failed to mark students as absent"))
  | None => raise (HTTPException 400 "Missing required fields: date, absent_student_ids")
  end.

End Reads.

(** ** Safe file names (utils/file_manager.py) *)

Module FileNames.

Definition underscore : Ascii.ascii :=
  Ascii.Ascii true true true true true false true false.

Definition safe_chars : list Ascii.ascii :=
  String.list_ascii_of_string
    "abcdefghijklmnopqrstuvwxyzABCDEFGHIJKLMNOPQRSTUVWXYZ0123456789-_.".

(** [''.join(c if c in safe_chars else '_' for c in filename)] *)
Definition sanitize (l : list Ascii.ascii) : list Ascii.ascii :=
  (λ c, if bool_decide (c ∈ safe_chars) then c else underscore) <$> l.

(** ['__' in safe_filename] *)
Fixpoint has_uu (l : list Ascii.ascii) : bool :=
  match l with
  | a :: ((b :: _) as rest) =>
      bool_decide (a = underscore) && bool_decide (b = underscore) || has_uu rest
  | _ => false
  end.

(** [safe_filename.replace('__', '_')]: one pass from the left over
    non-overlapping occurrences. *)
Fixpoint replace_uu (l : list Ascii.ascii) : list Ascii.ascii :=
  match l with
  | a :: ((b :: t) as rest) =>
      if bool_decide (a = underscore) && bool_decide (b = underscore)
      then underscore :: replace_uu t
      else a :: replace_uu rest
  | _ => l
  end.

(** [while '__' in safe_filename: safe_filename = safe_filename.replace('__', '_')],
    with a bound on the number of rounds. *)
Fixpoint squeeze (fuel : nat) (l : list Ascii.ascii) : list Ascii.ascii :=
  match fuel with
  | O => l
  | S n => if has_uu l then squeeze n (replace_uu l) else l
  end.

(** [str.lstrip(chars)], [str.rstrip(chars)] and [str.strip(chars)] *)
Fixpoint lstrip (chars l : list Ascii.ascii) : list Ascii.ascii :=
  match l with
  | c :: t => if bool_decide (c ∈ chars) then lstrip chars t else l
  | [] => []
  end.

Definition rstrip (chars l : list Ascii.ascii) : list Ascii.ascii :=
  reverse (lstrip chars (reverse l)).

Definition strip (chars l : list Ascii.ascii) : list Ascii.ascii :=
  rstrip chars (lstrip chars l).

(** [create_safe_filename(filename)]; each round of the loop shortens the
    name, so its length bounds the number of rounds. *)
Definition create_safe_filename (filename : string) : string :=
  let safe_filename := sanitize (String.list_ascii_of_string filename) in
  let safe_filename := squeeze (length safe_filename) safe_filename in
  let safe_filename := strip (String.list_ascii_of_string "_.") safe_filename in
  if negb (truthy_list safe_filename) then "file"
  else String.string_of_list_ascii safe_filename.

(** What a finished name looks like. *)
Definition tidy (l : list Ascii.ascii) : Prop :=
  l ≠ []
  ∧ Forall (λ c, c ∈ safe_chars) l
  ∧ has_uu l = false
  ∧ (∀ c, head l = Some c → c ∉ String.list_ascii_of_string "_.")
  ∧ (∀ c, last l = Some c → c ∉ String.list_ascii_of_string "_.").

End FileNames.

(** * Properties *)

(** ** The store: ORDER BY *)

Module StoreFacts.
Import Store.

Section OrderBy.

Context {A : Type} (R : relation A) `{∀ x y, Decision (R x y)}.

Lemma order_insert_Permutation a l : order_insert R a l ≡ₚ a :: l.
Proof.
  induction l as [|b t IH]; simpl; [done|].
  destruct (decide (R a b)); [done|]. rewrite IH. apply Permutation_swap.
Qed.

Lemma order_by_Permutation l : order_by R l ≡ₚ l.
Proof.
  unfold order_by. induction l as [|a l IH]; simpl; [done|].
  rewrite order_insert_Permutation. by f_equiv.
Qed.

Lemma order_insert_Sorted `{!Total R} a l : Sorted R l → Sorted R (order_insert R a l).
Proof.
  induction 1 as [|b t Hs IH Hhd]; simpl; [by repeat constructor|].
  destruct (decide (R a b)) as [Hab|Hab].
  - constructor; [by constructor | by constructor].
  - assert (Hba : R b a) by (by destruct (total R a b)).
    constructor; [done|].
    destruct t as [|c t]; simpl; [by constructor|].
    destruct (decide (R a c)); constructor; [done|]. by inversion Hhd.
Qed.

Lemma Sorted_order_by `{!Total R} l : Sorted R (order_by R l).
Proof.
  unfold order_by. induction l as [|a l IH]; simpl; [constructor|].
  by apply order_insert_Sorted.
Qed.

End OrderBy.

End StoreFacts.

(** ** The attendance ledger *)

Module LedgerFacts.
Import Store Ledger LedgerSpec.

Ltac se_unfold :=
  unfold try_except, execute_query, get_connection, cursor_execute, commit,
    fault_point, run_stmt, make_durable, log, conn_log, raise,
    mbind, SE_bind, mret, SE_ret in *.

Lemma next_fault_elem fs : next_fault fs = true → true ∈ fs.
Proof. destruct fs as [|[] fs]; simpl; [done| |done]. intros _. left. Qed.

Lemma elem_tail {A} (x : A) l : x ∈ tail l → x ∈ l.
Proof. destruct l; simpl; [done|]. by right. Qed.

Lemma elem_iter_tail {A} (x : A) k l : x ∈ Nat.iter k tail l → x ∈ l.
Proof. induction k; simpl; [done|]. intros H. by apply IHk, elem_tail. Qed.

Lemma fault_free_next w k : fault_free w → next_fault (Nat.iter k tail (w_faults w)) = false.
Proof.
  intros Hfree. destruct (next_fault _) eqn:E; [|done].
  destruct Hfree. by eapply elem_iter_tail, next_fault_elem.
Qed.

(** *** Equations of the connection layer *)

(** A fetching query: one fault point, nothing committed. *)
Lemma execute_query_fetch {A} (q : Stmt A) f db fs lg :
  f ≠ NoFetch →
  execute_query q f (mkWorld db fs lg) =
    if next_fault fs
    then (Exc OperationalError, mkWorld db (tail fs) (lg ++ [DatabaseError OperationalError]))
    else match q db with
         | inl e => (Exc e, mkWorld db (tail fs) (lg ++ [DatabaseError e]))
         | inr (a, _) => (Val a, mkWorld db (tail fs) lg)
         end.
Proof.
  intros Hf. se_unfold.
  destruct fs as [|[] fs]; simpl; try done;
    destruct (q db) as [e|[a db']]; simpl; try done; by destruct f.
Qed.

(** A writing query: the statement, then the commit. *)
Lemma execute_query_write {A} (q : Stmt A) db fs lg :
  execute_query q NoFetch (mkWorld db fs lg) =
    if next_fault fs
    then (Exc OperationalError, mkWorld db (tail fs) (lg ++ [DatabaseError OperationalError]))
    else match q db with
         | inl e => (Exc e, mkWorld db (tail fs) (lg ++ [DatabaseError e]))
         | inr (a, db') =>
             if next_fault (tail fs)
             then (Exc OperationalError,
                   mkWorld db (tail (tail fs)) (lg ++ [DatabaseError OperationalError]))
             else (Val a, mkWorld db' (tail (tail fs)) lg)
         end.
Proof.
  se_unfold.
  destruct fs as [|[] fs]; simpl; try done;
    destruct (q db) as [e|[a db']]; simpl; try done;
    destruct fs as [|[] fs]; simpl; done.
Qed.

(** *** The lookup and the insert *)

Lemma recorded_rows sid d db : recorded sid d db → ∃ r l, rows_for sid d db = r :: l.
Proof.
  intros (r & Hin & Hs & Hd).
  assert (Hr : r ∈ rows_for sid d db) by (apply list_elem_of_filter; done).
  destruct (rows_for sid d db) as [|r0 l]; [by apply elem_of_nil in Hr | eauto].
Qed.

Lemma rows_for_nil_no_key k sid gid d db :
  rows_for sid d db = [] → ¬ Exists (same_key k sid gid d) (attendance db).
Proof.
  intros Hnil Hex. apply Exists_exists in Hex as (r & Hin & Hs & Hd & _).
  assert (Hr : r ∈ rows_for sid d db) by (apply list_elem_of_filter; done).
  rewrite Hnil in Hr. by apply elem_of_nil in Hr.
Qed.

Lemma insert_attendance_fresh sid gid d p db :
  rows_for sid d db = [] →
  insert_attendance sid gid d p db =
    if student_exists db sid && group_exists db gid
    then inr (1, inserted db sid gid d p)
    else inl (IntegrityError "FOREIGN KEY constraint failed").
Proof.
  intros Hnil. unfold insert_attendance.
  rewrite (bool_decide_eq_false_2 _ (rows_for_nil_no_key _ _ gid _ _ Hnil)).
  by destruct (student_exists db sid && group_exists db gid).
Qed.

Ltac consumed_by_count :=
  first [ by exists 0%nat | by exists 1%nat | by exists 2%nat | by exists 3%nat
        | by exists 4%nat | by exists 5%nat | by exists 6%nat ].

Lemma consumed_trans w1 w2 w3 : consumed w1 w2 → consumed w2 w3 → consumed w1 w3.
Proof.
  intros [k Hk] [j Hj]. exists (j + k)%nat. rewrite Hj, Hk.
  clear. induction j; simpl; [done|]. by rewrite IHj.
Qed.

Lemma consumed_fault_free w w' : consumed w w' → fault_free w → fault_free w'.
Proof. intros [k Hk] Hfree Hin. apply Hfree. rewrite Hk in Hin. by eapply elem_iter_tail. Qed.

Lemma iter_tail_tail {A} k (l : list A) : Nat.iter k tail (tail l) = tail (Nat.iter k tail l).
Proof. induction k; simpl; [done|]. by rewrite IHk. Qed.

Lemma no_failure_within n fs :
  (∀ k, (k < n)%nat → next_fault (Nat.iter k tail fs) = false) → true ∉ take n fs.
Proof.
  revert fs. induction n as [|n IH]; intros fs Hk; [rewrite take_0; apply not_elem_of_nil|].
  destruct fs as [|f fs]; [apply not_elem_of_nil|]. simpl.
  intros [Hf|Hin]%elem_of_cons.
  - specialize (Hk 0%nat ltac:(lia)). simpl in Hk. by subst f.
  - revert Hin. apply IH. intros k Hlt. specialize (Hk (S k) ltac:(lia)).
    simpl in Hk. by rewrite <- iter_tail_tail in Hk.
Qed.

Lemma failure_within_next n fs k :
  (k < n)%nat → next_fault (Nat.iter k tail fs) = true → true ∈ take n fs.
Proof.
  revert n fs. induction k as [|k IH]; intros n fs Hlt Hk.
  - destruct n; [lia|]. destruct fs as [|[] fs]; simpl in *; try done. left.
  - destruct n; [lia|]. simpl in Hk. rewrite <- iter_tail_tail in Hk.
    destruct fs as [|f fs]; simpl in *.
    + clear -Hk. exfalso. induction k; simpl in *; [done|].
      rewrite <- iter_tail_tail in Hk. simpl in Hk. auto.
    + right. apply (IH n fs); [lia|done].
Qed.

Lemma update_fails_intro db fs lg :
  next_fault fs = false → next_fault (tail fs) = false →
  next_fault (tail (tail fs)) = false →
  next_fault (tail (tail (tail fs))) = true
  ∨ next_fault (tail (tail (tail (tail fs)))) = true →
  update_fails (mkWorld db fs lg).
Proof.
  intros F1 F2 F3 F45. unfold update_fails. simpl.
  destruct fs as [|f1 [|f2 [|f3 [|f4 fs]]]]; simpl in *;
    try (destruct F45; discriminate).
  destruct f1, f2, f3; try discriminate. simpl. split.
  - apply (bool_decide_unpack _). vm_compute. exact I.
  - destruct f4; [by left|]. destruct fs as [|[] fs]; simpl in *;
      [destruct F45; discriminate | right; left | destruct F45; discriminate].
Qed.

(** Every way [record_attendance] can end: it always returns a boolean;
    either the store is untouched and the answer is [False], or the row
    is in (and counted when present) and the answer is [True], or, only
    under a storage failure, the row is in, not counted, and the answer
    is [False]. *)
Lemma record_attendance_outcome sid gid date present w :
  ∃ r w', record_attendance sid gid date present w = (Val r, w') ∧ consumed w w' ∧
    ((r = false ∧ w_db w' = w_db w)
     ∨ (r = true ∧ rows_for sid date (w_db w) = [] ∧
        student_exists (w_db w) sid = true ∧ group_exists (w_db w) gid = true ∧
        ¬ storage_failure present w ∧
        w_db w' = (if present then counted (inserted (w_db w) sid gid date 1) sid
                   else inserted (w_db w) sid gid date 0))
     ∨ (r = false ∧ present = true ∧ ¬ fault_free w ∧
        w_db w' = inserted (w_db w) sid gid date 1 ∧
        rows_for sid date (w_db w) = [] ∧
        student_exists (w_db w) sid = true ∧ group_exists (w_db w) gid = true ∧
        cut_at_update sid gid date w)).
Proof.
  unfold record_attendance.
  destruct (truthy_int sid && truthy_int gid && truthy_str date) eqn:Hvalid; simpl;
    [| se_unfold; do 2 eexists; split_and!; [done|consumed_by_count|eauto]].
  destruct w as [db fs lg]. unfold try_except, mbind at 1, SE_bind at 1.
  rewrite execute_query_fetch by done. unfold select_attendance_id.
  destruct (next_fault fs) eqn:F1;
    [se_unfold; do 2 eexists; split_and!; [done|consumed_by_count|eauto]|].
  destruct (rows_for sid date db) eqn:Hrows; simpl;
    [|se_unfold; do 2 eexists; split_and!; [done|consumed_by_count|eauto]].
  unfold mbind at 1, SE_bind at 1. rewrite execute_query_write.
  rewrite insert_attendance_fresh by done.
  destruct (next_fault (tail fs)) eqn:F2;
    [se_unfold; do 2 eexists; split_and!; [done|consumed_by_count|eauto]|].
  destruct (student_exists db sid) eqn:Hs, (group_exists db gid) eqn:Hg; simpl;
    try (se_unfold; do 2 eexists; split_and!; [done|consumed_by_count|by eauto]).
  destruct (next_fault (tail (tail fs))) eqn:F3;
    [se_unfold; do 2 eexists; split_and!; [done|consumed_by_count|eauto]|].
  simpl. destruct present.
  - unfold mbind at 1, SE_bind at 1. unfold mbind at 1, SE_bind at 1.
    rewrite execute_query_write. unfold increment_attendance_count.
    assert (Hff : ∀ k, next_fault (Nat.iter k tail fs) = true →
                       ¬ fault_free (mkWorld db fs lg)).
    { intros k Hk Hfree. pose proof (fault_free_next _ k Hfree) as Hn. simpl in Hn. congruence. }
    destruct (next_fault (tail (tail (tail fs)))) eqn:F4.
    { se_unfold. do 2 eexists; split_and!; [done|consumed_by_count|].
      right; right. split_and!; try done; [apply (Hff 3%nat F4)|].
      unfold cut_at_update. simpl. split_and!; try done.
      apply update_fails_intro; auto. }
    destruct (next_fault (tail (tail (tail (tail fs))))) eqn:F5.
    { se_unfold. do 2 eexists; split_and!; [done|consumed_by_count|].
      right; right. split_and!; try done; [apply (Hff 4%nat F5)|].
      unfold cut_at_update. simpl. split_and!; try done.
      apply update_fails_intro; auto. }
    se_unfold. do 2 eexists; split_and!; [done|consumed_by_count|]. right; left.
    split_and!; try done. apply no_failure_within. simpl.
    intros [|[|[|[|[|k]]]]] Hk; simpl; try done; lia.
  - se_unfold. do 2 eexists; split_and!; [done|consumed_by_count|]. right; left.
    split_and!; try done. apply no_failure_within. simpl.
    intros [|[|[|k]]] Hk; simpl; try done; lia.
Qed.

Lemma duplicate_is_rejected sid gid date present w :
  recorded sid date (w_db w) →
  ∃ w', record_attendance sid gid date present w = (Val false, w')
        ∧ w_db w' = w_db w
        ∧ (truthy_int sid && truthy_int gid && truthy_str date = true →
           next_fault (w_faults w) = false →
           w_log w' = w_log w ++ [AlreadyRecorded sid date]).
Proof.
  intros Hrec. apply recorded_rows in Hrec as (r & l & Hrows).
  unfold record_attendance.
  destruct (truthy_int sid && truthy_int gid && truthy_str date) eqn:Hvalid; simpl.
  - destruct w as [db fs lg]; simpl in *.
    unfold try_except, mbind at 1, SE_bind at 1.
    rewrite execute_query_fetch by done. unfold select_attendance_id.
    rewrite Hrows. destruct (next_fault fs) eqn:F; se_unfold; simpl;
      (eexists; split; [reflexivity|]; simpl; split; [done|]; intros; by try congruence).
  - se_unfold. eexists; split; [reflexivity|]. simpl. done.
Qed.

(** C1. When an attendance row already exists for (student_id, date),
    under whatever group and whatever uniqueness key the table carries,
    [record_attendance] answers [False], inserts nothing and leaves every
    counter as it was (the store is unchanged); with well-formed
    parameters and a lookup that goes through, the call is logged as
    already recorded. *)
Theorem record_attendance_duplicate sid gid date present w :
  recorded sid date (w_db w) →
  ∃ w', record_attendance sid gid date present w = (Val false, w')
        ∧ attendance (w_db w') = attendance (w_db w)
        ∧ students (w_db w') = students (w_db w)
        ∧ w_db w' = w_db w
        ∧ (truthy_int sid && truthy_int gid && truthy_str date = true →
           next_fault (w_faults w) = false →
           w_log w' = w_log w ++ [AlreadyRecorded sid date]).
Proof.
  intros Hrec.
  destruct (duplicate_is_rejected sid gid date present w Hrec) as (w' & Heq & Hdb & Hlog).
  exists w'. rewrite Hdb. done.
Qed.

Lemma record_attendance_duplicate_witness :
  ∃ w', record_attendance 2 2 "2024-01-01" true class_world_day = (Val false, w')
        ∧ attendance (w_db w') = attendance (w_db class_world_day)
        ∧ students (w_db w') = students (w_db class_world_day)
        ∧ w_db w' = w_db class_world_day
        ∧ (truthy_int 2 && truthy_int 2 && truthy_str "2024-01-01" = true →
           next_fault (w_faults class_world_day) = false →
           w_log w' = w_log class_world_day ++ [AlreadyRecorded 2 "2024-01-01"]).
Proof.
  apply (record_attendance_duplicate 2 2 "2024-01-01" true class_world_day).
  exists (mkAttendance 1 2 1 "2024-01-01" 1). vm_compute. split; [left | done].
Defined.

(** *** The counter invariant under each operation *)

Lemma bump_id sid s : student_id (bump sid s) = student_id s.
Proof. unfold bump. by case_bool_decide. Qed.

Lemma bump_ids sid (l : list Student) : student_id <$> (bump sid <$> l) = student_id <$> l.
Proof. rewrite <- list_fmap_compose. apply list_fmap_ext. intros _ s _. apply bump_id. Qed.

Lemma present_rows_inserted db sid gid d p id :
  present_rows id (inserted db sid gid d p) =
    present_rows id db ++
      (if bool_decide (sid = id ∧ p = 1)
       then [mkAttendance (attendance_seq db + 1) sid gid d p] else []).
Proof.
  unfold present_rows, inserted. simpl. rewrite filter_app. f_equal.
  case_bool_decide as H.
  - by rewrite filter_cons_True.
  - by rewrite filter_cons_False.
Qed.

Lemma present_rows_counted db sid id : present_rows id (counted db sid) = present_rows id db.
Proof. done. Qed.

Lemma consistent_inserted_absent db sid gid d :
  consistent db → consistent (inserted db sid gid d 0).
Proof.
  intros [Hpk Hc]. split; [done|]. simpl.
  eapply Forall_impl; [exact Hc|]. intros s Hs. unfold count_matches in *.
  rewrite present_rows_inserted. rewrite bool_decide_eq_false_2 by (intros [_ ?]; done).
  by rewrite app_nil_r.
Qed.

Lemma consistent_inserted_counted db sid gid d :
  consistent db → consistent (counted (inserted db sid gid d 1) sid).
Proof.
  intros [Hpk Hc]. split; simpl.
  - by rewrite bump_ids.
  - apply Forall_fmap. eapply Forall_impl; [exact Hc|]. intros s Hs.
    unfold count_matches, compose in *. rewrite bump_id, present_rows_counted.
    rewrite present_rows_inserted. unfold bump, rowcount in *.
    case_bool_decide as Hid.
    + rewrite bool_decide_eq_true_2 by done. rewrite length_app. simpl. lia.
    + rewrite bool_decide_eq_false_2 by (intros [? _]; done). by rewrite app_nil_r.
Qed.

Lemma record_attendance_preserves sid gid date present w :
  (present = true → ¬ cut_at_update sid gid date w) →
  consistent (w_db w) →
  consistent (w_db (record_attendance sid gid date present w).2).
Proof.
  intros Hcut Hc.
  destruct (record_attendance_outcome sid gid date present w)
    as (r & w' & -> & _ & [[_ Hdb] | [(_ & _ & _ & _ & _ & Hdb)
                                     | (_ & Hp & _ & _ & _ & _ & _ & Hf)]]);
    simpl; try rewrite Hdb.
  - done.
  - destruct present.
    + by apply consistent_inserted_counted.
    + by apply consistent_inserted_absent.
  - by destruct (Hcut Hp).
Qed.

(** The loop of [mark_absent_students]: it only appends absence rows of
    the given group and date, never touches a student, and its counter
    counts the appended rows. *)
Lemma mark_absent_loop_spec gid date ids n w :
  ∃ new w',
    mark_absent_loop gid date ids n w = (Val (n + rowcount new), w')
    ∧ consumed w w'
    ∧ w_db w' = mkDB (students (w_db w)) (attendance (w_db w) ++ new) (groups (w_db w))
                     (exams (w_db w)) (attendance_seq (w_db w) + rowcount new)
                     (attendance_key (w_db w))
    ∧ Forall (λ r, att_present r = 0 ∧ att_group r = gid ∧ att_date r = date
                   ∧ att_student r ∈ ids) new.
Proof.
  revert n w. induction ids as [|sid ids IH]; intros n w; simpl.
  - exists [], w. unfold mret, SE_ret, rowcount. simpl.
    rewrite !Z.add_0_r, app_nil_r. split_and!; [done|by exists 0%nat|by destruct w as [[]]|done].
  - unfold mbind, SE_bind.
    destruct (record_attendance_outcome sid gid date false w)
      as (r & w1 & -> & Hcons & [[-> Hdb] | [(-> & _ & _ & _ & _ & Hdb) | (_ & Hp & _)]]);
      [| |done].
    + destruct (IH n w1) as (new & w' & -> & Hcons' & Hdb' & Hall).
      exists new, w'. rewrite Hdb in Hdb'. split_and!; [done| |done|].
      * by eapply consumed_trans.
      * eapply Forall_impl; [exact Hall|]. intros r' (? & ? & ? & ?). split_and!; try done.
        by right.
    + destruct (IH (n + 1) w1) as (new & w' & -> & Hcons' & Hdb' & Hall).
      exists (mkAttendance (attendance_seq (w_db w) + 1) sid gid date 0 :: new), w'.
      rewrite Hdb in Hdb'. simpl in Hdb'. unfold rowcount in *. split_and!.
      * f_equal. f_equal. simpl length. lia.
      * by eapply consumed_trans.
      * rewrite Hdb'. rewrite <- app_assoc. simpl. f_equal. simpl length. lia.
      * constructor; [split_and!; try done; by left|].
        eapply Forall_impl; [exact Hall|]. intros r' (? & ? & ? & ?). split_and!; try done.
        by right.
Qed.

Lemma consistent_appended_absent db new :
  consistent db →
  Forall (λ r, att_present r = 0) new →
  consistent (mkDB (students db) (attendance db ++ new) (groups db) (exams db)
                   (attendance_seq db + rowcount new) (attendance_key db)).
Proof.
  intros [Hpk Hc] Hnew. split; [done|]. simpl.
  eapply Forall_impl; [exact Hc|]. intros s Hs. unfold count_matches, present_rows in *.
  simpl. rewrite filter_app. rewrite Hs. f_equal.
  replace (filter _ new) with (@nil AttendanceRow); [by rewrite app_nil_r|].
  symmetry. clear -Hnew. induction Hnew as [|r l Hr _ IH]; [done|].
  rewrite filter_cons_False; [done|]. intros [_ ?]. congruence.
Qed.

Lemma mark_absent_students_preserves gid date ids w :
  consistent (w_db w) → consistent (w_db (mark_absent_students gid date ids w).2).
Proof.
  intros Hc. unfold mark_absent_students.
  destruct (truthy_int gid && truthy_str date && truthy_list ids); simpl; [|done].
  unfold try_except, mbind at 1, SE_bind at 1.
  destruct (mark_absent_loop_spec gid date ids 0 w) as (new & w' & -> & _ & Hdb & Hall).
  se_unfold. simpl. rewrite Hdb. apply consistent_appended_absent; [done|].
  eapply Forall_impl; [exact Hall|]. by intros r (? & _).
Qed.

(** Filtering by a condition the kept rows meet anyway changes nothing. *)
Lemma filter_filter_absorb {A} (P Q : A → Prop) `{∀ x, Decision (P x)} `{∀ x, Decision (Q x)}
    (l : list A) :
  (∀ x, x ∈ l → P x → Q x) → filter P (filter Q l) = filter P l.
Proof.
  induction l as [|a l IH]; intros HPQ; [done|].
  destruct (decide (P a)) as [HP|HP].
  - rewrite (filter_cons_True Q) by (apply HPQ; [left|done]).
    rewrite !filter_cons_True by done. f_equal. apply IH. intros x Hx. apply HPQ. by right.
  - rewrite (filter_cons_False P a l) by done.
    destruct (decide (Q a)).
    + rewrite (filter_cons_True Q) by done. rewrite filter_cons_False by done.
      apply IH. intros x Hx. apply HPQ. by right.
    + rewrite (filter_cons_False Q) by done. apply IH. intros x Hx. apply HPQ. by right.
Qed.

Lemma NoDup_fmap_filter {A B} (f : A → B) (P : A → Prop) `{∀ x, Decision (P x)} (l : list A) :
  NoDup (f <$> l) → NoDup (f <$> filter P l).
Proof.
  induction l as [|a l IH]; [done|]. rewrite fmap_cons. intros [Hnotin Hnd]%NoDup_cons.
  destruct (decide (P a)).
  - rewrite filter_cons_True by done. rewrite fmap_cons. apply NoDup_cons. split; [|by apply IH].
    intros (x & Hfx & Hx%list_elem_of_filter)%list_elem_of_fmap. apply Hnotin.
    apply list_elem_of_fmap. exists x. by destruct Hx.
  - rewrite filter_cons_False by done. by apply IH.
Qed.

(** Every way [remove_student] can end, as far as the store goes. *)
Lemma remove_student_outcome sid w :
  ∃ r w', remove_student sid w = (Val r, w') ∧
    (w_db w' = w_db w
     ∨ w_db w' =
         mkDB (filter (λ s, student_id s ≠ sid) (students (w_db w)))
              (if student_exists (w_db w) sid
               then filter (λ r, att_student r ≠ sid) (attendance (w_db w))
               else attendance (w_db w))
              (groups (w_db w)) (exams (w_db w)) (attendance_seq (w_db w))
              (attendance_key (w_db w))).
Proof.
  unfold remove_student. destruct (truthy_int sid); simpl;
    [|unfold mret, SE_ret; eauto].
  destruct w as [db fs lg]. unfold try_except, mbind at 1, SE_bind at 1.
  rewrite execute_query_write. unfold delete_student.
  destruct (next_fault fs); [se_unfold; eauto|].
  destruct (next_fault (tail fs)); [se_unfold; eauto|].
  se_unfold. simpl. case_bool_decide; eauto.
Qed.

Lemma remove_student_preserves sid w :
  consistent (w_db w) → consistent (w_db (remove_student sid w).2).
Proof.
  intros [Hpk Hc].
  destruct (remove_student_outcome sid w) as (r & w' & -> & [Hdb | Hdb]);
    simpl; rewrite Hdb; [done|].
  split; simpl.
  - by apply NoDup_fmap_filter.
  - apply Forall_forall. intros s [Hne Hin]%list_elem_of_filter.
    rewrite Forall_forall in Hc. specialize (Hc s Hin).
    unfold count_matches, present_rows in *. simpl.
    destruct (student_exists (w_db w) sid); [|done].
    rewrite Hc. f_equal. symmetry. apply filter_filter_absorb.
    intros a _ [Ha _]. congruence.
Qed.

Lemma cursor_execute_eq {A} (q : Stmt A) work comm fs lg :
  cursor_execute q (mkConn work comm fs lg) =
    if next_fault fs then (Exc OperationalError, mkConn work comm (tail fs) lg)
    else match q work with
         | inl e => (Exc e, mkConn work comm (tail fs) lg)
         | inr (a, db') => (Val a, mkConn db' comm (tail fs) lg)
         end.
Proof.
  se_unfold. destruct fs as [|[] fs]; simpl; try done;
    destruct (q work) as [e|[a db']]; done.
Qed.

Lemma commit_eq work comm fs lg :
  commit (mkConn work comm fs lg) =
    if next_fault fs then (Exc OperationalError, mkConn work comm (tail fs) lg)
    else (Val (), mkConn work work (tail fs) lg).
Proof. se_unfold. by destruct fs as [|[] fs]. Qed.

Lemma filter_all {A} (P : A → Prop) `{∀ x, Decision (P x)} (l : list A) :
  Forall P l → filter P l = l.
Proof.
  induction 1 as [|a l Ha _ IH]; [done|]. rewrite filter_cons_True by done. by f_equal.
Qed.

Lemma delete_group_after_students gid db :
  let db3 :=
    mkDB (filter (λ s, student_group s ≠ gid) (students db))
         (filter (λ r, att_student r ∉
                         student_id <$> filter (λ s, student_group s = gid) (students db))
                 (filter (λ r, att_group r ≠ gid) (attendance db)))
         (groups db) (filter (λ e, exam_group e ≠ gid) (exams db))
         (attendance_seq db) (attendance_key db) in
  delete_group gid db3 =
    inr (rowcount (filter (λ g, group_id g = gid) (groups db)), group_deleted gid db).
Proof.
  intros db3. unfold delete_group.
  assert (Hno : bool_decide (gid ∈ student_group <$> students db3) = false).
  { apply bool_decide_eq_false_2.
    intros (s & Hg & [Hne _]%list_elem_of_filter)%list_elem_of_fmap. done. }
  rewrite Hno, andb_false_r. f_equal. f_equal. unfold group_deleted. f_equal.
  destruct (group_exists db3 gid); [|done]. simpl.
  apply filter_all, Forall_forall.
  by intros r [_ [? _]%list_elem_of_filter]%list_elem_of_filter.
Qed.

(** Every way [delete_group_by_id] can end: the four DELETEs are one
    transaction, so the store is either untouched or rid of the group,
    and it is rid of the group exactly when the id is non-zero and no
    storage failure falls within the five accesses. *)
Lemma delete_group_by_id_cases gid w :
  ∃ r w', delete_group_by_id gid w = (Val r, w') ∧
    ((¬ deletes_group gid w ∧ w_db w' = w_db w)
     ∨ (deletes_group gid w ∧ w_db w' = group_deleted gid (w_db w))).
Proof.
  unfold delete_group_by_id, deletes_group.
  destruct (truthy_int gid) eqn:Hgid; simpl;
    [|unfold mret, SE_ret; do 2 eexists; split; [done|left; split; [by intros [? _]|done]]].
  destruct w as [db fs lg]. unfold try_except, get_connection. simpl.
  assert (Hfail : ∀ k, (k < 5)%nat → next_fault (Nat.iter k tail fs) = true →
                       ¬ (true = true ∧ true ∉ take 5 fs)).
  { intros k Hk Hf [_ Hno]. apply Hno. by eapply failure_within_next. }
  unfold mbind at 1, SE_bind at 1. rewrite cursor_execute_eq.
  destruct (next_fault fs) eqn:F1;
    [se_unfold; do 2 eexists; split; [done|left; split; [apply (Hfail 0%nat); [lia|done]|done]]|].
  simpl.
  unfold mbind at 1, SE_bind at 1. rewrite cursor_execute_eq.
  destruct (next_fault (tail fs)) eqn:F2;
    [se_unfold; do 2 eexists; split; [done|left; split; [apply (Hfail 1%nat); [lia|done]|done]]|].
  simpl.
  unfold mbind at 1, SE_bind at 1. rewrite cursor_execute_eq.
  destruct (next_fault (tail (tail fs))) eqn:F3;
    [se_unfold; do 2 eexists; split; [done|left; split; [apply (Hfail 2%nat); [lia|done]|done]]|].
  simpl.
  unfold mbind at 1, SE_bind at 1. rewrite cursor_execute_eq.
  destruct (next_fault (tail (tail (tail fs)))) eqn:F4;
    [se_unfold; do 2 eexists; split; [done|left; split; [apply (Hfail 3%nat); [lia|done]|done]]|].
  unfold with_attendance, with_exams. simpl.
  rewrite (delete_group_after_students gid db).
  unfold mbind at 1, SE_bind at 1. unfold mbind at 1, SE_bind at 1. rewrite commit_eq.
  destruct (next_fault (tail (tail (tail (tail fs))))) eqn:F5;
    [se_unfold; do 2 eexists; split; [done|left; split; [apply (Hfail 4%nat); [lia|done]|done]]|].
  assert (Hnone : true ∉ take 5 fs).
  { apply no_failure_within. intros [|[|[|[|[|k]]]]] Hk; simpl; try done; lia. }
  case_bool_decide; se_unfold; simpl; do 2 eexists; (split; [done|right; by split]).
Qed.

Lemma delete_group_by_id_outcome gid w :
  ∃ r w', delete_group_by_id gid w = (Val r, w') ∧
    (w_db w' = w_db w ∨ w_db w' = group_deleted gid (w_db w)).
Proof.
  destruct (delete_group_by_id_cases gid w) as (r & w' & Heq & [[_ Hdb] | [_ Hdb]]); eauto.
Qed.

Lemma NoDup_fmap_eq {A B} (f : A → B) (l : list A) x y :
  NoDup (f <$> l) → x ∈ l → y ∈ l → f x = f y → x = y.
Proof.
  induction l as [|a l IH]; [by intros _ ?%elem_of_nil|].
  rewrite fmap_cons. intros [Hnotin Hnd]%NoDup_cons.
  intros [->|Hx]%elem_of_cons [->|Hy]%elem_of_cons Heq; [done| | |by apply IH].
  - destruct Hnotin. rewrite Heq. by apply list_elem_of_fmap_2.
  - destruct Hnotin. rewrite <- Heq. by apply list_elem_of_fmap_2.
Qed.

Lemma consistent_group_deleted gid db :
  group_closed gid db → consistent db → consistent (group_deleted gid db).
Proof.
  intros Hclosed [Hpk Hc]. split; simpl.
  - by apply NoDup_fmap_filter.
  - apply Forall_forall. intros s [Hne Hin]%list_elem_of_filter.
    rewrite Forall_forall in Hc. specialize (Hc s Hin).
    unfold count_matches, present_rows in *. simpl. rewrite Hc. f_equal. symmetry.
    rewrite filter_filter_absorb.
    + apply filter_filter_absorb. intros a Ha [Hs Hp] Hg.
      unfold group_closed in Hclosed. rewrite Forall_forall in Hclosed.
      specialize (Hclosed a Ha Hg Hp). rewrite Forall_forall in Hclosed.
      by specialize (Hclosed s Hin (eq_sym Hs)).
    + intros a _ [Hs _] (s2 & Hid & [Hg2 Hin2]%list_elem_of_filter)%list_elem_of_fmap.
      assert (s = s2) by (eapply NoDup_fmap_eq; [exact Hpk|done..|congruence]).
      congruence.
Qed.

Lemma filter_strictly {A} (P Q : A → Prop) `{∀ x, Decision (P x)} `{∀ x, Decision (Q x)}
    (l : list A) (x : A) :
  x ∈ l → P x → ¬ Q x → (length (filter P (filter Q l)) < length (filter P l))%nat.
Proof.
  intros Hin HP HQ. rewrite list_filter_filter.
  rewrite (list_filter_iff _ (λ a, Q a ∧ P a)) by (intros a; tauto).
  rewrite <- list_filter_filter. apply (length_filter_lt _ _ x); [|done].
  by apply list_elem_of_filter.
Qed.

(** Deleting a group that holds a presence of a student of another group
    breaks the invariant: the student stays, with one row less. *)
Lemma unclosed_group_deleted gid db :
  consistent db → ¬ group_closed gid db → ¬ consistent (group_deleted gid db).
Proof.
  intros [Hpk Hc] Hopen [_ Hc'].
  apply not_Forall_Exists in Hopen; [|apply _].
  apply Exists_exists in Hopen as (r & Hr & Hnot). simpl in Hnot.
  destruct (decide (att_group r = gid)) as [Hg|]; [|by destruct Hnot].
  destruct (decide (att_present r = 1)) as [Hp|]; [|by destruct Hnot].
  assert (Hstud : ¬ Forall (λ s, student_id s = att_student r → student_group s = gid)
                          (students db)) by (intros ?; by apply Hnot).
  apply not_Forall_Exists in Hstud; [|apply _].
  apply Exists_exists in Hstud as (s & Hs & Hnots). simpl in Hnots.
  destruct (decide (student_id s = att_student r)) as [Hid|]; [|by destruct Hnots].
  assert (Hgs : student_group s ≠ gid) by (intros ?; by apply Hnots).
  rewrite Forall_forall in Hc, Hc'. specialize (Hc s Hs).
  assert (Hs' : s ∈ students (group_deleted gid db))
    by (by apply list_elem_of_filter).
  specialize (Hc' s Hs'). unfold count_matches, present_rows, rowcount in *.
  simpl in Hc'.
  pose proof (length_filter
                (λ a, att_student a ∉
                        student_id <$> filter (λ s0, student_group s0 = gid) (students db))
                (filter (λ a, att_student a = student_id s ∧ att_present a = 1)
                        (filter (λ a, att_group a ≠ gid) (attendance db)))) as Hle.
  rewrite list_filter_filter in Hle.
  rewrite (list_filter_iff _
             (λ a, (att_student a = student_id s ∧ att_present a = 1)
                   ∧ att_student a ∉
                       student_id <$> filter (λ s0, student_group s0 = gid) (students db)))
    in Hle by (intros a; tauto).
  rewrite <- list_filter_filter in Hle.
  pose proof (filter_strictly
                (λ a, att_student a = student_id s ∧ att_present a = 1)
                (λ a, att_group a ≠ gid) (attendance db) r Hr) as Hlt.
  lia.
Qed.

Lemma delete_group_by_id_preserves gid w :
  (deletes_group gid w → group_closed gid (w_db w)) →
  consistent (w_db w) → consistent (w_db (delete_group_by_id gid w).2).
Proof.
  intros Hclosed Hc.
  destruct (delete_group_by_id_cases gid w) as (r & w' & -> & [[_ Hdb] | [Hdel Hdb]]);
    simpl; rewrite Hdb; [done|].
  apply consistent_group_deleted; [by apply Hclosed|done].
Qed.

(** Deleting a group that holds a presence of a student of another group
    leaves that student's counter too high. *)
Lemma delete_unclosed_breaks gid w :
  consistent (w_db w) → deletes_group gid w → ¬ group_closed gid (w_db w) →
  ¬ consistent (w_db (delete_group_by_id gid w).2).
Proof.
  intros Hc Hdel Hopen.
  destruct (delete_group_by_id_cases gid w) as (r & w' & -> & [[? _] | [_ Hdb]]);
    [done|]. simpl. rewrite Hdb. by apply unclosed_group_deleted.
Qed.

(** C2, as the code has it.  From a store whose counters are right, every
    state reached through [record_attendance], [mark_absent_students],
    [remove_student] and [delete_group_by_id] has every student's
    [attendance_count] equal to the number of that student's rows with
    [present = 1], provided no group that gets deleted holds a presence
    of a student of another group, and no recording of a presence is cut
    by a storage failure at its counter UPDATE (or that UPDATE's commit).
    Storage failures at any other access, absences filed under another
    group, and every call of [mark_absent_students] and [remove_student]
    are covered.  The condition on deleted groups is needed: deleting a
    group that holds a presence of a student of another group leaves a
    store whose counters are wrong. *)
Theorem counters_consistent_when_reachable :
  (∀ w0 w, consistent (w_db w0) → reachable w0 w → consistent (w_db w))
  ∧ (∀ gid w, consistent (w_db w) → deletes_group gid w →
              ¬ group_closed gid (w_db w) →
              ¬ consistent (w_db (delete_group_by_id gid w).2)).
Proof.
  split; [|apply delete_unclosed_breaks].
  intros w0 w H0 Hreach. induction Hreach as [|w op _ IH Hadm]; [done|].
  destruct op as [sid gid date present | gid date ids | sid | gid]; simpl.
  - apply record_attendance_preserves; [|done]. intros ->. exact Hadm.
  - by apply mark_absent_students_preserves.
  - by apply remove_student_preserves.
  - by apply delete_group_by_id_preserves.
Qed.

Ltac by_computation :=
  first [ apply (bool_decide_unpack _); vm_compute; exact I
        | apply (bool_decide_eq_false _); vm_compute; reflexivity ].

(** A run under a fault plan that is not free of failures.  After the
    presence of student 1 the sixth access fails, inside
    [mark_absent_students], which skips student 1 and records student 2;
    an absence of student 2 is filed under group 2; student 3 is
    recorded and removed; group 2 is deleted with the absence filed
    under it.  Students 1 and 2 remain, with counters 1 and 0 and the
    rows to match.  And a deletion outside the condition: group 2
    holding a presence of student 1. *)
Lemma counters_consistent_when_reachable_witness :
  consistent
    (w_db (run_op (OpDeleteGroup 2)
             (run_op (OpRemoveStudent 3)
                (run_op (OpRecord 3 1 "2024-01-01" true)
                   (run_op (OpRecord 2 2 "2024-01-03" false)
                      (run_op (OpMarkAbsent 1 "2024-01-02" [1; 2])
                         (run_op (OpRecord 1 1 "2024-01-01" true) late_fault_world)))))))
  ∧ students
      (w_db (run_op (OpDeleteGroup 2)
               (run_op (OpRemoveStudent 3)
                  (run_op (OpRecord 3 1 "2024-01-01" true)
                     (run_op (OpRecord 2 2 "2024-01-03" false)
                        (run_op (OpMarkAbsent 1 "2024-01-02" [1; 2])
                           (run_op (OpRecord 1 1 "2024-01-01" true) late_fault_world)))))))
    = [mkStudent 1 "Ada" 1 1; mkStudent 2 "Bob" 1 0]
  ∧ attendance
      (w_db (run_op (OpDeleteGroup 2)
               (run_op (OpRemoveStudent 3)
                  (run_op (OpRecord 3 1 "2024-01-01" true)
                     (run_op (OpRecord 2 2 "2024-01-03" false)
                        (run_op (OpMarkAbsent 1 "2024-01-02" [1; 2])
                           (run_op (OpRecord 1 1 "2024-01-01" true) late_fault_world)))))))
    = [mkAttendance 1 1 1 "2024-01-01" 1; mkAttendance 2 2 1 "2024-01-02" 0]
  ∧ ¬ fault_free late_fault_world
  ∧ ¬ consistent
        (w_db (delete_group_by_id 2
                 (run_op (OpRecord 1 2 "2024-01-01" true) class_world)).2).
Proof.
  destruct counters_consistent_when_reachable as [Hkeeps Hbreaks].
  split_and!; [|vm_compute; reflexivity|vm_compute; reflexivity|by_computation|].
  - apply (Hkeeps late_fault_world).
    + by_computation.
    + repeat (apply reach_step; [|]); [apply reach_start|..]; by_computation.
  - apply Hbreaks; by_computation.
Defined.

(** C2 as stated fails on [delete_group_by_id]: a presence filed for
    student 1 (of group 1) under group 2 is deleted with group 2, and the
    counter of student 1 stays at 1 with no row left to count. *)
Lemma delete_group_leaves_stale_counter :
  consistent (w_db class_world)
  ∧ consistent (w_db (run_op (OpRecord 1 2 "2024-01-01" true) class_world))
  ∧ ¬ consistent
        (w_db (run_op (OpDeleteGroup 2)
                 (run_op (OpRecord 1 2 "2024-01-01" true) class_world))).
Proof. split_and!; by_computation. Qed.

(** C3, at the failing input.  The INSERT and the counter UPDATE are two
    separately committed queries: when the UPDATE fails the call answers
    [False] while the presence row stays in the table and the counter
    stays at 0, so row and counter disagree. *)
Theorem record_attendance_not_atomic :
  (record_attendance 1 1 "2024-01-01" true failing_update_world).1 = Val false
  ∧ attendance (w_db (record_attendance 1 1 "2024-01-01" true failing_update_world).2)
      = [mkAttendance 1 1 1 "2024-01-01" 1]
  ∧ students (w_db (record_attendance 1 1 "2024-01-01" true failing_update_world).2)
      = students class_db
  ∧ ¬ consistent (w_db (record_attendance 1 1 "2024-01-01" true failing_update_world).2).
Proof.
  split_and!; [vm_compute; reflexivity..|by_computation].
Qed.

(** *** The absence batch *)

Lemma rows_for_recorded sid d db : rows_for sid d db ≠ [] → recorded sid d db.
Proof.
  destruct (rows_for sid d db) as [|r l] eqn:Hrows; [done|]. intros _.
  assert (Hr : r ∈ rows_for sid d db) by (rewrite Hrows; left).
  apply list_elem_of_filter in Hr as [[? ?] ?]. by exists r.
Qed.

(** Without storage failures an absence for an existing student under an
    existing group always ends with a row for that student and date. *)
Lemma record_attendance_absent_records sid gid date w :
  fault_free w →
  truthy_int sid && truthy_int gid && truthy_str date = true →
  student_exists (w_db w) sid = true → group_exists (w_db w) gid = true →
  recorded sid date (w_db (record_attendance sid gid date false w).2).
Proof.
  intros Hfree Hvalid Hs Hg. unfold record_attendance. rewrite Hvalid. simpl.
  pose proof (fault_free_next w 0 Hfree) as F1.
  pose proof (fault_free_next w 1 Hfree) as F2.
  pose proof (fault_free_next w 2 Hfree) as F3.
  destruct w as [db fs lg]. simpl in *.
  unfold try_except, mbind at 1, SE_bind at 1.
  rewrite execute_query_fetch by done. rewrite F1. unfold select_attendance_id.
  destruct (rows_for sid date db) eqn:Hrows; simpl.
  - unfold mbind at 1, SE_bind at 1. rewrite execute_query_write.
    rewrite insert_attendance_fresh by done. rewrite F2, Hs, Hg, F3. simpl.
    se_unfold. simpl. eexists. split; [apply elem_of_app; right; left|done].
  - se_unfold. simpl. apply rows_for_recorded. by rewrite Hrows.
Qed.

Lemma recorded_appended sid d db db' new :
  attendance db' = attendance db ++ new → recorded sid d db → recorded sid d db'.
Proof.
  intros Hatt (r & Hin & ?). exists r. split; [|done]. rewrite Hatt.
  apply elem_of_app. by left.
Qed.

(** One id's rejection or duplicate does not block the others. *)
Lemma mark_absent_loop_covers gid date ids n w :
  fault_free w →
  truthy_int gid && truthy_str date = true →
  group_exists (w_db w) gid = true →
  ∀ sid, sid ∈ ids → truthy_int sid = true → student_exists (w_db w) sid = true →
         recorded sid date (w_db (mark_absent_loop gid date ids n w).2).
Proof.
  revert n w. induction ids as [|sid0 ids IH]; intros n w Hfree Hgd Hg sid Hin Hsid Hs;
    [by apply elem_of_nil in Hin|].
  simpl. unfold mbind, SE_bind.
  pose proof (record_attendance_absent_records sid0 gid date w Hfree) as Hfirst.
  destruct (record_attendance_outcome sid0 gid date false w)
    as (r & w1 & Heq & Hcons & Hcases).
  rewrite Heq in *. simpl in Hfirst.
  assert (Hsame : students (w_db w1) = students (w_db w) ∧ groups (w_db w1) = groups (w_db w)).
  { destruct Hcases as [[_ ->] | [(_ & _ & _ & _ & _ & ->) | (_ & ? & _)]]; done. }
  destruct Hsame as [Hst Hgr].
  assert (Hfree1 : fault_free w1) by (by eapply consumed_fault_free).
  assert (Hg1 : group_exists (w_db w1) gid = true) by (unfold group_exists; by rewrite Hgr).
  set (n1 := if r then n + 1 else n).
  apply elem_of_cons in Hin as [-> | Hin].
  - destruct (mark_absent_loop_spec gid date ids n1 w1) as (new & w' & Hloop & _ & Hdb & _).
    rewrite Hloop. simpl. eapply recorded_appended; [by rewrite Hdb|].
    apply Hfirst; [|done..]. apply andb_prop in Hgd as [-> ->]. by rewrite Hsid.
  - apply IH; try done. unfold student_exists. by rewrite Hst.
Qed.

Lemma mark_absent_students_spec gid date ids w :
  truthy_int gid && truthy_str date && truthy_list ids = true →
  ∃ new w',
    mark_absent_students gid date ids w = (Val (bool_decide (0 < rowcount new)), w')
    ∧ attendance (w_db w') = attendance (w_db w) ++ new
    ∧ students (w_db w') = students (w_db w)
    ∧ Forall (λ r, att_present r = 0 ∧ att_group r = gid ∧ att_date r = date
                   ∧ att_student r ∈ ids) new
    ∧ last (w_log w') = Some (MarkedAbsent (rowcount new) (rowcount ids))
    ∧ (fault_free w → group_exists (w_db w) gid = true →
       ∀ sid, sid ∈ ids → truthy_int sid = true → student_exists (w_db w) sid = true →
              recorded sid date (w_db w')).
Proof.
  intros Hguard. unfold mark_absent_students. rewrite Hguard. simpl.
  unfold try_except, mbind at 1, SE_bind at 1.
  pose proof (mark_absent_loop_covers gid date ids 0 w) as Hcov.
  destruct (mark_absent_loop_spec gid date ids 0 w) as (new & w' & Hloop & _ & Hdb & Hall).
  rewrite Hloop in *. simpl in Hcov. se_unfold. simpl.
  exists new. eexists. split_and!; [reflexivity|simpl..].
  - by rewrite Hdb.
  - by rewrite Hdb.
  - done.
  - by rewrite last_snoc.
  - intros Hfree Hg sid Hin Hsid Hs. apply Hcov; try done.
    by apply andb_prop in Hguard as [-> _].
Qed.

(** C4, as the code has it.  [mark_absent_students] applies
    [record_attendance(..., present=False)] to each id in turn, a rejected
    or duplicate id not blocking the others; it only appends absence rows
    (earlier rows and every counter stay as they were), counts the
    insertions, logs that count, and returns whether the count is
    positive.  For ids [1,2,3] on a day student 2 already has a row, two
    rows are inserted, the count logged is 2, the value returned is
    [True], and the row of student 2 is untouched. *)
Theorem mark_absent_students_batch :
  (∀ gid date ids w,
     truthy_int gid && truthy_str date && truthy_list ids = true →
     ∃ new w',
       mark_absent_students gid date ids w = (Val (bool_decide (0 < rowcount new)), w')
       ∧ attendance (w_db w') = attendance (w_db w) ++ new
       ∧ students (w_db w') = students (w_db w)
       ∧ Forall (λ r, att_present r = 0 ∧ att_group r = gid ∧ att_date r = date
                      ∧ att_student r ∈ ids) new
       ∧ last (w_log w') = Some (MarkedAbsent (rowcount new) (rowcount ids))
       ∧ (fault_free w → group_exists (w_db w) gid = true →
          ∀ sid, sid ∈ ids → truthy_int sid = true → student_exists (w_db w) sid = true →
                 recorded sid date (w_db w')))
  ∧ ((mark_absent_students 1 "2024-01-01" [1; 2; 3] class_world_day).1 = Val true
     ∧ attendance (w_db class_world_day) = [mkAttendance 1 2 1 "2024-01-01" 1]
     ∧ attendance (w_db (mark_absent_students 1 "2024-01-01" [1; 2; 3] class_world_day).2) =
         [mkAttendance 1 2 1 "2024-01-01" 1;
          mkAttendance 2 1 1 "2024-01-01" 0;
          mkAttendance 3 3 1 "2024-01-01" 0]
     ∧ last (w_log (mark_absent_students 1 "2024-01-01" [1; 2; 3] class_world_day).2)
         = Some (MarkedAbsent 2 3)).
Proof.
  split; [apply mark_absent_students_spec|].
  split_and!; vm_compute; reflexivity.
Qed.

Lemma mark_absent_students_batch_witness :
  ∃ new w',
    mark_absent_students 1 "2024-01-01" [1; 2; 3] class_world_day
      = (Val (bool_decide (0 < rowcount new)), w')
    ∧ attendance (w_db w') = attendance (w_db class_world_day) ++ new
    ∧ students (w_db w') = students (w_db class_world_day)
    ∧ Forall (λ r, att_present r = 0 ∧ att_group r = 1 ∧ att_date r = "2024-01-01"
                   ∧ att_student r ∈ [1; 2; 3]) new
    ∧ last (w_log w') = Some (MarkedAbsent (rowcount new) (rowcount [1; 2; 3]))
    ∧ (fault_free class_world_day → group_exists (w_db class_world_day) 1 = true →
       ∀ sid, sid ∈ [1; 2; 3] → truthy_int sid = true →
              student_exists (w_db class_world_day) sid = true →
              recorded sid "2024-01-01" (w_db w')).
Proof.
  apply (proj1 mark_absent_students_batch 1 "2024-01-01" [1; 2; 3] class_world_day).
  vm_compute. reflexivity.
Defined.

(** C4 as stated fails: the value returned is the boolean
    [success_count > 0], which as a number is 1, while two rows were
    inserted. *)
Lemma mark_absent_students_returns_flag :
  rowcount (attendance (w_db (mark_absent_students 1 "2024-01-01" [1; 2; 3] class_world_day).2))
    - rowcount (attendance (w_db class_world_day)) = 2
  ∧ (mark_absent_students 1 "2024-01-01" [1; 2; 3] class_world_day).1 = Val true
  ∧ int_of_bool true ≠ 2.
Proof. split_and!; [vm_compute; reflexivity..|done]. Qed.

(** *** What [False] stands for *)

(** C10.  [record_attendance] always returns a boolean, and that boolean
    is [False] alike for ill-formed parameters, for an existing row of the
    (student, date), and for a storage failure during the call; the scan
    handler turns every [False] into the one message "Attendance already
    recorded for this student today". *)
Theorem record_attendance_false_conflated :
  (∀ sid gid date present w, ∃ r w', record_attendance sid gid date present w = (Val r, w'))
  ∧ (∀ sid gid date present w,
       truthy_int sid && truthy_int gid && truthy_str date = false
       ∨ recorded sid date (w_db w)
       ∨ storage_failure present w →
       (record_attendance sid gid date present w).1 = Val false)
  ∧ (∀ sid gid date present w w',
       truthy_int sid && truthy_int gid && truthy_str date = true →
       record_attendance sid gid date (default true present) w = (Val false, w') →
       Main.scan_attendance (Main.mkScanRequest (Some sid) (Some gid) (Some date) present) w
         = (Val (Main.JsonResponse false
                   "Attendance already recorded for this student today"), w')).
Proof.
  split_and!.
  - intros. destruct (record_attendance_outcome sid gid date present w)
      as (r & w' & Heq & _). eauto.
  - intros sid gid date present w [Hbad | [Hrec | Hfail]].
    + unfold record_attendance. rewrite Hbad. done.
    + destruct (duplicate_is_rejected sid gid date present w Hrec) as (w' & -> & _).
      done.
    + destruct (record_attendance_outcome sid gid date present w)
        as (r & w' & -> & _ & [[-> _] | [(_ & _ & _ & _ & Hok & _) | (-> & _)]]); done.
  - intros sid gid date present w w' Hvalid Heq.
    unfold Main.scan_attendance. simpl. rewrite Hvalid. simpl.
    unfold try_except, mbind, SE_bind. by rewrite Heq.
Qed.

Lemma record_attendance_false_conflated_witness :
  (record_attendance 0 1 "2024-01-01" true class_world).1 = Val false
  ∧ (record_attendance 2 2 "2024-01-01" true class_world_day).1 = Val false
  ∧ (record_attendance 1 1 "2024-01-01" true failing_update_world).1 = Val false
  ∧ Main.scan_attendance (Main.mkScanRequest (Some 2) (Some 2) (Some "2024-01-01") None)
      class_world_day
    = (Val (Main.JsonResponse false "Attendance already recorded for this student today"),
       (record_attendance 2 2 "2024-01-01" true class_world_day).2).
Proof.
  destruct record_attendance_false_conflated as (_ & Hfalse & Hscan).
  split_and!.
  - apply Hfalse. left. reflexivity.
  - apply Hfalse. right; left.
    exists (mkAttendance 1 2 1 "2024-01-01" 1). vm_compute. split; [left | done].
  - apply Hfalse. right; right. vm_compute. do 3 right. left.
  - apply Hscan; vm_compute; reflexivity.
Defined.
End LedgerFacts.

(** ** Session tokens *)

Module WireFacts.
Import Wire.

Lemma undigits_digits p : undigits (digits p) = Some p.
Proof. induction p as [p IH|p IH|]; simpl; [by rewrite IH..|done]. Qed.

Lemma parse_serialize t : parse (serialize t) = Some t.
Proof. unfold parse, serialize. rewrite undigits_digits. apply decode_encode. Qed.

End WireFacts.

Module JWTFacts.
Import JWT.

Section TokenFacts.

Variable config : Config.
Variable jwt_serialize : JWS → string.
Variable jwt_parse : string → option JWS.
Variable py_int : string → option Z.
Variable exn_str : exn → string.

(** The serialisation reads back what it wrote. *)
Hypothesis parse_serialize : ∀ t, jwt_parse (jwt_serialize t) = Some t.

#[local] Abbreviation generate_token := (generate_token config jwt_serialize).
#[local] Abbreviation create_access_token := (create_access_token config jwt_serialize).
#[local] Abbreviation verify_token := (verify_token config jwt_parse py_int exn_str).
#[local] Abbreviation jwt_decode := (jwt_decode jwt_parse py_int).
#[local] Abbreviation get_current_teacher_optional :=
  (get_current_teacher_optional config jwt_parse py_int exn_str).

#[local] Abbreviation issued_claims := (TokenSpec.issued_claims config).
#[local] Abbreviation authenticated :=
  (TokenSpec.authenticated config jwt_parse py_int exn_str).

Lemma generate_token_parse utcnow1 utcnow2 data :
  jwt_parse (generate_token utcnow1 utcnow2 data) =
    Some (mkJWS (JWT_ALGORITHM config) (issued_claims utcnow1 utcnow2 data)
                (JWT_SECRET_KEY config)).
Proof. unfold JWT.generate_token, jwt_encode. by rewrite parse_serialize. Qed.

Lemma issued_type utcnow1 utcnow2 data :
  issued_claims utcnow1 utcnow2 data !! "type" = Some (VStr "access_token").
Proof. unfold TokenSpec.issued_claims. by rewrite lookup_insert_eq. Qed.

Lemma issued_iat utcnow1 utcnow2 data :
  issued_claims utcnow1 utcnow2 data !! "iat" = Some (VNum utcnow2).
Proof.
  unfold TokenSpec.issued_claims. rewrite lookup_insert_ne by done. by rewrite lookup_insert_eq.
Qed.

Lemma issued_exp utcnow1 utcnow2 data :
  issued_claims utcnow1 utcnow2 data !! "exp"
    = Some (VNum (utcnow1 + 3600 * JWT_EXPIRATION_HOURS config)).
Proof.
  unfold TokenSpec.issued_claims. rewrite !lookup_insert_ne by done. by rewrite lookup_insert_eq.
Qed.

Lemma issued_other utcnow1 utcnow2 data k :
  k ≠ "type" → k ≠ "iat" → k ≠ "exp" →
  issued_claims utcnow1 utcnow2 data !! k = data !! k.
Proof. intros. unfold TokenSpec.issued_claims. by rewrite !lookup_insert_ne. Qed.

(** Decoding a token signed with the configured key and algorithm comes
    down to the validation of its claims. *)
Lemma jwt_decode_signed now claims :
  jwt_decode now (jwt_encode jwt_serialize claims (JWT_SECRET_KEY config) (JWT_ALGORITHM config))
             (JWT_SECRET_KEY config) [JWT_ALGORITHM config] =
    res_then (validate_iat py_int now claims)
   (res_then (validate_nbf py_int now claims)
   (res_then (validate_exp py_int now claims)
   (res_then (validate_aud claims)
   (res_then (validate_sub claims)
   (res_then (validate_jti claims) (Val claims)))))).
Proof.
  unfold JWT.jwt_decode, jwt_encode. rewrite parse_serialize. simpl.
  rewrite bool_decide_eq_true_2 by (by left).
  by rewrite bool_decide_eq_true_2.
Qed.

Lemma text_or_absent_issued utcnow1 utcnow2 data k :
  k ≠ "type" → k ≠ "iat" → k ≠ "exp" →
  TokenSpec.text_or_absent k data →
  TokenSpec.text_or_absent k (issued_claims utcnow1 utcnow2 data).
Proof. intros. unfold TokenSpec.text_or_absent. by rewrite issued_other. Qed.

Lemma validate_sub_text claims :
  TokenSpec.text_or_absent "sub" claims → validate_sub claims = Val ().
Proof.
  unfold TokenSpec.text_or_absent, validate_sub.
  by destruct (claims !! "sub") as [[]|].
Qed.

Lemma validate_jti_text claims :
  TokenSpec.text_or_absent "jti" claims → validate_jti claims = Val ().
Proof.
  unfold TokenSpec.text_or_absent, validate_jti.
  by destruct (claims !! "jti") as [[]|].
Qed.

Lemma verify_issued utcnow1 utcnow2 now data u :
  data !! "username" = Some u → data !! "nbf" = None → data !! "aud" = None →
  TokenSpec.text_or_absent "sub" data → TokenSpec.text_or_absent "jti" data →
  utcnow2 ≤ now → now < utcnow1 + 3600 * JWT_EXPIRATION_HOURS config →
  verify_token now (generate_token utcnow1 utcnow2 data) = Val u.
Proof.
  intros Hu Hnbf Haud Hsub Hjti Hiat Hexp.
  unfold JWT.verify_token, verify_token_body, JWT.generate_token.
  rewrite jwt_decode_signed. fold (TokenSpec.issued_claims config utcnow1 utcnow2 data).
  rewrite validate_sub_text, validate_jti_text by (by apply text_or_absent_issued).
  unfold validate_iat, validate_nbf, validate_exp, validate_aud.
  rewrite issued_iat, issued_exp, !issued_other, Hnbf, Haud by done. simpl.
  rewrite bool_decide_eq_false_2 by lia. simpl.
  rewrite bool_decide_eq_false_2 by lia. simpl.
  rewrite issued_other, Hu, issued_type by done.
  by rewrite bool_decide_eq_true_2.
Qed.







(** C9, as the code has it.  Whatever the username and the additional
    claims, the token of [create_access_token] is what [jwt.encode]
    makes, under the configured key and algorithm, of claims that carry
    the type "access_token", an expiry JWT_EXPIRATION_HOURS after the
    first clock reading of [generate_token] and, as [iat], its second
    clock reading: values given by the caller under "exp", "iat" or
    "type" are overwritten, every other claim is the caller's.  The
    expiry is therefore JWT_EXPIRATION_HOURS after the issue time less
    what the clock advanced between the two readings: never later (with
    a clock that does not go back), and exactly then only when the two
    readings agree.  Read back, the token shows these claims. *)
Theorem create_access_token_fixed_claims utcnow1 utcnow2 username additional_claims :
  ∃ claims exp iat,
    create_access_token utcnow1 utcnow2 username additional_claims
      = jwt_encode jwt_serialize claims (JWT_SECRET_KEY config) (JWT_ALGORITHM config)
    ∧ claims !! "type" = Some (VStr "access_token")
    ∧ claims !! "exp" = Some (VNum exp)
    ∧ claims !! "iat" = Some (VNum iat)
    ∧ exp = utcnow1 + 3600 * JWT_EXPIRATION_HOURS config
    ∧ iat = utcnow2
    ∧ exp - iat = 3600 * JWT_EXPIRATION_HOURS config - (utcnow2 - utcnow1)
    ∧ (utcnow1 ≤ utcnow2 → exp ≤ iat + 3600 * JWT_EXPIRATION_HOURS config)
    ∧ (exp = iat + 3600 * JWT_EXPIRATION_HOURS config ↔ utcnow2 = utcnow1)
    ∧ (∀ k, k ≠ "type" → k ≠ "iat" → k ≠ "exp" →
            claims !! k
            = (default ∅ additional_claims ∪ {[ "username" := VStr username ]}) !! k)
    ∧ (TokenSpec.encodable claims →
       jwt_parse (create_access_token utcnow1 utcnow2 username additional_claims)
         = Some (mkJWS (JWT_ALGORITHM config) claims (JWT_SECRET_KEY config))).
Proof.
  unfold JWT.create_access_token, JWT.generate_token.
  eexists _, (utcnow1 + 3600 * JWT_EXPIRATION_HOURS config), utcnow2.
  split; [reflexivity|].
  fold (TokenSpec.issued_claims config utcnow1 utcnow2
          match additional_claims with
          | Some claims =>
              if bool_decide (claims = ∅) then {[ "username" := VStr username ]}
              else claims ∪ {[ "username" := VStr username ]}
          | None => {[ "username" := VStr username ]}
          end).
  rewrite issued_type, issued_exp, issued_iat.
  split_and!; try done; try lia.
  - intros k ? ? ?. rewrite issued_other by done.
    destruct additional_claims as [claims|]; simpl; [|by rewrite (left_id_L ∅ (∪))].
    case_bool_decide as Hempty; [|done]. subst claims. by rewrite (left_id_L ∅ (∪)).
  - intros _. apply parse_serialize.
Qed.

(** *** Optional authentication *)

Lemma substring_whole s : String.substring 0 (String.length s) s = s.
Proof. induction s as [|c s IH]; simpl; [done|]. by rewrite IH. Qed.

Lemma bearer_stripped t :
  String.prefix "Bearer " ("Bearer " +:+ t) = true
  ∧ String.substring 7 (String.length ("Bearer " +:+ t) - 7) ("Bearer " +:+ t) = t.
Proof.
  split.
  - simpl. by destruct t.
  - simpl. rewrite Nat.sub_0_r. apply substring_whole.
Qed.

Lemma truthy_str_nonempty t : t ≠ "" → truthy_str t = true.
Proof. by destruct t. Qed.

Lemma prefix_split p h : String.prefix p h = true → ∃ t, h = p +:+ t.
Proof.
  revert h. induction p as [|a p IH]; intros h; [by exists h|].
  destruct h as [|b h]; simpl; [done|].
  destruct (Ascii.ascii_dec a b) as [->|]; [|done].
  intros [t ->]%IH. by exists t.
Qed.

(** Without a token in the header the query parameter decides. *)
Lemma optional_falls_back now request :
  TokenSpec.no_bearer_token request →
  get_current_teacher_optional now request
  = match query_params request !! "token" with
    | Some t => if negb (truthy_str t) then Val None else authenticated now t
    | None => Val None
    end.
Proof.
  unfold TokenSpec.no_bearer_token, JWT.get_current_teacher_optional.
  destruct (headers request !! "Authorization") as [h|]; [|done].
  intros [Hno | ->].
  - rewrite Hno, andb_false_r. done.
  - done.
Qed.

Lemma optional_bearer now request t :
  headers request !! "Authorization" = Some ("Bearer " +:+ t) → t ≠ "" →
  get_current_teacher_optional now request = authenticated now t.
Proof.
  intros Hh Ht. unfold JWT.get_current_teacher_optional. rewrite Hh.
  destruct (bearer_stripped t) as [-> ->].
  replace (truthy_str ("Bearer " +:+ t)) with true by done. simpl.
  rewrite (truthy_str_nonempty t Ht). simpl. by rewrite (truthy_str_nonempty t Ht).
Qed.

(** C6.  [get_current_teacher_optional] takes the token from the
    Authorization header, stripped of its "Bearer " prefix, before the
    [token] query parameter; it falls back to the query parameter when
    the header is missing, is not a Bearer header, or carries nothing
    after the prefix.  With no token in either place (the parameter
    missing or empty) it returns [None] without raising; with a token it
    returns or raises exactly as [verify_token] does on that token.
    Every request falls under one of the three cases. *)
Theorem optional_authentication now request :
  (TokenSpec.no_bearer_token request → TokenSpec.no_query_token request →
   get_current_teacher_optional now request = Val None)
  ∧ (∀ t, headers request !! "Authorization" = Some ("Bearer " +:+ t) → t ≠ "" →
          get_current_teacher_optional now request = authenticated now t)
  ∧ (∀ t, TokenSpec.no_bearer_token request →
          query_params request !! "token" = Some t → t ≠ "" →
          get_current_teacher_optional now request = authenticated now t)
  ∧ (∀ t e, headers request !! "Authorization" = Some ("Bearer " +:+ t)
            ∨ (TokenSpec.no_bearer_token request
               ∧ query_params request !! "token" = Some t) →
            t ≠ "" → verify_token now t = Exc e →
            get_current_teacher_optional now request = Exc e)
  ∧ ((TokenSpec.no_bearer_token request ∧ TokenSpec.no_query_token request)
     ∨ (∃ t, headers request !! "Authorization" = Some ("Bearer " +:+ t) ∧ t ≠ "")
     ∨ (TokenSpec.no_bearer_token request
        ∧ ∃ t, query_params request !! "token" = Some t ∧ t ≠ "")).
Proof.
  assert (Hquery : ∀ t, TokenSpec.no_bearer_token request →
                        query_params request !! "token" = Some t → t ≠ "" →
                        get_current_teacher_optional now request = authenticated now t).
  { intros t Hno Hq Ht. rewrite (optional_falls_back now request Hno), Hq.
    by rewrite (truthy_str_nonempty t Ht). }
  split_and!.
  - intros Hno Hq. rewrite (optional_falls_back now request Hno).
    unfold TokenSpec.no_query_token in Hq.
    destruct (query_params request !! "token") as [t|]; [by subst t|done].
  - apply optional_bearer.
  - exact Hquery.
  - intros t e [Hh | [Hno Hq]] Ht He.
    + rewrite (optional_bearer now request t Hh Ht). unfold TokenSpec.authenticated.
      by rewrite He.
    + rewrite (Hquery t Hno Hq Ht). unfold TokenSpec.authenticated. by rewrite He.
  - assert (Hparam : TokenSpec.no_bearer_token request →
              (TokenSpec.no_bearer_token request ∧ TokenSpec.no_query_token request)
              ∨ (∃ t, headers request !! "Authorization" = Some ("Bearer " +:+ t) ∧ t ≠ "")
              ∨ (TokenSpec.no_bearer_token request
                 ∧ ∃ t, query_params request !! "token" = Some t ∧ t ≠ "")).
    { intros Hno. unfold TokenSpec.no_query_token.
      destruct (query_params request !! "token") as [t|] eqn:Hq; [|by left].
      destruct (decide (t = "")) as [->|Ht]; [by left|]. right; right. eauto. }
    unfold TokenSpec.no_bearer_token in *.
    destruct (headers request !! "Authorization") as [h|] eqn:Hh; [|by apply Hparam].
    destruct (String.prefix "Bearer " h) eqn:Hpre; [|apply Hparam; by left].
    apply prefix_split in Hpre as [t ->].
    destruct (decide (t = "")) as [->|Ht]; [apply Hparam; by right|].
    right; left. eauto.
Qed.

End TokenFacts.

(** *** Instances on the sample wire format and the default configuration *)



Lemma create_access_token_fixed_claims_witness :
  ∃ claims exp iat,
    create_access_token default_config Wire.serialize 1700000000 1700000003 "alice"
      (Some {[ "exp" := VNum 9999999999; "type" := VStr "admin";
               "iat" := VNum 0; "role" := VStr "teacher" ]})
      = jwt_encode Wire.serialize claims (JWT_SECRET_KEY default_config)
                   (JWT_ALGORITHM default_config)
    ∧ claims !! "type" = Some (VStr "access_token")
    ∧ claims !! "exp" = Some (VNum exp)
    ∧ claims !! "iat" = Some (VNum iat)
    ∧ exp = 1700000000 + 3600 * JWT_EXPIRATION_HOURS default_config
    ∧ iat = 1700000003
    ∧ exp - iat = 3600 * JWT_EXPIRATION_HOURS default_config - (1700000003 - 1700000000)
    ∧ (1700000000 ≤ 1700000003 → exp ≤ iat + 3600 * JWT_EXPIRATION_HOURS default_config)
    ∧ (exp = iat + 3600 * JWT_EXPIRATION_HOURS default_config ↔ 1700000003 = 1700000000)
    ∧ (∀ k, k ≠ "type" → k ≠ "iat" → k ≠ "exp" →
            claims !! k
            = (default ∅ (Some ({[ "exp" := VNum 9999999999; "type" := VStr "admin";
                                   "iat" := VNum 0; "role" := VStr "teacher" ]}
                                 : gmap string Value))
               ∪ {[ "username" := VStr "alice" ]}) !! k)
    ∧ (TokenSpec.encodable claims →
       Wire.parse (create_access_token default_config Wire.serialize 1700000000 1700000003
                     "alice"
                     (Some {[ "exp" := VNum 9999999999; "type" := VStr "admin";
                              "iat" := VNum 0; "role" := VStr "teacher" ]}))
         = Some (mkJWS (JWT_ALGORITHM default_config) claims
                       (JWT_SECRET_KEY default_config))).
Proof.
  apply (create_access_token_fixed_claims default_config Wire.serialize Wire.parse
           WireFacts.parse_serialize).
Defined.

(** C9 as stated fails: the two clock readings of [generate_token] may
    differ.  When the second falls in the next second, the token of the
    default configuration expires 86399 seconds after its issue time,
    one second short of the 24 hours. *)
Lemma expiry_short_of_issue_time :
  ∃ claims,
    Wire.parse (create_access_token default_config Wire.serialize 1700000000 1700000001
                  "alice" None)
      = Some (mkJWS (JWT_ALGORITHM default_config) claims (JWT_SECRET_KEY default_config))
    ∧ claims !! "exp" = Some (VNum 1700086400)
    ∧ claims !! "iat" = Some (VNum 1700000001)
    ∧ 1700086400 - 1700000001 = 86399
    ∧ 3600 * JWT_EXPIRATION_HOURS default_config = 86400.
Proof.
  eexists. split.
  - apply (generate_token_parse default_config Wire.serialize Wire.parse
             WireFacts.parse_serialize).
  - split_and!; vm_compute; reflexivity.
Qed.

Lemma optional_authentication_witness :
  get_current_teacher_optional default_config Wire.parse Wire.no_int Wire.blank 1700000000
    (mkRequest ∅ ∅) = Val None
  ∧ get_current_teacher_optional default_config Wire.parse Wire.no_int Wire.blank 1700000000
      (mkRequest {[ "Authorization" := "Basic abc" ]} ∅) = Val None
  ∧ get_current_teacher_optional default_config Wire.parse Wire.no_int Wire.blank 1700000000
      (mkRequest {[ "Authorization" := "Bearer " ]} {[ "token" := "" ]}) = Val None
  ∧ get_current_teacher_optional default_config Wire.parse Wire.no_int Wire.blank 1700000000
      Wire.alice_request
    = TokenSpec.authenticated default_config Wire.parse Wire.no_int Wire.blank 1700000000 "not-a-token"
  ∧ get_current_teacher_optional default_config Wire.parse Wire.no_int Wire.blank 1700000000
      (mkRequest {[ "Authorization" := "Basic abc" ]} {[ "token" := "not-a-token" ]})
    = TokenSpec.authenticated default_config Wire.parse Wire.no_int Wire.blank 1700000000 "not-a-token"
  ∧ get_current_teacher_optional default_config Wire.parse Wire.no_int Wire.blank 1700000000
      Wire.alice_request
    = Exc (HTTPException 401 "Invalid token").
Proof.
  pose proof (optional_authentication default_config Wire.parse Wire.no_int Wire.blank
                1700000000) as Hopt.
  split_and!.
  - apply (proj1 (Hopt (mkRequest ∅ ∅))); exact I.
  - apply (proj1 (Hopt (mkRequest {[ "Authorization" := "Basic abc" ]} ∅)));
      [left; reflexivity | exact I].
  - apply (proj1 (Hopt (mkRequest {[ "Authorization" := "Bearer " ]} {[ "token" := "" ]})));
      [right; reflexivity | reflexivity].
  - apply (proj1 (proj2 (Hopt Wire.alice_request)) "not-a-token"); [reflexivity | discriminate].
  - apply (proj1 (proj2 (proj2
             (Hopt (mkRequest {[ "Authorization" := "Basic abc" ]}
                              {[ "token" := "not-a-token" ]}))))
             "not-a-token");
      [left; reflexivity | reflexivity | discriminate].
  - apply (proj1 (proj2 (proj2 (proj2 (Hopt Wire.alice_request)))) "not-a-token");
      [left; reflexivity | discriminate | vm_compute; reflexivity].
Defined.

End JWTFacts.

(** ** QR images and the bulk export *)

Module QRFacts.
Import Store Ledger LedgerSpec LedgerFacts QR Main QRSamples ExportSpec.

(** C7, at the failing input.  When the save returns normally but leaves
    an empty file, [generate_student_qr] reports the failure by returning
    [None], yet the zero-byte file stays at the student's QR path: the
    clean-up exists only in the exception handler. *)
Theorem generate_student_qr_leaves_empty_file :
  (generate_student_qr silent_empty_env 7 bare_host).1 = Val None
  ∧ files (generate_student_qr silent_empty_env 7 bare_host).2 !! qr_path_of 7 = Some []
  ∧ stdout (generate_student_qr silent_empty_env 7 bare_host).2
      = [QrFileEmpty (qr_path_of 7)].
Proof. split_and!; vm_compute; reflexivity. Qed.

(** What [get_students_in_group] answers, in terms of the table. *)
Lemma get_students_in_group_none gid w :
  filter (λ s, student_group s = gid) (students (w_db w)) = [] →
  ∃ w', get_students_in_group gid w = (Val [], w').
Proof.
  intros Hnone. unfold get_students_in_group.
  destruct (truthy_int gid); simpl; [|unfold mret, SE_ret; eauto].
  destruct w as [db fs lg]. unfold try_except. rewrite execute_query_fetch by done.
  unfold select_students_in_group. simpl in Hnone. rewrite Hnone.
  destruct (next_fault fs); se_unfold; simpl; eauto.
Qed.

Lemma get_students_in_group_all gid w :
  truthy_int gid = true → next_fault (w_faults w) = false →
  ∃ l w', get_students_in_group gid w = (Val l, w')
          ∧ l ≡ₚ filter (λ s, student_group s = gid) (students (w_db w)).
Proof.
  intros Hgid Hok. unfold get_students_in_group. rewrite Hgid. simpl.
  destruct w as [db fs lg]. simpl in Hok.
  unfold try_except. rewrite execute_query_fetch by done. rewrite Hok.
  unfold select_students_in_group. do 2 eexists. split; [reflexivity|].
  apply StoreFacts.order_by_Permutation.
Qed.

Section BulkExportFacts.

Variable config : Config.
Variable env : Z → QrEnv.
Variable qr_dir_raises : bool.
Variable create_safe_filename : string → string.
Variable package : Z → list (string * string) → SE App Response.

#[local] Abbreviation endpoint :=
  (get_group_qrcodes_endpoint config env qr_dir_raises create_safe_filename package).

(** C8.  For a group without students the bulk export raises 404 "No
    students found in this group"; for a group with more students than
    a non-negative MAX_STUDENTS_PER_GROUP (read without storage failure)
    it raises 400 "Group too large ..."; in both cases the host is left as it was: no
    directory made, no image written, nothing printed. *)
Theorem bulk_export_guards gid a :
  (members gid a = [] →
   (endpoint gid a).1 = Exc (HTTPException 404 "No students found in this group")
   ∧ app_host (endpoint gid a).2 = app_host a)
  ∧ (truthy_int gid = true → next_fault (w_faults (app_world a)) = false →
     0 ≤ MAX_STUDENTS_PER_GROUP config →
     MAX_STUDENTS_PER_GROUP config < rowcount (members gid a) →
     (endpoint gid a).1 =
       Exc (HTTPException 400
              ("Group too large. Maximum " +:+ pretty (MAX_STUDENTS_PER_GROUP config)
               +:+ " students allowed for bulk download"))
     ∧ app_host (endpoint gid a).2 = app_host a).
Proof.
  split.
  - intros Hnone. destruct (get_students_in_group_none gid (app_world a) Hnone) as [w' Hget].
    unfold get_group_qrcodes_endpoint, mbind, SE_bind, in_world. rewrite Hget. done.
  - intros Hgid Hok Hmax Hmany.
    destruct (get_students_in_group_all gid (app_world a) Hgid Hok) as (l & w' & Hget & Hperm).
    unfold get_group_qrcodes_endpoint, mbind, SE_bind, in_world. rewrite Hget.
    assert (Hlen : rowcount l = rowcount (members gid a))
      by (unfold rowcount; by rewrite Hperm).
    rewrite <- Hlen in Hmany. unfold rowcount in Hmany.
    destruct l as [|s l]; [simpl in Hmany; lia|].
    simpl truthy_list. simpl negb. cbv iota.
    rewrite bool_decide_eq_true_2 by exact Hmany. done.
Qed.

End BulkExportFacts.

Lemma bulk_export_guards_witness :
  ((get_group_qrcodes_endpoint default_config (λ _, working_env) false id no_package 2
      (mkApp class_world bare_host)).1
     = Exc (HTTPException 404 "No students found in this group")
   ∧ app_host (get_group_qrcodes_endpoint default_config (λ _, working_env) false id
                 no_package 2 (mkApp class_world bare_host)).2 = bare_host)
  ∧ ((get_group_qrcodes_endpoint small_config (λ _, working_env) false id no_package 1
        (mkApp class_world bare_host)).1
       = Exc (HTTPException 400
                ("Group too large. Maximum " +:+ pretty (MAX_STUDENTS_PER_GROUP small_config)
                 +:+ " students allowed for bulk download"))
     ∧ app_host (get_group_qrcodes_endpoint small_config (λ _, working_env) false id
                   no_package 1 (mkApp class_world bare_host)).2 = bare_host).
Proof.
  split.
  - apply (proj1 (bulk_export_guards default_config (λ _, working_env) false id no_package
                    2 (mkApp class_world bare_host))).
    vm_compute. reflexivity.
  - apply (proj2 (bulk_export_guards small_config (λ _, working_env) false id no_package
                    1 (mkApp class_world bare_host)));
      [reflexivity | reflexivity | vm_compute; discriminate | vm_compute; reflexivity].
Defined.

End QRFacts.

(** * Further properties of the code *)

(** ** The ledger: what a recording does *)

Module LedgerExtra.
Import Store Ledger LedgerSpec LedgerFacts LedgerMore.

Lemma no_storage_failure_next present w k :
  ¬ storage_failure present w → (k < accesses present)%nat →
  next_fault (Nat.iter k tail (w_faults w)) = false.
Proof.
  intros Hok Hlt. destruct (next_fault _) eqn:E; [|done].
  destruct Hok. by eapply failure_within_next.
Qed.

(** ** The ledger: the ids of the attendance rows *)

Lemma seq_bounds_inserted db sid gid d p :
  seq_bounds_ids db → seq_bounds_ids (inserted db sid gid d p).
Proof.
  unfold seq_bounds_ids, inserted. simpl. intros Hb. apply Forall_app. split.
  - eapply Forall_impl; [exact Hb|]. simpl. intros r Hr. lia.
  - apply Forall_singleton. simpl. lia.
Qed.

Lemma seq_bounds_fresh db :
  seq_bounds_ids db → attendance_seq db + 1 ∉ attendance_id <$> attendance db.
Proof.
  intros Hb (r & Hid & Hin)%list_elem_of_fmap. unfold seq_bounds_ids in Hb.
  rewrite Forall_forall in Hb. specialize (Hb r Hin). lia.
Qed.

Lemma Forall_filter_keep {A} (P Q : A → Prop) `{∀ x, Decision (Q x)} (l : list A) :
  Forall P l → Forall P (filter Q l).
Proof.
  rewrite !Forall_forall. intros Hl x [_ Hx]%list_elem_of_filter. by apply Hl.
Qed.

Lemma record_attendance_bounded sid gid date present w :
  seq_bounds_ids (w_db w) →
  seq_bounds_ids (w_db (record_attendance sid gid date present w).2).
Proof.
  intros Hb.
  destruct (record_attendance_outcome sid gid date present w)
    as (r & w' & -> & _ & [[_ Hdb] | [(_ & _ & _ & _ & _ & Hdb)
                                     | (_ & _ & _ & Hdb & _)]]);
    simpl; rewrite Hdb; [done| |by apply seq_bounds_inserted].
  destruct present; [|by apply seq_bounds_inserted].
  change (seq_bounds_ids (inserted (w_db w) sid gid date 1)). by apply seq_bounds_inserted.
Qed.

Lemma mark_absent_loop_bounded gid date ids n w :
  seq_bounds_ids (w_db w) →
  seq_bounds_ids (w_db (mark_absent_loop gid date ids n w).2).
Proof.
  revert n w. induction ids as [|sid ids IH]; intros n w Hb; [done|].
  simpl. unfold mbind, SE_bind.
  pose proof (record_attendance_bounded sid gid date false w Hb) as Hstep.
  destruct (record_attendance_outcome sid gid date false w) as (r & w1 & Heq & _).
  rewrite Heq in *. simpl in Hstep. by apply IH.
Qed.

Lemma run_op_bounded op w :
  seq_bounds_ids (w_db w) → seq_bounds_ids (w_db (run_op op w)).
Proof.
  intros Hb. destruct op as [sid gid date present | gid date ids | sid | gid]; simpl.
  - by apply record_attendance_bounded.
  - unfold mark_absent_students.
    destruct (truthy_int gid && truthy_str date && truthy_list ids); [|done]. simpl.
    unfold try_except, mbind at 1, SE_bind at 1.
    pose proof (mark_absent_loop_bounded gid date ids 0 w Hb) as Hloop.
    destruct (mark_absent_loop_spec gid date ids 0 w) as (new & w' & Heq & _).
    rewrite Heq in *. se_unfold. done.
  - destruct (remove_student_outcome sid w) as (r & w' & -> & [Hdb | Hdb]);
      simpl; rewrite Hdb; [done|]. unfold seq_bounds_ids in *. simpl.
    destruct (student_exists (w_db w) sid); [|done]. by apply Forall_filter_keep.
  - destruct (delete_group_by_id_outcome gid w) as (r & w' & -> & [Hdb | Hdb]);
      simpl; rewrite Hdb; [done|]. unfold seq_bounds_ids in *. simpl.
    by do 2 apply Forall_filter_keep.
Qed.

Lemma run_ops_bounded ops w :
  seq_bounds_ids (w_db w) → seq_bounds_ids (w_db (run_ops ops w)).
Proof.
  revert w. induction ops as [|op ops IH]; intros w Hb; [done|].
  simpl. apply IH. by apply run_op_bounded.
Qed.

(** A recording that meets no obstacle. *)
Lemma fresh_recording sid gid date present w :
  truthy_int sid && truthy_int gid && truthy_str date = true →
  ¬ recorded sid date (w_db w) →
  student_exists (w_db w) sid = true → group_exists (w_db w) gid = true →
  ¬ storage_failure present w →
  ∃ w', record_attendance sid gid date present w = (Val true, w')
    ∧ attendance (w_db w') =
        attendance (w_db w)
          ++ [mkAttendance (attendance_seq (w_db w) + 1) sid gid date
                           (if present then 1 else 0)]
    ∧ students (w_db w') =
        (if present then bump sid <$> students (w_db w) else students (w_db w))
    ∧ groups (w_db w') = groups (w_db w) ∧ exams (w_db w') = exams (w_db w)
    ∧ w_log w' = w_log w ++ [AttendanceRecorded sid present]
    ∧ attendance_seq (w_db w') = attendance_seq (w_db w) + 1.
Proof.
  intros Hvalid Hnew Hs Hg Hok. unfold record_attendance. rewrite Hvalid. simpl.
  assert (Hrows : rows_for sid date (w_db w) = []).
  { destruct (rows_for sid date (w_db w)) eqn:E; [done|].
    destruct Hnew. apply rows_for_recorded. by rewrite E. }
  pose proof (λ k, no_storage_failure_next present w k Hok) as Hk.
  destruct w as [db fs lg]. simpl in *.
  assert (F1 : next_fault fs = false) by (apply (Hk 0%nat); destruct present; simpl; lia).
  assert (F2 : next_fault (tail fs) = false)
    by (apply (Hk 1%nat); destruct present; simpl; lia).
  assert (F3 : next_fault (tail (tail fs)) = false)
    by (apply (Hk 2%nat); destruct present; simpl; lia).
  unfold try_except, mbind at 1, SE_bind at 1.
  rewrite execute_query_fetch by done. rewrite F1.
  unfold select_attendance_id. rewrite Hrows. simpl.
  unfold mbind at 1, SE_bind at 1. rewrite execute_query_write.
  rewrite insert_attendance_fresh by done. rewrite Hs, Hg, F2, F3. simpl.
  destruct present.
  - assert (F4 : next_fault (tail (tail (tail fs))) = false) by (apply (Hk 3%nat); simpl; lia).
    assert (F5 : next_fault (tail (tail (tail (tail fs)))) = false)
      by (apply (Hk 4%nat); simpl; lia).
    unfold mbind at 1, SE_bind at 1. unfold mbind at 1, SE_bind at 1.
    rewrite execute_query_write. unfold increment_attendance_count.
    simpl. rewrite F4, F5.
    se_unfold. simpl. eauto 12.
  - se_unfold. simpl. eauto 12.
Qed.

(** X1.  A well-formed recording for an existing student and group, on a
    day without a row for that student, met by no storage failure,
    returns [True], appends exactly one row carrying the arguments, and
    adds exactly 1 to the student's counter when present (nothing when
    absent).  The row's id is the next value of the table's
    AUTOINCREMENT counter; it is fresh, carried by no earlier row, when
    the counter is at or above every id in the table, and that is kept
    by every run of the four operations. *)
Theorem record_attendance_records :
  (∀ sid gid date present w,
     truthy_int sid && truthy_int gid && truthy_str date = true →
     ¬ recorded sid date (w_db w) →
     student_exists (w_db w) sid = true → group_exists (w_db w) gid = true →
     ¬ storage_failure present w →
     ∃ w', record_attendance sid gid date present w = (Val true, w')
       ∧ attendance (w_db w') =
           attendance (w_db w)
             ++ [mkAttendance (attendance_seq (w_db w) + 1) sid gid date
                              (if present then 1 else 0)]
       ∧ students (w_db w') =
           (if present then bump sid <$> students (w_db w) else students (w_db w))
       ∧ groups (w_db w') = groups (w_db w) ∧ exams (w_db w') = exams (w_db w)
       ∧ w_log w' = w_log w ++ [AttendanceRecorded sid present]
       ∧ attendance_seq (w_db w') = attendance_seq (w_db w) + 1
       ∧ (seq_bounds_ids (w_db w) →
          attendance_seq (w_db w) + 1 ∉ attendance_id <$> attendance (w_db w)))
  ∧ (∀ ops w, seq_bounds_ids (w_db w) → seq_bounds_ids (w_db (run_ops ops w))).
Proof.
  split; [|apply run_ops_bounded].
  intros sid gid date present w Hvalid Hnew Hs Hg Hok.
  destruct (fresh_recording sid gid date present w Hvalid Hnew Hs Hg Hok)
    as (w' & Heq & Hatt & Hst & Hgr & Hex & Hlog & Hseq).
  exists w'. split_and!; try done. apply seq_bounds_fresh.
Qed.

Lemma record_attendance_records_witness :
  (∃ w', record_attendance 1 1 "2024-01-02" true class_world_day = (Val true, w')
     ∧ attendance (w_db w') =
         attendance (w_db class_world_day)
           ++ [mkAttendance (attendance_seq (w_db class_world_day) + 1) 1 1 "2024-01-02" 1]
     ∧ students (w_db w') = bump 1 <$> students (w_db class_world_day)
     ∧ groups (w_db w') = groups (w_db class_world_day)
     ∧ exams (w_db w') = exams (w_db class_world_day)
     ∧ w_log w' = w_log class_world_day ++ [AttendanceRecorded 1 true]
     ∧ attendance_seq (w_db w') = attendance_seq (w_db class_world_day) + 1
     ∧ (seq_bounds_ids (w_db class_world_day) →
        attendance_seq (w_db class_world_day) + 1
          ∉ attendance_id <$> attendance (w_db class_world_day)))
  ∧ seq_bounds_ids
      (w_db (run_ops [OpRecord 1 1 "2024-01-02" true; OpRemoveStudent 1;
                      OpMarkAbsent 1 "2024-01-03" [2; 3]] class_world_day)).
Proof.
  split.
  - apply (proj1 record_attendance_records 1 1 "2024-01-02" true class_world_day);
      [reflexivity | by_computation | reflexivity | reflexivity | by_computation].
  - apply (proj2 record_attendance_records). by_computation.
Defined.

(** X2.  [record_attendance] answers [True] exactly when the parameters
    are well-formed, the student has no row for the date, student and
    group exist, and no storage failure falls within the call. *)
Theorem record_attendance_true_iff sid gid date present w :
  (record_attendance sid gid date present w).1 = Val true ↔
  truthy_int sid && truthy_int gid && truthy_str date = true
  ∧ ¬ recorded sid date (w_db w)
  ∧ student_exists (w_db w) sid = true ∧ group_exists (w_db w) gid = true
  ∧ ¬ storage_failure present w.
Proof.
  split.
  - intros Htrue.
    destruct (truthy_int sid && truthy_int gid && truthy_str date) eqn:Hvalid.
    2:{ unfold record_attendance in Htrue. rewrite Hvalid in Htrue. done. }
    destruct (record_attendance_outcome sid gid date present w)
      as (r & w' & Heq & _ & Hcases).
    rewrite Heq in Htrue. simpl in Htrue.
    destruct Hcases as [[-> _] | [(_ & Hrows & Hs & Hg & Hok & _) | (-> & _)]]; try done.
    split_and!; try done.
    intros Hrec. apply recorded_rows in Hrec as (r0 & l & E). congruence.
  - intros (Hvalid & Hnew & Hs & Hg & Hok).
    destruct (fresh_recording sid gid date present w) as (w' & -> & _); done.
Qed.

(** X3.  For a student or a group that does not exist the recording is
    refused: the answer is [False] and the store is as before. *)
Theorem record_attendance_unknown_refused sid gid date present w :
  student_exists (w_db w) sid = false ∨ group_exists (w_db w) gid = false →
  ∃ w', record_attendance sid gid date present w = (Val false, w') ∧ w_db w' = w_db w.
Proof.
  intros Hunknown.
  destruct (record_attendance_outcome sid gid date present w)
    as (r & w' & Heq & _ & [[-> Hdb] | [(_ & _ & Hs & Hg & _) | (_ & _ & _ & _ & _ & Hs & Hg & _)]]).
  - eauto.
  - destruct Hunknown; congruence.
  - destruct Hunknown; congruence.
Qed.

Lemma record_attendance_unknown_refused_witness :
  ∃ w', record_attendance 9 1 "2024-01-01" true class_world = (Val false, w')
        ∧ w_db w' = w_db class_world.
Proof.
  apply (record_attendance_unknown_refused 9 1 "2024-01-01" true class_world).
  left. vm_compute. reflexivity.
Defined.

Lemma record_attendance_true_iff_witness :
  (record_attendance 3 1 "2024-01-01" false class_world_day).1 = Val true.
Proof.
  apply (record_attendance_true_iff 3 1 "2024-01-01" false class_world_day).
  split_and!; [reflexivity | by_computation | reflexivity | reflexivity | by_computation].
Defined.

(** ** The ledger: one row per student and day *)

Lemma one_row_inserted db sid gid d p :
  rows_for sid d db = [] → one_row_per_day db → one_row_per_day (inserted db sid gid d p).
Proof.
  intros Hrows Hu. unfold one_row_per_day, inserted in *. simpl.
  rewrite fmap_app. simpl. apply NoDup_app. split_and!; [done| |apply NoDup_singleton].
  intros k (r & Hk & Hin)%list_elem_of_fmap ->%list_elem_of_singleton.
  assert (Hr : r ∈ rows_for sid d db).
  { apply list_elem_of_filter. split; [|done]. by inversion Hk. }
  rewrite Hrows in Hr. by apply elem_of_nil in Hr.
Qed.

Lemma record_attendance_one_row sid gid date present w :
  one_row_per_day (w_db w) →
  one_row_per_day (w_db (record_attendance sid gid date present w).2).
Proof.
  intros Hu.
  destruct (record_attendance_outcome sid gid date present w)
    as (r & w' & -> & _ & [[_ Hdb] | [(_ & Hrows & _ & _ & _ & Hdb)
                                     | (_ & _ & _ & Hdb & Hrows & _)]]);
    simpl; rewrite Hdb; [done| |by apply one_row_inserted].
  destruct present; [|by apply one_row_inserted].
  change (one_row_per_day (inserted (w_db w) sid gid date 1)). by apply one_row_inserted.
Qed.

Lemma mark_absent_loop_one_row gid date ids n w :
  one_row_per_day (w_db w) →
  one_row_per_day (w_db (mark_absent_loop gid date ids n w).2).
Proof.
  revert n w. induction ids as [|sid ids IH]; intros n w Hu; [done|].
  simpl. unfold mbind, SE_bind.
  pose proof (record_attendance_one_row sid gid date false w Hu) as Hstep.
  destruct (record_attendance_outcome sid gid date false w) as (r & w1 & Heq & _).
  rewrite Heq in *. simpl in Hstep. by apply IH.
Qed.

Lemma run_op_one_row op w :
  one_row_per_day (w_db w) → one_row_per_day (w_db (run_op op w)).
Proof.
  intros Hu. destruct op as [sid gid date present | gid date ids | sid | gid]; simpl.
  - by apply record_attendance_one_row.
  - unfold mark_absent_students.
    destruct (truthy_int gid && truthy_str date && truthy_list ids); [|done]. simpl.
    unfold try_except, mbind at 1, SE_bind at 1.
    pose proof (mark_absent_loop_one_row gid date ids 0 w Hu) as Hloop.
    destruct (mark_absent_loop_spec gid date ids 0 w) as (new & w' & Heq & _).
    rewrite Heq in *. se_unfold. done.
  - destruct (remove_student_outcome sid w) as (r & w' & -> & [Hdb | Hdb]);
      simpl; rewrite Hdb; [done|]. unfold one_row_per_day. simpl.
    destruct (student_exists (w_db w) sid); [|done]. by apply NoDup_fmap_filter.
  - destruct (delete_group_by_id_outcome gid w) as (r & w' & -> & [Hdb | Hdb]);
      simpl; rewrite Hdb; [done|]. unfold one_row_per_day. simpl.
    by do 2 apply NoDup_fmap_filter.
Qed.

(** X4.  Whatever operations run, in whatever order, with whatever
    arguments and under whatever storage failures, a store with at most
    one attendance row per (student, date) keeps at most one row per
    (student, date): the lookup before the insert does not depend on the
    group or on the table's uniqueness key. *)
Theorem one_row_per_day_kept ops w :
  one_row_per_day (w_db w) → one_row_per_day (w_db (run_ops ops w)).
Proof.
  revert w. induction ops as [|op ops IH]; intros w Hu; [done|].
  simpl. apply IH. by apply run_op_one_row.
Qed.

Lemma one_row_per_day_kept_witness :
  one_row_per_day
    (w_db (run_ops [OpRecord 1 1 "2024-01-01" true; OpRecord 1 2 "2024-01-01" false;
                    OpMarkAbsent 1 "2024-01-01" [1; 2; 3]; OpDeleteGroup 2]
                   failing_update_world)).
Proof. apply (one_row_per_day_kept _ failing_update_world). by_computation. Defined.

(** ** The ledger: removals *)

Lemma rowcount_positive {A} (f : A → Z) (k : Z) (l : list A) :
  bool_decide (0 < rowcount (filter (λ x, f x = k) l)) = bool_decide (k ∈ f <$> l).
Proof.
  apply bool_decide_ext. unfold rowcount. split.
  - intros Hpos. destruct (filter _ l) as [|x l'] eqn:E; [simpl in Hpos; lia|].
    assert (Hx : x ∈ filter (λ x, f x = k) l) by (rewrite E; left).
    apply list_elem_of_filter in Hx as [<- Hx]. by apply list_elem_of_fmap_2.
  - intros (x & -> & Hx)%list_elem_of_fmap.
    assert (Hin : x ∈ filter (λ y, f y = f x) l) by (by apply list_elem_of_filter).
    destruct (filter _ l); [by apply elem_of_nil in Hin|]. simpl. lia.
Qed.

Lemma failure_within_some n fs :
  true ∈ take n fs → ∃ k, (k < n)%nat ∧ next_fault (Nat.iter k tail fs) = true.
Proof.
  revert fs. induction n as [|n IH]; intros fs Hin; [by apply elem_of_nil in Hin|].
  destruct fs as [|f fs]; [by apply elem_of_nil in Hin|]. simpl in Hin.
  apply elem_of_cons in Hin as [<- | Hin].
  - exists 0%nat. split; [lia|done].
  - destruct (IH fs Hin) as (k & Hk & Hf). exists (S k). split; [lia|].
    simpl. by rewrite <- iter_tail_tail.
Qed.

Lemma failure_within_cases n w :
  (failure_within n w → ∃ k, (k < n)%nat ∧ next_fault (Nat.iter k tail (w_faults w)) = true)
  ∧ (¬ failure_within n w →
     ∀ k, (k < n)%nat → next_fault (Nat.iter k tail (w_faults w)) = false).
Proof.
  split.
  - apply failure_within_some.
  - intros Hok k Hk. destruct (next_fault _) eqn:E; [|done].
    destruct Hok. by eapply failure_within_next.
Qed.

(** X5.  [remove_student] on a non-zero id, met by no storage failure,
    returns whether the student existed; afterwards the student is gone
    together with every attendance row of theirs, and the other students
    and their rows are all still there. *)
Theorem remove_student_removes sid w :
  truthy_int sid = true → ¬ failure_within 2 w →
  ∃ w', remove_student sid w = (Val (student_exists (w_db w) sid), w')
    ∧ students (w_db w') = filter (λ s, student_id s ≠ sid) (students (w_db w))
    ∧ (student_exists (w_db w) sid = true →
       attendance (w_db w') = filter (λ r, att_student r ≠ sid) (attendance (w_db w)))
    ∧ (student_exists (w_db w) sid = false → attendance (w_db w') = attendance (w_db w))
    ∧ student_exists (w_db w') sid = false
    ∧ groups (w_db w') = groups (w_db w) ∧ exams (w_db w') = exams (w_db w).
Proof.
  intros Hsid Hok. unfold remove_student. rewrite Hsid. simpl.
  destruct (failure_within_cases 2 w) as [_ Hk]. specialize (Hk Hok).
  pose proof (Hk 0%nat ltac:(lia)) as F1. pose proof (Hk 1%nat ltac:(lia)) as F2.
  destruct w as [db fs lg]. simpl in *.
  unfold try_except, mbind at 1, SE_bind at 1.
  rewrite execute_query_write. unfold delete_student. rewrite F1, F2.
  rewrite (rowcount_positive student_id sid (students db)).
  fold (student_exists db sid).
  assert (Hgone : student_exists
                    (mkDB (filter (λ s, student_id s ≠ sid) (students db))
                          (if student_exists db sid
                           then filter (λ r, att_student r ≠ sid) (attendance db)
                           else attendance db)
                          (groups db) (exams db) (attendance_seq db) (attendance_key db))
                    sid = false).
  { apply bool_decide_eq_false_2. simpl.
    by intros (s & -> & [Hne _]%list_elem_of_filter)%list_elem_of_fmap. }
  destruct (student_exists db sid) eqn:Hex; se_unfold; simpl;
    (eexists; split; [reflexivity|]); simpl; split_and!; try done.
Qed.

Lemma remove_student_removes_witness :
  ∃ w', remove_student 2 class_world_day = (Val (student_exists (w_db class_world_day) 2), w')
    ∧ students (w_db w') = filter (λ s, student_id s ≠ 2) (students (w_db class_world_day))
    ∧ (student_exists (w_db class_world_day) 2 = true →
       attendance (w_db w')
         = filter (λ r, att_student r ≠ 2) (attendance (w_db class_world_day)))
    ∧ (student_exists (w_db class_world_day) 2 = false →
       attendance (w_db w') = attendance (w_db class_world_day))
    ∧ student_exists (w_db w') 2 = false
    ∧ groups (w_db w') = groups (w_db class_world_day)
    ∧ exams (w_db w') = exams (w_db class_world_day).
Proof.
  apply (remove_student_removes 2 class_world_day); [reflexivity | by_computation].
Defined.

(** X6.  [remove_student] changes nothing and answers [False] when the id
    is 0 or when the DELETE or its commit meets a storage failure. *)
Theorem remove_student_refused sid w :
  truthy_int sid = false ∨ failure_within 2 w →
  ∃ w', remove_student sid w = (Val false, w') ∧ w_db w' = w_db w.
Proof.
  intros Hbad. unfold remove_student.
  destruct (truthy_int sid) eqn:Hsid; simpl; [|unfold mret, SE_ret; eauto].
  destruct Hbad as [?|Hfail]; [done|].
  destruct (failure_within_cases 2 w) as [Hk _].
  destruct (Hk Hfail) as (k & Hlt & Hf).
  destruct w as [db fs lg]. simpl in *.
  unfold try_except, mbind at 1, SE_bind at 1.
  rewrite execute_query_write. unfold delete_student.
  destruct (next_fault fs) eqn:F1; [se_unfold; eauto|].
  destruct (next_fault (tail fs)) eqn:F2; [se_unfold; eauto|].
  destruct k as [|[|k]]; simpl in Hf; [congruence | congruence | lia].
Qed.

Lemma remove_student_refused_witness :
  ∃ w', remove_student 2 (mkWorld class_db [false; true] []) = (Val false, w')
        ∧ w_db w' = w_db (mkWorld class_db [false; true] []).
Proof.
  apply (remove_student_refused 2 (mkWorld class_db [false; true] [])).
  right. by_computation.
Defined.

Lemma delete_group_by_id_steps gid db fs lg :
  truthy_int gid = true →
  ∃ w', delete_group_by_id gid (mkWorld db fs lg) =
          (Val (if decide (failure_within 5 (mkWorld db fs lg)) then false
                else group_exists db gid), w')
        ∧ w_db w' = (if decide (failure_within 5 (mkWorld db fs lg)) then db
                     else group_deleted gid db).
Proof.
  intros Hgid. unfold delete_group_by_id. rewrite Hgid. simpl.
  destruct (failure_within_cases 5 (mkWorld db fs lg)) as [_ Hnone]. simpl in Hnone.
  assert (Hsome : ∀ k, (k < 5)%nat → next_fault (Nat.iter k tail fs) = true →
                       failure_within 5 (mkWorld db fs lg)).
  { intros k Hk Hf. by eapply failure_within_next. }
  unfold try_except, get_connection. simpl.
  unfold mbind at 1, SE_bind at 1. rewrite cursor_execute_eq.
  destruct (next_fault fs) eqn:F1.
  { rewrite !decide_True by (by apply (Hsome 0%nat); [lia|]). se_unfold. simpl. by eexists. }
  simpl.
  unfold mbind at 1, SE_bind at 1. rewrite cursor_execute_eq.
  destruct (next_fault (tail fs)) eqn:F2.
  { rewrite !decide_True by (by apply (Hsome 1%nat); [lia|]). se_unfold. simpl. by eexists. }
  simpl.
  unfold mbind at 1, SE_bind at 1. rewrite cursor_execute_eq.
  destruct (next_fault (tail (tail fs))) eqn:F3.
  { rewrite !decide_True by (by apply (Hsome 2%nat); [lia|]). se_unfold. simpl. by eexists. }
  simpl.
  unfold mbind at 1, SE_bind at 1. rewrite cursor_execute_eq.
  destruct (next_fault (tail (tail (tail fs)))) eqn:F4.
  { rewrite !decide_True by (by apply (Hsome 3%nat); [lia|]). se_unfold. simpl. by eexists. }
  unfold with_attendance, with_exams. simpl.
  rewrite (delete_group_after_students gid db).
  unfold mbind at 1, SE_bind at 1. unfold mbind at 1, SE_bind at 1. rewrite commit_eq.
  destruct (next_fault (tail (tail (tail (tail fs))))) eqn:F5.
  { rewrite !decide_True by (by apply (Hsome 4%nat); [lia|]). se_unfold. simpl. by eexists. }
  rewrite !decide_False.
  2,3:intros Hfail.
  2,3:destruct (failure_within_some 5 fs Hfail) as (k & Hk & Hf).
  2,3:destruct k as [|[|[|[|[|k]]]]]; simpl in Hf; try congruence; lia.
  rewrite (rowcount_positive group_id gid (groups db)). fold (group_exists db gid).
  destruct (group_exists db gid); se_unfold; simpl; by eexists.
Qed.

(** X7.  [delete_group_by_id] is all or nothing: when any of its four
    DELETEs or the commit meets a storage failure (or the id is 0) it
    answers [False] and the store is exactly as before. *)
Theorem delete_group_by_id_atomic gid w :
  truthy_int gid = false ∨ failure_within 5 w →
  ∃ w', delete_group_by_id gid w = (Val false, w') ∧ w_db w' = w_db w.
Proof.
  intros Hbad. destruct (truthy_int gid) eqn:Hgid.
  - destruct Hbad as [?|Hfail]; [done|]. destruct w as [db fs lg].
    destruct (delete_group_by_id_steps gid db fs lg Hgid) as (w' & Heq & Hdb).
    destruct (decide (failure_within 5 (mkWorld db fs lg))); [eauto|done].
  - unfold delete_group_by_id. rewrite Hgid. simpl. unfold mret, SE_ret. eauto.
Qed.

Lemma delete_group_by_id_atomic_witness :
  ∃ w', delete_group_by_id 1 (mkWorld class_db [false; false; false; true] [])
          = (Val false, w')
        ∧ w_db w' = w_db (mkWorld class_db [false; false; false; true] []).
Proof.
  apply (delete_group_by_id_atomic 1 (mkWorld class_db [false; false; false; true] [])).
  right. by_computation.
Defined.

(** X8.  Met by no storage failure, [delete_group_by_id] on a non-zero id
    returns whether the group existed, and afterwards no student, no
    attendance row and no exam of that group is left, the group itself is
    gone, and the students, exams and groups of the other groups are all
    kept. *)
Theorem delete_group_by_id_deletes gid w :
  truthy_int gid = true → ¬ failure_within 5 w →
  ∃ w', delete_group_by_id gid w = (Val (group_exists (w_db w) gid), w')
    ∧ Forall (λ s, student_group s ≠ gid) (students (w_db w'))
    ∧ Forall (λ r, att_group r ≠ gid) (attendance (w_db w'))
    ∧ Forall (λ e, exam_group e ≠ gid) (exams (w_db w'))
    ∧ group_exists (w_db w') gid = false
    ∧ students (w_db w') = filter (λ s, student_group s ≠ gid) (students (w_db w))
    ∧ exams (w_db w') = filter (λ e, exam_group e ≠ gid) (exams (w_db w))
    ∧ groups (w_db w') = filter (λ g, group_id g ≠ gid) (groups (w_db w)).
Proof.
  intros Hgid Hok. destruct w as [db fs lg].
  destruct (delete_group_by_id_steps gid db fs lg Hgid) as (w' & Heq & Hdb).
  destruct (decide (failure_within 5 (mkWorld db fs lg))); [done|].
  exists w'. split; [done|]. rewrite Hdb. simpl.
  split_and!; try done.
  - apply Forall_forall. by intros s [? _]%list_elem_of_filter.
  - apply Forall_forall. by intros r [_ [? _]%list_elem_of_filter]%list_elem_of_filter.
  - apply Forall_forall. by intros e [? _]%list_elem_of_filter.
  - apply bool_decide_eq_false_2. simpl.
    by intros (g & -> & [? _]%list_elem_of_filter)%list_elem_of_fmap.
Qed.

Lemma delete_group_by_id_deletes_witness :
  ∃ w', delete_group_by_id 1 class_world_day
          = (Val (group_exists (w_db class_world_day) 1), w')
    ∧ Forall (λ s, student_group s ≠ 1) (students (w_db w'))
    ∧ Forall (λ r, att_group r ≠ 1) (attendance (w_db w'))
    ∧ Forall (λ e, exam_group e ≠ 1) (exams (w_db w'))
    ∧ group_exists (w_db w') 1 = false
    ∧ students (w_db w') = filter (λ s, student_group s ≠ 1) (students (w_db class_world_day))
    ∧ exams (w_db w') = filter (λ e, exam_group e ≠ 1) (exams (w_db class_world_day))
    ∧ groups (w_db w') = filter (λ g, group_id g ≠ 1) (groups (w_db class_world_day)).
Proof.
  apply (delete_group_by_id_deletes 1 class_world_day); [reflexivity | by_computation].
Defined.

(** ** The ledger: reading the students of a group *)

#[local] Instance name_le_total : Total name_le.
Proof.
  intros a b. unfold name_le.
  destruct (String.leb_total (student_name a) (student_name b)) as [H|H];
    rewrite H; [by left | by right].
Qed.

(** X9.  [get_students_in_group] never changes the store; for id 0 or
    under a storage failure it returns the empty list; otherwise it
    returns the students of the group, each once, in ascending order of
    name. *)
Theorem get_students_in_group_listing gid w :
  ∃ l w', get_students_in_group gid w = (Val l, w')
    ∧ w_db w' = w_db w
    ∧ Sorted name_le l
    ∧ (truthy_int gid = false ∨ next_fault (w_faults w) = true → l = [])
    ∧ (truthy_int gid = true → next_fault (w_faults w) = false →
       l ≡ₚ filter (λ s, student_group s = gid) (students (w_db w))).
Proof.
  unfold get_students_in_group.
  destruct (truthy_int gid) eqn:Hgid; simpl.
  2:{ unfold mret, SE_ret. do 2 eexists. split_and!; first [done | constructor]. }
  destruct w as [db fs lg]. unfold try_except. rewrite execute_query_fetch by done.
  unfold select_students_in_group. simpl.
  destruct (next_fault fs) eqn:F1.
  - se_unfold. do 2 eexists. split_and!; first [done | constructor].
  - do 2 eexists. split_and!; try done.
    + apply (StoreFacts.Sorted_order_by name_le).
    + by intros [?|?].
    + intros _ _. apply StoreFacts.order_by_Permutation.
Qed.

Lemma get_students_in_group_listing_witness :
  ∃ l w', get_students_in_group 1 class_world = (Val l, w')
    ∧ w_db w' = w_db class_world
    ∧ Sorted name_le l
    ∧ (truthy_int 1 = false ∨ next_fault (w_faults class_world) = true → l = [])
    ∧ (truthy_int 1 = true → next_fault (w_faults class_world) = false →
       l ≡ₚ filter (λ s, student_group s = 1) (students (w_db class_world))).
Proof. apply (get_students_in_group_listing 1 class_world). Defined.

(** ** The ledger: presences add up *)

Lemma count_of_bump sid db :
  count_of sid (with_students db (bump sid <$> students db)) = (λ n, n + 1) <$> count_of sid db.
Proof.
  unfold count_of. simpl. induction (students db) as [|s l IH]; [done|].
  rewrite fmap_cons. unfold bump at 1. destruct (decide (student_id s = sid)) as [Heq|Hne].
  - rewrite bool_decide_eq_true_2 by done.
    rewrite !filter_cons_True by done. rewrite !fmap_cons. simpl. by rewrite IH.
  - rewrite bool_decide_eq_false_2 by done.
    rewrite !filter_cons_False by done. done.
Qed.

Lemma student_exists_bump sid db other :
  student_exists (with_students db (bump sid <$> students db)) other = student_exists db other.
Proof. unfold student_exists. simpl. by rewrite bump_ids. Qed.

Lemma recorded_after_insert sid d db d' row :
  d' ≠ d → att_date row = d → ¬ recorded sid d' db →
  ∀ db', attendance db' = attendance db ++ [row] → ¬ recorded sid d' db'.
Proof.
  intros Hne Hrow Hnot db' Hatt (r & Hin & Hs & Hd). rewrite Hatt in Hin.
  apply elem_of_app in Hin as [Hin | ->%list_elem_of_singleton].
  - apply Hnot. by exists r.
  - congruence.
Qed.

(** X19.  Presences recorded for an existing student on distinct days
    that had no row yet, under an existing group and without storage
    failure, raise the student's attendance_count by the number of days. *)
Theorem presences_add_up sid gid dates w :
  truthy_int sid && truthy_int gid = true →
  Forall (λ d, truthy_str d = true ∧ ¬ recorded sid d (w_db w)) dates →
  NoDup dates →
  student_exists (w_db w) sid = true → group_exists (w_db w) gid = true →
  fault_free w →
  count_of sid (w_db (record_days sid gid dates w))
    = (λ n, n + Z.of_nat (length dates)) <$> count_of sid (w_db w).
Proof.
  intros Hids. revert w. induction dates as [|d dates IH]; intros w Hall Hnd Hs Hg Hfree.
  - simpl. rewrite <- (list_fmap_id (count_of sid (w_db w))) at 1.
    apply list_fmap_ext. intros _ n _. simpl. lia.
  - apply Forall_cons in Hall as [[Hd Hnew] Hall]. apply NoDup_cons in Hnd as [Hnotin Hnd].
    assert (Hok : ¬ storage_failure true w).
    { intros Hf. apply Hfree. unfold storage_failure in Hf.
      by eapply (elem_of_submseteq _ _ _ Hf), sublist_submseteq, sublist_take. }
    destruct (fresh_recording sid gid d true w)
      as (w1 & Heq & Hatt & Hst & Hgr & _ & _); try done.
    { apply andb_prop in Hids as [-> ->]. by rewrite Hd. }
    destruct (record_attendance_outcome sid gid d true w) as (r & w1' & Heq' & Hcons & _).
    rewrite Heq in Heq'. injection Heq' as <- <-.
    unfold record_days in *. simpl. rewrite Heq. simpl.
    rewrite IH.
    + unfold count_of. rewrite Hst.
      pose proof (count_of_bump sid (w_db w)) as Hb. unfold count_of in Hb. simpl in Hb.
      rewrite Hb. rewrite <- list_fmap_compose. apply list_fmap_ext.
      intros _ n _. simpl. lia.
    + apply Forall_forall. intros d' Hin. rewrite Forall_forall in Hall.
      destruct (Hall d' Hin) as [Hd' Hnew']. split; [done|].
      eapply recorded_after_insert; [|reflexivity|exact Hnew'|exact Hatt].
      simpl. intros ->. done.
    + done.
    + unfold student_exists. rewrite Hst. by rewrite bump_ids.
    + unfold group_exists. by rewrite Hgr.
    + by eapply consumed_fault_free.
Qed.

Lemma presences_add_up_witness :
  count_of 1 (w_db (record_days 1 1 ["2024-01-01"; "2024-01-02"; "2024-01-03"] class_world))
    = (λ n, n + Z.of_nat (length ["2024-01-01"; "2024-01-02"; "2024-01-03"]))
        <$> count_of 1 (w_db class_world).
Proof.
  apply (presences_add_up 1 1 ["2024-01-01"; "2024-01-02"; "2024-01-03"] class_world).
  - reflexivity.
  - repeat (apply List.Forall_cons; [split; [reflexivity | by_computation]|]).
    apply List.Forall_nil.
  - by_computation.
  - reflexivity.
  - reflexivity.
  - by_computation.
Defined.

End LedgerExtra.

(** ** Session tokens: what verification guarantees *)

Module JWTExtra.
Import JWT JWTMore JWTFacts.

Section TokenExtra.

Variable config : Config.
Variable jwt_serialize : JWS → string.
Variable jwt_parse : string → option JWS.
Variable py_int : string → option Z.
Variable exn_str : exn → string.
Hypothesis parse_serialize : ∀ t, jwt_parse (jwt_serialize t) = Some t.

#[local] Abbreviation generate_token := (generate_token config jwt_serialize).
#[local] Abbreviation create_access_token := (create_access_token config jwt_serialize).
#[local] Abbreviation verify_token := (verify_token config jwt_parse py_int exn_str).
#[local] Abbreviation verify_token_body := (verify_token_body config jwt_parse py_int).
#[local] Abbreviation get_current_teacher :=
  (get_current_teacher config jwt_parse py_int exn_str).
#[local] Abbreviation get_current_teacher_optional :=
  (get_current_teacher_optional config jwt_parse py_int exn_str).

(** X10.  Whatever the text handed over, [verify_token] either returns a
    value or raises an HTTP error of status 401, never anything else. *)
Theorem verify_token_only_401 now token :
  (∃ u, verify_token now token = Val u)
  ∨ (∃ detail, verify_token now token = Exc (HTTPException 401 detail)).
Proof.
  unfold JWT.verify_token.
  destruct (JWT.verify_token_body config jwt_parse py_int now token) as [u|e]; [eauto|].
  right. destruct e as [| | | |k|]; eauto. destruct k; eauto.
Qed.

Lemma validate_exp_ok now claims :
  validate_exp py_int now claims = Val () →
  ∀ v e, claims !! "exp" = Some v → int_claim py_int v = Some e → now < e.
Proof.
  unfold validate_exp. intros Hok v e Hv He. rewrite Hv, He in Hok.
  case_bool_decide; [done|lia].
Qed.

(** X11.  A token [verify_token] accepts is well-formed, was signed with
    the configured secret under the configured algorithm, carries the
    type "access_token" and the returned username, and, if it states an
    expiry, that expiry lies in the future. *)
Theorem verify_token_sound now token u :
  verify_token now token = Val u →
  ∃ t, jwt_parse token = Some t
    ∧ jws_alg t = JWT_ALGORITHM config
    ∧ jws_signed_with t = JWT_SECRET_KEY config
    ∧ jws_claims t !! "username" = Some u
    ∧ jws_claims t !! "type" = Some (VStr "access_token")
    ∧ (∀ v e, jws_claims t !! "exp" = Some v → int_claim py_int v = Some e → now < e).
Proof.
  unfold JWT.verify_token. intros Hv.
  destruct (JWT.verify_token_body config jwt_parse py_int now token) as [u'|e] eqn:Hbody.
  2:{ destruct e as [| | | |k|]; try done. by destruct k. }
  injection Hv as ->. unfold JWT.verify_token_body, jwt_decode in Hbody.
  destruct (jwt_parse token) as [t|]; [|done]. exists t.
  destruct (bool_decide (jws_alg t ∈ [JWT_ALGORITHM config])) eqn:Halg; [|done].
  destruct (bool_decide (jws_signed_with t = JWT_SECRET_KEY config)) eqn:Hkey; [|done].
  simpl in Hbody.
  destruct (validate_iat py_int now (jws_claims t)) as [[]|]; [|done].
  destruct (validate_nbf py_int now (jws_claims t)) as [[]|]; [|done].
  destruct (validate_exp py_int now (jws_claims t)) as [[]|] eqn:Hexp; [|done].
  destruct (validate_aud (jws_claims t)) as [[]|]; [|done].
  destruct (validate_sub (jws_claims t)) as [[]|]; [|done].
  destruct (validate_jti (jws_claims t)) as [[]|]; [|done].
  simpl in Hbody.
  destruct (jws_claims t !! "username") as [u'|]; [|done].
  destruct (bool_decide (jws_claims t !! "type" = Some (VStr "access_token"))) eqn:Hty;
    [|done].
  simpl in Hbody. injection Hbody as ->.
  apply bool_decide_eq_true in Halg, Hkey, Hty.
  apply list_elem_of_singleton in Halg.
  split_and!; try done. by apply validate_exp_ok.
Qed.

Lemma text_or_absent_union k additional username :
  k ≠ "username" → TokenSpec.text_or_absent k additional →
  TokenSpec.text_or_absent k (additional ∪ {[ "username" := VStr username ]}).
Proof.
  intros Hk Hok. unfold TokenSpec.text_or_absent in *.
  rewrite lookup_union, lookup_singleton_ne by done.
  by destruct (additional !! k) as [[]|].
Qed.

(** X12.  A "username" among the additional claims of
    [create_access_token] replaces the username argument: the token then
    verifies to the claimed value, not to the argument.  This is for
    additional claims the library takes and accepts back: an issuer, a
    subject and a token id that are text when there, no not-before and
    no audience. *)
Theorem additional_username_wins utcnow1 utcnow2 now username additional v :
  additional !! "username" = Some v →
  additional !! "nbf" = None → additional !! "aud" = None →
  TokenSpec.text_or_absent "sub" additional →
  TokenSpec.text_or_absent "jti" additional →
  TokenSpec.encodable additional →
  utcnow2 ≤ now → now < utcnow1 + 3600 * JWT_EXPIRATION_HOURS config →
  verify_token now (create_access_token utcnow1 utcnow2 username (Some additional)) = Val v.
Proof.
  intros Hv Hnbf Haud Hsub Hjti _ Hiat Hexp. unfold JWT.create_access_token.
  rewrite bool_decide_eq_false_2 by (intros ->; by rewrite lookup_empty in Hv).
  apply (verify_issued config jwt_serialize jwt_parse py_int exn_str parse_serialize);
    try done.
  - by apply lookup_union_Some_l.
  - apply lookup_union_None. split; [done|]. by apply lookup_singleton_ne.
  - apply lookup_union_None. split; [done|]. by apply lookup_singleton_ne.
  - by apply text_or_absent_union.
  - by apply text_or_absent_union.
Qed.

(** X13.  How [verify_token] reports each defect.  Text that is no token,
    a foreign algorithm and a wrong signature all give "Invalid token".
    A token signed by the server that lacks the username, or carries
    another type, raises inside the [try], so its error is caught by the
    last [except] and comes out as "Token verification failed: ..."
    wrapping the inner error. *)
Theorem verify_token_error_details now :
  (∀ token, jwt_parse token = None →
            verify_token now token = Exc (HTTPException 401 "Invalid token"))
  ∧ (∀ token t, jwt_parse token = Some t →
       jws_alg t ≠ JWT_ALGORITHM config ∨ jws_signed_with t ≠ JWT_SECRET_KEY config →
       verify_token now token = Exc (HTTPException 401 "Invalid token"))
  ∧ (∀ token claims,
       jwt_decode jwt_parse py_int now token (JWT_SECRET_KEY config) [JWT_ALGORITHM config]
         = Val claims →
       claims !! "username" = None →
       verify_token now token =
         Exc (HTTPException 401
                ("Token verification failed: "
                 +:+ exn_str (HTTPException 401 "Invalid token: missing username"))))
  ∧ (∀ token claims u,
       jwt_decode jwt_parse py_int now token (JWT_SECRET_KEY config) [JWT_ALGORITHM config]
         = Val claims →
       claims !! "username" = Some u →
       claims !! "type" ≠ Some (VStr "access_token") →
       verify_token now token =
         Exc (HTTPException 401
                ("Token verification failed: "
                 +:+ exn_str (HTTPException 401 "Invalid token type")))).
Proof.
  split_and!.
  - intros token Hp. unfold JWT.verify_token, JWT.verify_token_body, jwt_decode.
    by rewrite Hp.
  - intros token t Hp Hbad. unfold JWT.verify_token, JWT.verify_token_body, jwt_decode.
    rewrite Hp. destruct (bool_decide (jws_alg t ∈ [JWT_ALGORITHM config])) eqn:Halg; [|done].
    apply bool_decide_eq_true, list_elem_of_singleton in Halg.
    destruct Hbad as [?|Hkey]; [done|]. simpl. by rewrite bool_decide_eq_false_2.
  - intros token claims Hd Hu. unfold JWT.verify_token, JWT.verify_token_body.
    by rewrite Hd, Hu.
  - intros token claims u Hd Hu Hty. unfold JWT.verify_token, JWT.verify_token_body.
    rewrite Hd, Hu. by rewrite bool_decide_eq_false_2.
Qed.

(** X14.  Required and optional authentication agree on a Bearer token:
    with credentials [t] (non-empty) the required form returns or raises
    as [verify_token] does, and so does the optional form on the header
    "Bearer t"; without credentials the required form raises 401
    "Authentication required" where the optional one returns [None]. *)
Theorem required_and_optional_agree now request t sch :
  headers request !! "Authorization" = Some ("Bearer " +:+ t) → t ≠ "" →
  get_current_teacher now (Some (mkCredentials sch t)) = verify_token now t
  ∧ get_current_teacher_optional now request
      = match get_current_teacher now (Some (mkCredentials sch t)) with
        | Val u => Val (Some u)
        | Exc e => Exc e
        end
  ∧ get_current_teacher now None = Exc (HTTPException 401 "Authentication required")
  ∧ get_current_teacher now (Some (mkCredentials sch ""))
      = Exc (HTTPException 401 "Authentication required").
Proof.
  intros Hh Ht.
  assert (Hreq : get_current_teacher now (Some (mkCredentials sch t)) = verify_token now t).
  { unfold JWTMore.get_current_teacher. simpl. by rewrite (truthy_str_nonempty t Ht). }
  split_and!; [done| |done|done].
  rewrite Hreq. unfold JWT.get_current_teacher_optional. rewrite Hh.
  destruct (bearer_stripped t) as [-> ->].
  replace (truthy_str ("Bearer " +:+ t)) with true by done. simpl.
  rewrite (truthy_str_nonempty t Ht). simpl. by rewrite (truthy_str_nonempty t Ht).
Qed.

(** X30.  [decode_token_payload] reads the claims back from any
    well-formed token without checking anything: whatever key and
    algorithm signed it and whatever its expiry, and so also from a token
    [verify_token] refuses.  From an issued token it returns the data
    with the three claims [generate_token] adds. *)
Theorem decode_token_payload_unverified :
  (∀ claims key algorithm,
     decode_token_payload jwt_parse exn_str (jwt_encode jwt_serialize claims key algorithm)
       = claims)
  ∧ (∀ utcnow1 utcnow2 data,
       decode_token_payload jwt_parse exn_str (generate_token utcnow1 utcnow2 data)
         = <["type" := VStr "access_token"]>
             (<["iat" := VNum utcnow2]>
                (<["exp" := VNum (utcnow1 + 3600 * JWT_EXPIRATION_HOURS config)]> data)))
  ∧ (∀ now claims key algorithm,
       key ≠ JWT_SECRET_KEY config →
       verify_token now (jwt_encode jwt_serialize claims key algorithm)
         = Exc (HTTPException 401 "Invalid token")
       ∧ decode_token_payload jwt_parse exn_str
           (jwt_encode jwt_serialize claims key algorithm) = claims).
Proof.
  assert (Hread : ∀ claims key algorithm,
            decode_token_payload jwt_parse exn_str
              (jwt_encode jwt_serialize claims key algorithm) = claims).
  { intros. unfold decode_token_payload, jwt_encode. by rewrite parse_serialize. }
  split_and!; [done | intros; apply Hread |].
  intros now claims key algorithm Hkey. split; [|apply Hread].
  unfold JWT.verify_token, JWT.verify_token_body, jwt_decode, jwt_encode.
  rewrite parse_serialize. simpl.
  destruct (bool_decide (algorithm ∈ [JWT_ALGORITHM config])); [|done].
  simpl. by rewrite bool_decide_eq_false_2.
Qed.

End TokenExtra.

(** *** Instances on the sample wire format *)

Lemma verify_token_sound_witness :
  ∃ t, Wire.parse (create_access_token default_config Wire.serialize 1700000000 1700000000
                     "alice" None) = Some t
    ∧ jws_alg t = JWT_ALGORITHM default_config
    ∧ jws_signed_with t = JWT_SECRET_KEY default_config
    ∧ jws_claims t !! "username" = Some (VStr "alice")
    ∧ jws_claims t !! "type" = Some (VStr "access_token")
    ∧ (∀ v e, jws_claims t !! "exp" = Some v → int_claim Wire.no_int v = Some e →
              1700000060 < e).
Proof.
  apply (verify_token_sound default_config Wire.parse Wire.no_int Wire.blank 1700000060).
  apply (verify_issued default_config Wire.serialize Wire.parse Wire.no_int Wire.blank
           WireFacts.parse_serialize 1700000000 1700000000 1700000060
           {[ "username" := VStr "alice" ]});
    [reflexivity | reflexivity | reflexivity | exact I | exact I | simpl; lia | simpl; lia].
Defined.

Lemma additional_username_wins_witness :
  verify_token default_config Wire.parse Wire.no_int Wire.blank 1700000060
    (create_access_token default_config Wire.serialize 1700000000 1700000000 "alice"
       (Some {[ "username" := VStr "mallory"; "sub" := VStr "mallory" ]}))
  = Val (VStr "mallory").
Proof.
  apply (additional_username_wins default_config Wire.serialize Wire.parse Wire.no_int
           Wire.blank WireFacts.parse_serialize);
    [reflexivity | reflexivity | reflexivity | exact I | exact I | exact I
    | simpl; lia | simpl; lia].
Defined.

Lemma verify_token_error_details_witness :
  verify_token default_config Wire.parse Wire.no_int Wire.blank 1700000000 "not-a-token"
    = Exc (HTTPException 401 "Invalid token")
  ∧ verify_token default_config Wire.parse Wire.no_int Wire.blank 1700000000
      (Wire.serialize (mkJWS "HS256" {[ "username" := VStr "alice" ]} "another key"))
    = Exc (HTTPException 401 "Invalid token")
  ∧ verify_token default_config Wire.parse Wire.no_int Wire.blank 1700000000
      (generate_token default_config Wire.serialize 1700000000 1700000000 ∅)
    = Exc (HTTPException 401
             ("Token verification failed: "
              +:+ Wire.blank (HTTPException 401 "Invalid token: missing username")))
  ∧ verify_token default_config Wire.parse Wire.no_int Wire.blank 1700000000
      (jwt_encode Wire.serialize {[ "username" := VStr "alice"; "type" := VStr "refresh" ]}
         (JWT_SECRET_KEY default_config) (JWT_ALGORITHM default_config))
    = Exc (HTTPException 401
             ("Token verification failed: "
              +:+ Wire.blank (HTTPException 401 "Invalid token type"))).
Proof.
  pose proof (verify_token_error_details default_config Wire.parse Wire.no_int Wire.blank
                1700000000) as (H1 & H2 & H3 & H4).
  pose proof (jwt_decode_signed default_config Wire.serialize Wire.parse Wire.no_int
                WireFacts.parse_serialize 1700000000) as Hdec.
  split_and!.
  - apply H1. vm_compute. reflexivity.
  - eapply H2; [apply WireFacts.parse_serialize|]. right. discriminate.
  - apply (H3 _ (TokenSpec.issued_claims default_config 1700000000 1700000000 ∅));
      [unfold JWT.generate_token; rewrite Hdec; vm_compute; reflexivity
      | vm_compute; reflexivity].
  - apply (H4 _ {[ "username" := VStr "alice"; "type" := VStr "refresh" ]} (VStr "alice"));
      [rewrite Hdec; vm_compute; reflexivity | vm_compute; reflexivity
      | vm_compute; discriminate].
Defined.

Lemma required_and_optional_agree_witness :
  get_current_teacher default_config Wire.parse Wire.no_int Wire.blank 1700000000
    (Some (mkCredentials "Bearer" "not-a-token"))
    = verify_token default_config Wire.parse Wire.no_int Wire.blank 1700000000 "not-a-token"
  ∧ get_current_teacher_optional default_config Wire.parse Wire.no_int Wire.blank 1700000000
      Wire.alice_request
    = match get_current_teacher default_config Wire.parse Wire.no_int Wire.blank 1700000000
              (Some (mkCredentials "Bearer" "not-a-token")) with
      | Val u => Val (Some u)
      | Exc e => Exc e
      end
  ∧ get_current_teacher default_config Wire.parse Wire.no_int Wire.blank 1700000000 None
    = Exc (HTTPException 401 "Authentication required")
  ∧ get_current_teacher default_config Wire.parse Wire.no_int Wire.blank 1700000000
      (Some (mkCredentials "Bearer" ""))
    = Exc (HTTPException 401 "Authentication required").
Proof.
  apply (required_and_optional_agree default_config Wire.parse Wire.no_int Wire.blank
           1700000000 Wire.alice_request "not-a-token" "Bearer");
    [reflexivity | discriminate].
Defined.

Lemma decode_token_payload_unverified_witness :
  decode_token_payload Wire.parse Wire.blank
    (jwt_encode Wire.serialize {[ "username" := VStr "alice" ]} "another key" "none")
  = {[ "username" := VStr "alice" ]}.
Proof.
  apply (proj1 (decode_token_payload_unverified default_config Wire.serialize Wire.parse
                  Wire.no_int Wire.blank WireFacts.parse_serialize)).
Defined.

End JWTExtra.

(** ** QR images: what a generation touches *)

Module QRExtra.
Import Store Ledger QR Main QRSamples QRMore.

Ltac qr_unfold :=
  unfold generate_student_qr, try_except, print, path_exists, makedirs, img_save,
    write_file, getsize, os_remove, lift_res, raise, mbind, SE_bind, mret, SE_ret in *.

Lemma string_length_app (s t : string) :
  String.length (s +:+ t) = (String.length s + String.length t)%nat.
Proof. induction s as [|c s IH]; simpl; [done|]. by rewrite IH. Qed.

Lemma string_app_inj_r (s1 s2 t : string) : s1 +:+ t = s2 +:+ t → s1 = s2.
Proof.
  revert s2. induction s1 as [|c s1 IH]; intros [|c2 s2] Heq.
  - done.
  - apply (f_equal String.length) in Heq. rewrite !string_length_app in Heq.
    simpl in Heq. lia.
  - apply (f_equal String.length) in Heq. rewrite !string_length_app in Heq.
    simpl in Heq. lia.
  - cbn in Heq. injection Heq as -> Heq. f_equal. by apply IH.
Qed.

Lemma qr_path_of_inj a b : qr_path_of a = qr_path_of b → a = b.
Proof.
  unfold qr_path_of. intros Heq.
  apply (inj (String.app "qrcodes")) in Heq.
  apply (inj (String.app "/student_")) in Heq.
  apply string_app_inj_r in Heq. by apply (inj pretty) in Heq.
Qed.

Lemma generate_student_qr_frame env sid h p :
  p ≠ qr_path_of sid → files (generate_student_qr env sid h).2 !! p = files h !! p.
Proof.
  intros Hp. destruct env as [mk mi so rr]. qr_unfold. simpl.
  destruct (negb (bool_decide (is_Some (files h !! "qrcodes") ∨ "qrcodes" ∈ dirs h)));
    [destruct mk; [done|]|]; simpl;
    (destruct (mi (pretty sid)) as [img|e]; simpl;
     [destruct so as [|n [|]|[|]]; simpl|]);
    repeat (first [ progress simplify_eq/= | case_bool_decide | case_match | destruct rr ]);
    rewrite ?lookup_delete_ne by done; rewrite ?lookup_insert_ne by done; done.
Qed.

(** X15.  [generate_student_qr] changes no file but the student's own
    qrcodes/student_<id>.png, whatever the libraries and the disk do; and
    since distinct ids have distinct paths, the QR file of every other
    student is as it was. *)
Theorem generate_student_qr_own_file_only env sid h :
  (∀ p, p ≠ qr_path_of sid → files (generate_student_qr env sid h).2 !! p = files h !! p)
  ∧ (∀ other, other ≠ sid →
       files (generate_student_qr env sid h).2 !! qr_path_of other
         = files h !! qr_path_of other).
Proof.
  split.
  - intros p Hp. by apply generate_student_qr_frame.
  - intros other Hne. apply generate_student_qr_frame.
    intros Heq. by apply qr_path_of_inj in Heq.
Qed.

Lemma generate_student_qr_own_file_only_witness :
  files (generate_student_qr stuck_partial_env 7 bare_host).2 !! qr_path_of 8
    = files bare_host !! qr_path_of 8.
Proof.
  apply (proj2 (generate_student_qr_own_file_only stuck_partial_env 7 bare_host) 8).
  discriminate.
Defined.

(** X16.  When the image renders (non-empty), the save writes it whole
    and the qrcodes directory is there or can be made,
    [generate_student_qr] returns the student's path and the file at that
    path holds exactly the rendered image, replacing whatever was there. *)
Theorem generate_student_qr_writes env sid h img :
  (is_Some (files h !! "qrcodes") ∨ "qrcodes" ∈ dirs h) ∨ makedirs_raises env = false →
  make_image env (pretty sid) = Val img → img ≠ [] → save_outcome env = SaveWhole →
  ∃ h', generate_student_qr env sid h = (Val (Some (qr_path_of sid)), h')
    ∧ files h' = <[qr_path_of sid := img]> (files h)
    ∧ last (stdout h') = Some (QrSaved (qr_path_of sid) (rowcount img)).
Proof.
  intros Hdir Himg Hne Hsave. destruct env as [mk mi so rr]. simpl in *. subst so.
  qr_unfold. simpl.
  assert (Hsize : bool_decide (0 < Z.of_nat (length img)) = true).
  { apply bool_decide_eq_true_2. destruct img; [done|simpl; lia]. }
  destruct (bool_decide (is_Some (files h !! "qrcodes") ∨ "qrcodes" ∈ dirs h)) eqn:Hex; simpl.
  - rewrite Himg. simpl. rewrite !lookup_insert_eq.
    rewrite bool_decide_eq_true_2 by (left; eauto). simpl.
    rewrite lookup_insert_eq. simpl. rewrite Hsize.
    eexists. split_and!; [reflexivity|done|]. simpl. by rewrite last_snoc.
  - destruct Hdir as [Hdir| ->]; [by apply bool_decide_eq_false in Hex|]. simpl.
    rewrite Himg. simpl. rewrite !lookup_insert_eq.
    rewrite bool_decide_eq_true_2 by (left; eauto). simpl.
    rewrite lookup_insert_eq. simpl. rewrite Hsize.
    eexists. split_and!; [reflexivity|done|]. simpl. by rewrite last_snoc.
Qed.

Lemma generate_student_qr_writes_witness :
  ∃ h', generate_student_qr working_env 7 bare_host = (Val (Some (qr_path_of 7)), h')
    ∧ files h' = <[qr_path_of 7 := sample_png]> (files bare_host)
    ∧ last (stdout h') = Some (QrSaved (qr_path_of 7) (rowcount sample_png)).
Proof.
  apply (generate_student_qr_writes working_env 7 bare_host sample_png);
    [left; right; apply (bool_decide_unpack _); vm_compute; exact I
    | reflexivity | discriminate | reflexivity].
Defined.

(** X17.  When rendering or saving raises and [os.remove] works,
    [generate_student_qr] returns [None] and no file is left at the
    student's path: not the partial one, and not an image that was there
    before the call either. *)
Theorem generate_student_qr_cleans_up env sid h :
  (is_Some (files h !! "qrcodes") ∨ "qrcodes" ∈ dirs h) ∨ makedirs_raises env = false →
  (∃ e, make_image env (pretty sid) = Exc e)
  ∨ (∃ n, save_outcome env = SaveShort n true) ∨ save_outcome env = SaveNotCreated true →
  remove_raises env = false →
  ∃ h', generate_student_qr env sid h = (Val None, h')
    ∧ files h' !! qr_path_of sid = None.
Proof.
  intros Hdir Hraise Hrm. destruct env as [mk mi so rr]. simpl in *. subst rr.
  qr_unfold. simpl.
  assert (Hmk : negb (bool_decide (is_Some (files h !! "qrcodes") ∨ "qrcodes" ∈ dirs h))
                = true → mk = false).
  { intros Hn. destruct Hdir as [Hdir|?]; [|done].
    apply negb_true_iff, bool_decide_eq_false in Hn. done. }
  destruct (negb (bool_decide (is_Some (files h !! "qrcodes") ∨ "qrcodes" ∈ dirs h)));
    [rewrite (Hmk eq_refl)|]; simpl.
  all: destruct (mi (pretty sid)) as [img|e] eqn:Himg; simpl.
  all: try (destruct Hraise as [[e' ?] | [[n ->] | ->]]; [done| |]; simpl).
  all: repeat (first [ case_bool_decide; simpl | rewrite lookup_delete_eq ]).
  all: try (eexists; split; [reflexivity|]; simpl; by rewrite ?lookup_delete_eq).
  all: try (eexists; split; [reflexivity|]; simpl;
            match goal with H : ¬ (is_Some _ ∨ _) |- _ =>
              apply eq_None_not_Some; intros Hs; apply H; by left end).
Qed.

Lemma generate_student_qr_cleans_up_witness :
  ∃ h', generate_student_qr (mkQrEnv false (λ _, Exc QRError) SaveWhole false) 7
          (mkHost {[ qr_path_of 7 := sample_png ]} {[ "qrcodes" ]} [])
        = (Val None, h')
    ∧ files h' !! qr_path_of 7 = None.
Proof.
  apply (generate_student_qr_cleans_up (mkQrEnv false (λ _, Exc QRError) SaveWhole false) 7
           (mkHost {[ qr_path_of 7 := sample_png ]} {[ "qrcodes" ]} []));
    [right; reflexivity | left; eexists; reflexivity | reflexivity].
Defined.

(** ** The bulk export: one student's failure does not stop the others *)

Lemma generate_good env sid h :
  "qrcodes" ∈ dirs h → qr_good env sid = true →
  ∃ img h', generate_student_qr env sid h = (Val (Some (qr_path_of sid)), h')
    ∧ files h' = <[qr_path_of sid := img]> (files h) ∧ dirs h' = dirs h ∧ img ≠ [].
Proof.
  intros Hdir Hgood. unfold qr_good in Hgood. destruct env as [mk mi so rr]. simpl in *.
  destruct (mi (pretty sid)) as [[|b img]|e] eqn:Himg; try done.
  destruct so; try done. qr_unfold. simpl.
  rewrite bool_decide_eq_true_2 by (by right). simpl. rewrite Himg. simpl.
  rewrite !lookup_insert_eq. rewrite bool_decide_eq_true_2 by (left; eauto). simpl.
  rewrite lookup_insert_eq. simpl.
  exists (b :: img). eexists. split_and!; [reflexivity|done..].
Qed.

Lemma generate_bad env sid h :
  "qrcodes" ∈ dirs h → qr_bad env sid = true →
  ∃ h', generate_student_qr env sid h = (Val None, h') ∧ dirs h' = dirs h.
Proof.
  intros Hdir Hbad. unfold qr_bad in Hbad. destruct env as [mk mi so rr]. simpl in *.
  destruct (mi (pretty sid)) as [img|e] eqn:Himg; [done|]. qr_unfold. simpl.
  rewrite bool_decide_eq_true_2 by (by right). simpl. rewrite Himg. simpl.
  case_bool_decide; simpl; [destruct rr; simpl|]; by eexists.
Qed.

Lemma qr_path_truthy sid : truthy_str (qr_path_of sid) = true.
Proof. done. Qed.

Section LoopFacts.

Variable config : Config.
Variable env : Z → QrEnv.
Variable qr_dir_raises : bool.
Variable create_safe_filename : string → string.
Variable package : Z → list (string * string) → SE App Response.

#[local] Abbreviation good :=
  (λ s : Student, qr_good (env (student_id s)) (student_id s) = true).
#[local] Abbreviation bad :=
  (λ s : Student, qr_bad (env (student_id s)) (student_id s) = true).

Lemma qr_loop_collects students acc h :
  "qrcodes" ∈ dirs h →
  Forall (λ s, good s ∨ bad s) students →
  ∃ h', qr_loop env create_safe_filename students acc h =
          (Val (acc ++ (archive_entry create_safe_filename <$> filter good students)), h')
        ∧ dirs h' = dirs h.
Proof.
  revert acc h. induction students as [|s students IH]; intros acc h Hdir Hall.
  - simpl. unfold mret, SE_ret. rewrite app_nil_r. eauto.
  - apply Forall_cons in Hall as [Hs Hall]. simpl. unfold mbind at 1, SE_bind at 1.
    destruct (decide (good s)) as [Hgood | Hnot].
    + destruct (generate_good _ _ h Hdir Hgood) as (img & h1 & -> & Hfiles & Hdirs & Hne).
      unfold mbind at 1, SE_bind at 1. unfold path_exists at 1. rewrite qr_path_truthy.
      rewrite bool_decide_eq_true_2
        by (left; rewrite Hfiles, lookup_insert_eq; eauto). simpl.
      unfold mbind at 1, SE_bind at 1. unfold getsize at 1.
      rewrite Hfiles, lookup_insert_eq.
      rewrite bool_decide_eq_true_2 by (destruct img; [done|simpl; lia]).
      destruct (IH (acc ++ [(qr_path_of (student_id s),
                             create_safe_filename (student_name s +:+ "_QR.png"))]) h1)
        as (h' & -> & Hd); [by rewrite Hdirs|done|].
      exists h'. rewrite filter_cons_True by done. rewrite fmap_cons, <- app_assoc.
      split; [done|congruence].
    + destruct Hs as [?|Hbad]; [done|].
      destruct (generate_bad _ _ h Hdir Hbad) as (h1 & -> & Hdirs).
      destruct (IH acc h1) as (h' & -> & Hd); [by rewrite Hdirs|done|].
      exists h'. rewrite filter_cons_False by done. split; [done|congruence].
Qed.

(** X18.  In the bulk export, a student whose QR cannot be rendered is
    skipped and the others are still processed: with the directories in
    place and a group within the limit, the packaging step receives, in
    listing order, exactly the students whose image was written, each
    under its own path and a name made from the student's name; only when
    none is left does the export raise 500 "Failed to generate any QR
    codes". *)
Theorem bulk_export_isolates_failures gid a l w' :
  get_students_in_group gid (app_world a) = (Val l, w') →
  l ≠ [] → Z.of_nat (length l) ≤ MAX_STUDENTS_PER_GROUP config →
  QR_CODES_DIR config ∈ dirs (app_host a) → "qrcodes" ∈ dirs (app_host a) →
  Forall (λ s, good s ∨ bad s) l →
  ∃ h',
    get_group_qrcodes_endpoint config env qr_dir_raises create_safe_filename package gid a
    = (if negb (truthy_list (filter good l))
       then (Exc (HTTPException 500 "Failed to generate any QR codes"), mkApp w' h')
       else package gid (archive_entry create_safe_filename <$> filter good l)
                    (mkApp w' h')).
Proof.
  intros Hget Hne Hmax Hqr Hdir Hall.
  unfold get_group_qrcodes_endpoint. unfold mbind at 1, SE_bind at 1, in_world.
  rewrite Hget. destruct l as [|s0 l0] eqn:El; [done|]. rewrite <- El in *.
  replace (negb (truthy_list l)) with false by (by rewrite El).
  rewrite bool_decide_eq_false_2 by lia.
  unfold mbind at 1, SE_bind at 1, in_host at 1, path_exists at 1. simpl.
  rewrite bool_decide_eq_true_2 by (by right). simpl.
  unfold mbind at 1, SE_bind at 1. unfold mret at 1, SE_ret at 1.
  unfold mbind at 1, SE_bind at 1, in_host.
  destruct (qr_loop_collects l [] (app_host a) Hdir Hall) as (h' & Hloop & _).
  simpl. rewrite Hloop. simpl. exists h'.
  destruct (filter good l); done.
Qed.

End LoopFacts.

Lemma bulk_export_isolates_failures_witness :
  ∃ h',
    get_group_qrcodes_endpoint default_config second_fails false id no_package 1
      (mkApp LedgerSpec.class_world bare_host)
    = (if negb (truthy_list
                  (filter (λ s : Student,
                             qr_good (second_fails (student_id s)) (student_id s) = true)
                          (students LedgerSpec.class_db)))
       then (Exc (HTTPException 500 "Failed to generate any QR codes"),
             mkApp LedgerSpec.class_world h')
       else no_package 1
              (archive_entry id <$>
                 filter (λ s : Student,
                           qr_good (second_fails (student_id s)) (student_id s) = true)
                        (students LedgerSpec.class_db))
              (mkApp LedgerSpec.class_world h')).
Proof.
  apply (bulk_export_isolates_failures default_config second_fails false id no_package 1
           (mkApp LedgerSpec.class_world bare_host)
           (students LedgerSpec.class_db) LedgerSpec.class_world).
  - vm_compute. reflexivity.
  - discriminate.
  - vm_compute. discriminate.
  - apply (bool_decide_unpack _). vm_compute. exact I.
  - apply (bool_decide_unpack _). vm_compute. exact I.
  - apply List.Forall_cons; [left; vm_compute; reflexivity|].
    apply List.Forall_cons; [right; vm_compute; reflexivity|].
    apply List.Forall_cons; [left; vm_compute; reflexivity|].
    apply List.Forall_nil.
Defined.

End QRExtra.

(** ** Reading the ledger *)

Module ReadsExtra.
Import Store Ledger LedgerSpec LedgerFacts LedgerMore LedgerExtra Reads.

Ltac read_unfold := unfold in_ledger, read_log in *.

#[local] Instance newest_first_by_student_total : Total newest_first_by_student.
Proof.
  intros a b. unfold newest_first_by_student.
  rewrite (String.compare_antisym (att_date b) (att_date a)).
  destruct (String.compare (att_date a) (att_date b)) eqn:E; simpl; [|by right|by left].
  destruct (Z.le_ge_cases (att_student a) (att_student b)); [left|right]; lia.
Qed.

#[local] Instance newest_first_total : Total newest_first.
Proof.
  intros a b. unfold newest_first.
  destruct (String.leb_total (att_date b) (att_date a)) as [H|H]; rewrite H; auto.
Qed.

Lemma listing_shape {A} (R : relation A) `{∀ x y, Decision (R x y)} `{!Total R}
    (rows : DB → list A) (key : Z) (handler : exn → SE RWorld (list A)) r :
  (∀ e r0, ∃ r1, handler e r0 = (Val [], r1) ∧ r_world r1 = r_world r0) →
  ∃ l r',
    (if negb (truthy_int key) then mret []
     else try_except
            (in_ledger (execute_query (λ db, inr (order_by R (rows db), db)) FetchAll))
            handler) r = (Val l, r')
    ∧ w_db (r_world r') = w_db (r_world r)
    ∧ Sorted R l
    ∧ (truthy_int key = false ∨ next_fault (w_faults (r_world r)) = true → l = [])
    ∧ (truthy_int key = true → next_fault (w_faults (r_world r)) = false →
       l ≡ₚ rows (w_db (r_world r))).
Proof.
  intros Hhandler. destruct (truthy_int key) eqn:Hkey; simpl.
  2:{ unfold mret, SE_ret. do 2 eexists. split_and!; first [done | constructor]. }
  destruct r as [[db fs lg] rl]. unfold try_except, in_ledger. simpl.
  rewrite execute_query_fetch by done.
  destruct (next_fault fs) eqn:F1.
  - destruct (Hhandler OperationalError
                (mkRWorld (mkWorld db (tail fs) (lg ++ [DatabaseError OperationalError])) rl))
      as (r1 & -> & Hw).
    do 2 eexists. split_and!; first [done | constructor | idtac].
    by rewrite Hw.
  - do 2 eexists. split_and!; try done.
    + by apply StoreFacts.Sorted_order_by.
    + by intros [?|?].
    + intros _ _. apply StoreFacts.order_by_Permutation.
Qed.

(** X20.  The two attendance listings never change the store, return []
    for id 0 or when the query fails, and otherwise return exactly the
    rows of the group (of the student), newest date first; within a date
    the group listing goes by ascending student id. *)
Theorem attendance_listings gid sid r :
  (∃ l r', get_attendance_for_group gid r = (Val l, r')
     ∧ w_db (r_world r') = w_db (r_world r)
     ∧ Sorted newest_first_by_student l
     ∧ (truthy_int gid = false ∨ next_fault (w_faults (r_world r)) = true → l = [])
     ∧ (truthy_int gid = true → next_fault (w_faults (r_world r)) = false →
        l ≡ₚ filter (λ row, att_group row = gid) (attendance (w_db (r_world r)))))
  ∧ (∃ l r', get_attendance_for_student sid r = (Val l, r')
       ∧ w_db (r_world r') = w_db (r_world r)
       ∧ Sorted newest_first l
       ∧ (truthy_int sid = false ∨ next_fault (w_faults (r_world r)) = true → l = [])
       ∧ (truthy_int sid = true → next_fault (w_faults (r_world r)) = false →
          l ≡ₚ filter (λ row, att_student row = sid) (attendance (w_db (r_world r))))).
Proof.
  split.
  - apply (listing_shape newest_first_by_student
             (λ db, filter (λ row, att_group row = gid) (attendance db)) gid).
    intros e r0. unfold read_log, mbind, SE_bind, mret, SE_ret. simpl. eauto.
  - apply (listing_shape newest_first
             (λ db, filter (λ row, att_student row = sid) (attendance db)) sid).
    intros e r0. unfold read_log, mbind, SE_bind, mret, SE_ret. simpl. eauto.
Qed.

Lemma attendance_listings_witness :
  (∃ l r', get_attendance_for_group 1 (mkRWorld class_world_day []) = (Val l, r')
     ∧ w_db (r_world r') = w_db (r_world (mkRWorld class_world_day []))
     ∧ Sorted newest_first_by_student l
     ∧ (truthy_int 1 = false
        ∨ next_fault (w_faults (r_world (mkRWorld class_world_day []))) = true → l = [])
     ∧ (truthy_int 1 = true →
        next_fault (w_faults (r_world (mkRWorld class_world_day []))) = false →
        l ≡ₚ filter (λ row, att_group row = 1)
               (attendance (w_db (r_world (mkRWorld class_world_day []))))))
  ∧ (∃ l r', get_attendance_for_student 2 (mkRWorld class_world_day []) = (Val l, r')
       ∧ w_db (r_world r') = w_db (r_world (mkRWorld class_world_day []))
       ∧ Sorted newest_first l
       ∧ (truthy_int 2 = false
          ∨ next_fault (w_faults (r_world (mkRWorld class_world_day []))) = true → l = [])
       ∧ (truthy_int 2 = true →
          next_fault (w_faults (r_world (mkRWorld class_world_day []))) = false →
          l ≡ₚ filter (λ row, att_student row = 2)
                 (attendance (w_db (r_world (mkRWorld class_world_day [])))))).
Proof. apply (attendance_listings 1 2 (mkRWorld class_world_day [])). Defined.

(** *** The summary *)

Lemma sum_of_flags (rows : list AttendanceRow) :
  Forall (λ row, att_present row = 0 ∨ att_present row = 1) rows →
  foldr Z.add 0 (att_present <$> rows) = rowcount (filter (λ row, att_present row = 1) rows)
  ∧ rowcount rows - foldr Z.add 0 (att_present <$> rows)
      = rowcount (filter (λ row, att_present row = 0) rows).
Proof.
  unfold rowcount. induction 1 as [|row rows Hrow _ [IH1 IH2]]; [done|].
  rewrite fmap_cons. simpl foldr. destruct Hrow as [H0|H1].
  - rewrite (filter_cons_False (λ row, att_present row = 1)) by lia.
    rewrite (filter_cons_True (λ row, att_present row = 0)) by done.
    simpl length. lia.
  - rewrite (filter_cons_True (λ row, att_present row = 1)) by done.
    rewrite (filter_cons_False (λ row, att_present row = 0)) by lia.
    simpl length. lia.
Qed.

Lemma sql_sum_flags (rows : list AttendanceRow) :
  Forall (λ row, att_present row = 0 ∨ att_present row = 1) rows →
  sql_sum (att_present <$> rows)
    = (if decide (rows = []) then None
       else Some (rowcount (filter (λ row, att_present row = 1) rows)))
  ∧ (λ p, rowcount rows - p) <$> sql_sum (att_present <$> rows)
    = (if decide (rows = []) then None
       else Some (rowcount (filter (λ row, att_present row = 0) rows))).
Proof.
  intros Hflags. destruct (sum_of_flags rows Hflags) as [H1 H0].
  destruct rows as [|row rows]; [done|]. rewrite !decide_False by done.
  change (sql_sum (att_present <$> row :: rows))
    with (Some (foldr Z.add 0 (att_present <$> row :: rows))).
  split; [by rewrite H1|].
  change (Some (rowcount (row :: rows) - foldr Z.add 0 (att_present <$> row :: rows))
          = Some (rowcount (filter (λ row, att_present row = 0) (row :: rows)))).
  by rewrite H0.
Qed.

(** X21.  For a non-zero group id and a query that goes through,
    [get_attendance_summary] leaves the store alone and reports the
    number of rows of the group (on the date, when one is given); with
    flags 0/1 its present and absent counts are the numbers of rows with
    flag 1 and flag 0, and both are NULL, not 0, when there is no row.
    Without a date (or with an empty one) it also counts the distinct
    days and students. *)
Theorem attendance_summary_counts gid r :
  truthy_int gid = true → next_fault (w_faults (r_world r)) = false →
  flags_ok (w_db (r_world r)) →
  (∀ d, truthy_str d = true →
     let rows := filter (λ row, att_group row = gid ∧ att_date row = d)
                        (attendance (w_db (r_world r))) in
     ∃ r', get_attendance_summary gid (Some d) r =
             (Val (Some (DatedSummary
                           (rowcount rows)
                           (if decide (rows = []) then None
                            else Some (rowcount (filter (λ row, att_present row = 1) rows)))
                           (if decide (rows = []) then None
                            else Some (rowcount (filter (λ row, att_present row = 0) rows))))),
              r')
           ∧ w_db (r_world r') = w_db (r_world r))
  ∧ (∀ date, date = None ∨ date = Some "" →
     let rows := filter (λ row, att_group row = gid) (attendance (w_db (r_world r))) in
     ∃ r', get_attendance_summary gid date r =
             (Val (Some (OverallSummary
                           (rowcount rows)
                           (if decide (rows = []) then None
                            else Some (rowcount (filter (λ row, att_present row = 1) rows)))
                           (if decide (rows = []) then None
                            else Some (rowcount (filter (λ row, att_present row = 0) rows)))
                           (count_distinct (att_date <$> rows))
                           (count_distinct (att_student <$> rows)))),
              r')
           ∧ w_db (r_world r') = w_db (r_world r)).
Proof.
  intros Hgid Hok Hflags. destruct r as [[db fs lg] rl]. simpl in Hok, Hflags.
  cbn [r_world w_db].
  assert (Hsub : ∀ (P : AttendanceRow → Prop) `{∀ x, Decision (P x)},
             Forall (λ row, att_present row = 0 ∨ att_present row = 1)
                    (filter P (attendance db))).
  { intros P ?. apply Forall_forall. intros row [_ Hin]%list_elem_of_filter.
    unfold flags_ok in Hflags. rewrite Forall_forall in Hflags. by apply Hflags. }
  split.
  - intros d Hd.
    set (rows := filter (λ row, att_group row = gid ∧ att_date row = d) (attendance db)).
    unfold get_attendance_summary. rewrite Hgid, Hd. simpl.
    unfold try_except, mbind, SE_bind, in_ledger. simpl.
    rewrite execute_query_fetch by done. rewrite Hok. unfold select_summary_on.
    destruct (sql_sum_flags rows (Hsub _ _)) as [Hsum Hdiff].
    cbv zeta. fold rows. rewrite Hdiff, Hsum.
    unfold mret, SE_ret. eauto.
  - intros date Hdate.
    set (rows := filter (λ row, att_group row = gid) (attendance db)).
    unfold get_attendance_summary. rewrite Hgid. simpl.
    assert (Hq : match date with
                 | Some d => if truthy_str d then select_summary_on gid d
                             else select_summary_overall gid
                 | None => select_summary_overall gid
                 end = select_summary_overall gid) by (by destruct Hdate as [-> | ->]).
    rewrite Hq. unfold try_except, mbind, SE_bind, in_ledger. simpl.
    rewrite execute_query_fetch by done. rewrite Hok. unfold select_summary_overall.
    destruct (sql_sum_flags rows (Hsub _ _)) as [Hsum Hdiff].
    cbv zeta. fold rows. rewrite Hdiff, Hsum.
    unfold mret, SE_ret. eauto.
Qed.

Lemma attendance_summary_counts_witness :
  (let rows := filter (λ row, att_group row = 1 ∧ att_date row = "2024-01-01")
                      (attendance (w_db (r_world (mkRWorld class_world_day [])))) in
   ∃ r', get_attendance_summary 1 (Some "2024-01-01") (mkRWorld class_world_day []) =
           (Val (Some (DatedSummary
                         (rowcount rows)
                         (if decide (rows = []) then None
                          else Some (rowcount (filter (λ row, att_present row = 1) rows)))
                         (if decide (rows = []) then None
                          else Some (rowcount (filter (λ row, att_present row = 0) rows))))),
            r')
         ∧ w_db (r_world r') = w_db (r_world (mkRWorld class_world_day [])))
  ∧ (let rows := filter (λ row, att_group row = 2)
                        (attendance (w_db (r_world (mkRWorld class_world_day [])))) in
     ∃ r', get_attendance_summary 2 None (mkRWorld class_world_day []) =
             (Val (Some (OverallSummary
                           (rowcount rows)
                           (if decide (rows = []) then None
                            else Some (rowcount (filter (λ row, att_present row = 1) rows)))
                           (if decide (rows = []) then None
                            else Some (rowcount (filter (λ row, att_present row = 0) rows)))
                           (count_distinct (att_date <$> rows))
                           (count_distinct (att_student <$> rows)))),
              r')
           ∧ w_db (r_world r') = w_db (r_world (mkRWorld class_world_day []))).
Proof.
  split.
  - apply (proj1 (attendance_summary_counts 1 (mkRWorld class_world_day [])
                    eq_refl eq_refl ltac:(by_computation)) "2024-01-01").
    reflexivity.
  - apply (proj2 (attendance_summary_counts 2 (mkRWorld class_world_day [])
                    eq_refl eq_refl ltac:(by_computation)) None).
    by left.
Defined.

(** ** The handlers around removals and absences *)

(** X22.  The student-removal handler answers success whatever
    [remove_student] returned (also for an unknown id, for id 0 and after
    a storage failure), and the group id of the path plays no part. *)
Theorem remove_student_endpoint_always_succeeds group_id student_id w :
  ∃ removed w',
    remove_student student_id w = (Val removed, w')
    ∧ remove_student_endpoint group_id student_id w
        = (Val (StudentReply true student_id), w').
Proof.
  destruct (remove_student_outcome student_id w) as (removed & w' & Heq & _).
  exists removed, w'. split; [done|].
  unfold remove_student_endpoint, mbind, SE_bind. by rewrite Heq.
Qed.

(** X23.  The group-deletion handler answers success exactly when the
    group existed and the transaction went through; for id 0, for an
    unknown group and after a storage failure it raises 404 "Group not
    found or could not be deleted". *)
Theorem delete_group_endpoint_replies group_id w :
  (truthy_int group_id = true → ¬ failure_within 5 w →
   group_exists (w_db w) group_id = true →
   (delete_group_endpoint group_id w).1 = Val (GroupReply true group_id))
  ∧ (truthy_int group_id = false ∨ failure_within 5 w
     ∨ group_exists (w_db w) group_id = false →
     (delete_group_endpoint group_id w).1
       = Exc (HTTPException 404 "Group not found or could not be deleted")).
Proof.
  unfold delete_group_endpoint, mbind, SE_bind. destruct w as [db fs lg]. simpl.
  split.
  - intros Hgid Hok Hex.
    destruct (delete_group_by_id_steps group_id db fs lg Hgid) as (w' & -> & _).
    destruct (decide (failure_within 5 (mkWorld db fs lg))); [done|]. by rewrite Hex.
  - intros Hbad. destruct (truthy_int group_id) eqn:Hgid.
    + destruct (delete_group_by_id_steps group_id db fs lg Hgid) as (w' & -> & _).
      destruct (decide (failure_within 5 (mkWorld db fs lg))); [done|].
      destruct Hbad as [? | [? | Hno]]; [done | done | by rewrite Hno].
    + unfold delete_group_by_id. by rewrite Hgid.
Qed.

Lemma delete_group_endpoint_replies_witness :
  (delete_group_endpoint 1 class_world_day).1 = Val (GroupReply true 1)
  ∧ (delete_group_endpoint 9 class_world_day).1
      = Exc (HTTPException 404 "Group not found or could not be deleted").
Proof.
  split.
  - apply (proj1 (delete_group_endpoint_replies 1 class_world_day));
      [reflexivity | by_computation | reflexivity].
  - apply (proj2 (delete_group_endpoint_replies 9 class_world_day)).
    right; right. vm_compute. reflexivity.
Defined.

(** X24.  When at least one of the listed students can be marked absent,
    the absence handler answers success with a message that counts the
    ids requested, not the rows inserted. *)
Theorem mark_absent_endpoint_counts_requested group_id date ids sid w :
  truthy_int group_id && truthy_str date && truthy_list ids = true →
  fault_free w → group_exists (w_db w) group_id = true →
  sid ∈ ids → truthy_int sid = true → student_exists (w_db w) sid = true →
  ¬ recorded sid date (w_db w) →
  ∃ w', mark_absent_endpoint group_id (mkAbsentRequest (Some date) (Some ids)) w
        = (Val (MessageReply true
                  ("Marked " +:+ pretty (length ids) +:+ " students as absent")), w').
Proof.
  intros Hguard Hfree Hg Hin Hsid Hs Hnew.
  destruct (mark_absent_students_spec group_id date ids w Hguard)
    as (new & w' & Heq & Hatt & _ & _ & _ & Hcov).
  specialize (Hcov Hfree Hg sid Hin Hsid Hs).
  assert (Hnonempty : new ≠ []).
  { intros ->. rewrite app_nil_r in Hatt. destruct Hcov as (row & Hrow & ?).
    apply Hnew. exists row. by rewrite <- Hatt. }
  unfold mark_absent_endpoint. simpl.
  apply andb_prop in Hguard as [[_ Hd]%andb_prop Hl]. rewrite Hd, Hl. simpl.
  unfold try_except, mbind, SE_bind. rewrite Heq.
  rewrite bool_decide_eq_true_2 by (unfold rowcount; destruct new; [done|simpl; lia]).
  unfold mret, SE_ret. eauto.
Qed.

Lemma mark_absent_endpoint_counts_requested_witness :
  ∃ w', mark_absent_endpoint 1 (mkAbsentRequest (Some "2024-01-01") (Some [1; 2; 3]))
          class_world_day
        = (Val (MessageReply true
                  ("Marked " +:+ pretty (length [1; 2; 3]) +:+ " students as absent")), w').
Proof.
  apply (mark_absent_endpoint_counts_requested 1 "2024-01-01" [1; 2; 3] 1 class_world_day);
    [reflexivity | by_computation | reflexivity | by_computation | reflexivity
    | reflexivity | by_computation].
Defined.

End ReadsExtra.

(** ** The connection manager and the scan handler *)

Module ConnExtra.
Import Store Ledger LedgerSpec LedgerFacts Main.

(** X28.  One [execute_query] is all or nothing.  When it returns, the
    statement went through on the store as it was, and only the
    non-fetching form made its effect durable: a statement run with
    [fetch_one] or [fetch_all] leaves the store as it was, whatever it
    does.  When it raises, the store is as it was and the error was
    logged once before being re-raised. *)
Theorem execute_query_all_or_nothing {A} (q : Stmt A) (f : Fetch) (w : World) :
  match execute_query q f w with
  | (Val a, w') =>
      ∃ db', q (w_db w) = inr (a, db')
        ∧ w_db w' = (match f with NoFetch => db' | _ => w_db w end)
        ∧ w_log w' = w_log w
  | (Exc e, w') =>
      w_db w' = w_db w ∧ w_log w' = w_log w ++ [DatabaseError e]
  end.
Proof.
  destruct w as [db fs lg].
  destruct f;
    [rewrite execute_query_fetch by done | rewrite execute_query_fetch by done
    | rewrite execute_query_write];
    simpl; destruct (next_fault fs); try done;
    destruct (q db) as [e | [a db']]; try done; eauto.
  destruct (next_fault (tail fs)); [done | eauto].
Qed.

(** X29.  The scan handler never answers 500: since [record_attendance]
    catches every exception itself, the handler's own [except] branch is
    never taken.  It either replies with a JSON body, or raises 400 for a
    missing or empty field, and then nothing was run on the store. *)
Theorem scan_attendance_never_500 (request : ScanRequest) (w : World) :
  (∃ success message w',
     scan_attendance request w = (Val (JsonResponse success message), w'))
  ∨ scan_attendance request w
      = (Exc (HTTPException 400 "Missing required fields: student_id, group_id, date"), w).
Proof.
  unfold scan_attendance.
  destruct (scan_student_id request) as [sid|]; [|by right].
  destruct (scan_group_id request) as [gid|]; [|by right].
  destruct (scan_date request) as [date|]; [|by right].
  destruct (truthy_int sid && truthy_int gid && truthy_str date); [|by right].
  left. cbn [negb].
  destruct (record_attendance_outcome sid gid date (default true (scan_present request)) w)
    as (r & w' & Heq & _).
  unfold try_except, mbind, SE_bind. rewrite Heq.
  destruct r; unfold mret, SE_ret; eauto.
Qed.

End ConnExtra.
(** ** Safe file names *)

Module FileNamesExtra.
Import FileNames.

Lemma pair_ind (P : list Ascii.ascii → Prop) :
  P [] → (∀ a, P [a]) → (∀ a b t, P t → P (b :: t) → P (a :: b :: t)) → ∀ l, P l.
Proof.
  intros H0 H1 H2 l. enough (P l ∧ ∀ a, P (a :: l)) by tauto.
  induction l as [|b t [IH1 IH2]]; split; auto.
Qed.

Lemma has_uu_cons a b t :
  has_uu (a :: b :: t)
  = bool_decide (a = underscore) && bool_decide (b = underscore) || has_uu (b :: t).
Proof. reflexivity. Qed.

Lemma replace_uu_cons a b t :
  replace_uu (a :: b :: t)
  = if bool_decide (a = underscore) && bool_decide (b = underscore)
    then underscore :: replace_uu t
    else a :: replace_uu (b :: t).
Proof. reflexivity. Qed.

Lemma replace_uu_shorter l :
  (length (replace_uu l) ≤ length l)%nat
  ∧ (has_uu l = true → (length (replace_uu l) < length l)%nat).
Proof.
  induction l as [| a | a b t [IH1 _] [IH2 IH3]] using pair_ind;
    [by simpl | by simpl |].
  rewrite has_uu_cons, replace_uu_cons.
  destruct (bool_decide (a = underscore) && bool_decide (b = underscore)).
  - cbn [length]. cbn [length] in IH2. split; [lia | intros _; lia].
  - cbn [length orb] in *. split; [lia | intros H; specialize (IH3 H); lia].
Qed.

Lemma replace_uu_Forall (P : Ascii.ascii → Prop) l :
  Forall P l → Forall P (replace_uu l).
Proof.
  induction l as [| a | a b t IH1 IH2] using pair_ind; [done | done |].
  intros Hl. rewrite replace_uu_cons. apply Forall_cons in Hl as [Ha Hl].
  destruct (bool_decide (a = underscore) && bool_decide (b = underscore)) eqn:E.
  - apply andb_prop in E as [E _]. apply bool_decide_eq_true in E as ->.
    apply Forall_cons. split; [done|]. apply IH1. by apply Forall_cons in Hl as [_ Hl].
  - apply Forall_cons. split; [done|]. by apply IH2.
Qed.

(** The loop leaves by its condition, not by its bound. *)
Lemma squeeze_done fuel l : (length l ≤ fuel)%nat → has_uu (squeeze fuel l) = false.
Proof.
  revert l. induction fuel as [|n IH]; intros l Hlen.
  - destruct l; [done | simpl in Hlen; lia].
  - simpl. destruct (has_uu l) eqn:Huu; [|done].
    apply IH. pose proof (proj2 (replace_uu_shorter l) Huu). lia.
Qed.

Lemma squeeze_Forall (P : Ascii.ascii → Prop) fuel l :
  Forall P l → Forall P (squeeze fuel l).
Proof.
  revert l. induction fuel as [|n IH]; intros l Hl; [done|].
  simpl. destruct (has_uu l); [|done]. by apply IH, replace_uu_Forall.
Qed.

Lemma squeeze_fixed fuel l : has_uu l = false → squeeze fuel l = l.
Proof. intros H. destruct fuel; simpl; [done | by rewrite H]. Qed.

Lemma has_uu_spec l :
  has_uu l = true ↔ ∃ l1 l2, l = l1 ++ underscore :: underscore :: l2.
Proof.
  induction l as [| a | a b t _ IH] using pair_ind.
  - split; [done | intros ([|? [|? ?]] & ? & ?); done].
  - split; [done | intros ([|? [|? ?]] & ? & ?); done].
  - rewrite has_uu_cons, orb_true_iff, andb_true_iff, !bool_decide_eq_true, IH.
    split.
    + intros [[-> ->] | (l1 & l2 & ->)]; [by exists [], t | by exists (a :: l1), l2].
    + intros ([|c l1] & l2 & Heq); simplify_eq/=; [by left | right; eauto].
Qed.

Lemma has_uu_infix p m q : has_uu (p ++ m ++ q) = false → has_uu m = false.
Proof.
  intros H. apply not_true_is_false. intros (l1 & l2 & ->)%has_uu_spec.
  apply not_true_iff_false in H. apply H, has_uu_spec.
  exists (p ++ l1), (l2 ++ q). by rewrite <- !app_assoc.
Qed.

Lemma lstrip_suffix chars l : ∃ pre, l = pre ++ lstrip chars l.
Proof.
  induction l as [|c t [pre IH]]; [by exists []|]. simpl.
  destruct (bool_decide (c ∈ chars)); [|by exists []].
  exists (c :: pre). simpl. by rewrite <- IH.
Qed.

Lemma rstrip_prefix chars l : ∃ post, l = rstrip chars l ++ post.
Proof.
  destruct (lstrip_suffix chars (reverse l)) as [pre H]. exists (reverse pre).
  unfold rstrip. rewrite <- reverse_app, <- H. by rewrite reverse_involutive.
Qed.

Lemma strip_infix chars l : ∃ pre post, l = pre ++ strip chars l ++ post.
Proof.
  destruct (lstrip_suffix chars l) as [pre H1].
  destruct (rstrip_prefix chars (lstrip chars l)) as [post H2].
  exists pre, post. unfold strip. by rewrite <- H2.
Qed.

Lemma lstrip_head chars l c : head (lstrip chars l) = Some c → c ∉ chars.
Proof.
  induction l as [|a t IH]; [done|]. simpl.
  destruct (bool_decide (a ∈ chars)) eqn:Ha; [done|].
  intros [= ->]. by apply bool_decide_eq_false in Ha.
Qed.

Lemma lstrip_fixed chars l :
  (∀ c, head l = Some c → c ∉ chars) → lstrip chars l = l.
Proof.
  destruct l as [|a t]; [done|]. intros H. simpl.
  by rewrite bool_decide_eq_false_2 by by apply H.
Qed.

Lemma lstrip_keeps chars y c s :
  c ∉ chars → ∃ y', lstrip chars (y ++ c :: s) = y' ++ c :: s.
Proof.
  intros Hc. induction y as [|a y [y' IH]]; simpl.
  - exists []. by rewrite bool_decide_eq_false_2.
  - destruct (bool_decide (a ∈ chars)); [by exists y' | by exists (a :: y)].
Qed.

Lemma rstrip_fixed chars l :
  (∀ c, last l = Some c → c ∉ chars) → rstrip chars l = l.
Proof.
  intros H. unfold rstrip. rewrite lstrip_fixed, reverse_involutive; [done|].
  intros c. rewrite head_reverse. apply H.
Qed.

Lemma strip_ends chars l :
  (∀ c, head (strip chars l) = Some c → c ∉ chars)
  ∧ (∀ c, last (strip chars l) = Some c → c ∉ chars).
Proof.
  unfold strip, rstrip. split; intros c.
  - destruct (lstrip chars l) as [|x t] eqn:Hl; [done|].
    assert (Hx : x ∉ chars) by (apply (lstrip_head chars l); by rewrite Hl).
    rewrite reverse_cons.
    destruct (lstrip_keeps chars (reverse t) x [] Hx) as [y' ->].
    rewrite reverse_app. simpl. by intros [= <-].
  - rewrite last_reverse. apply lstrip_head.
Qed.

Lemma strip_Forall (P : Ascii.ascii → Prop) chars l :
  Forall P l → Forall P (strip chars l).
Proof.
  destruct (strip_infix chars l) as (pre & post & H). intros Hl.
  rewrite H in Hl. by apply Forall_app in Hl as [_ [? _]%Forall_app].
Qed.

Lemma sanitize_safe l : Forall (λ c, c ∈ safe_chars) (sanitize l).
Proof.
  unfold sanitize. apply Forall_fmap, Forall_forall. intros c _. simpl.
  destruct (bool_decide (c ∈ safe_chars)) eqn:Hc; [by apply bool_decide_eq_true in Hc|].
  vm_compute. repeat first [left | right].
Qed.

Lemma sanitize_fixed l : Forall (λ c, c ∈ safe_chars) l → sanitize l = l.
Proof.
  induction 1 as [|c l Hc _ IH]; [done|]. unfold sanitize in *.
  rewrite fmap_cons, IH. by rewrite bool_decide_eq_true_2.
Qed.

Lemma sanitize_app l1 l2 : sanitize (l1 ++ l2) = sanitize l1 ++ sanitize l2.
Proof. apply fmap_app. Qed.

Lemma file_tidy : tidy (String.list_ascii_of_string "file").
Proof.
  split_and!.
  - done.
  - apply (bool_decide_unpack _). vm_compute. exact I.
  - reflexivity.
  - intros c [= <-]. apply (bool_decide_unpack _). vm_compute. exact I.
  - intros c [= <-]. apply (bool_decide_unpack _). vm_compute. exact I.
Qed.

Lemma create_safe_filename_tidy filename :
  tidy (String.list_ascii_of_string (create_safe_filename filename)).
Proof.
  unfold create_safe_filename.
  set (l := sanitize (String.list_ascii_of_string filename)).
  set (m := squeeze (length l) l).
  destruct (strip (String.list_ascii_of_string "_.") m) as [|x t] eqn:Hs; [apply file_tidy|].
  cbn [truthy_list negb]. rewrite String.list_ascii_of_string_of_list_ascii, <- Hs.
  assert (Hsafe : Forall (λ c, c ∈ safe_chars) m)
    by apply squeeze_Forall, sanitize_safe.
  split_and!.
  - by rewrite Hs.
  - by apply strip_Forall.
  - destruct (strip_infix (String.list_ascii_of_string "_.") m) as (pre & post & Hm).
    apply (has_uu_infix pre _ post). rewrite <- Hm. by apply squeeze_done.
  - apply strip_ends.
  - apply strip_ends.
Qed.

Lemma tidy_fixed l :
  tidy l → create_safe_filename (String.string_of_list_ascii l) = String.string_of_list_ascii l.
Proof.
  intros (Hne & Hsafe & Huu & Hhead & Hlast). unfold create_safe_filename.
  rewrite String.list_ascii_of_string_of_list_ascii, sanitize_fixed by done.
  rewrite squeeze_fixed by done.
  unfold strip. rewrite (lstrip_fixed _ l) by done. rewrite rstrip_fixed by done.
  by destruct l.
Qed.

(** X25.  Whatever the name handed over, [create_safe_filename] returns a
    non-empty name made of the safe characters only, without two
    underscores in a row, that neither begins nor ends with an
    underscore or a dot. *)
Theorem create_safe_filename_is_safe filename :
  let name := String.list_ascii_of_string (create_safe_filename filename) in
  name ≠ []
  ∧ Forall (λ c, c ∈ safe_chars) name
  ∧ has_uu name = false
  ∧ (∀ c, head name = Some c → c ∉ String.list_ascii_of_string "_.")
  ∧ (∀ c, last name = Some c → c ∉ String.list_ascii_of_string "_.").
Proof. apply create_safe_filename_tidy. Qed.

(** X26.  [create_safe_filename] is idempotent: a name it returned is
    returned unchanged. *)
Theorem create_safe_filename_idempotent filename :
  create_safe_filename (create_safe_filename filename) = create_safe_filename filename.
Proof.
  pose proof (tidy_fixed _ (create_safe_filename_tidy filename)) as H.
  by rewrite String.string_of_list_ascii_of_string in H.
Qed.

Lemma has_uu_app x c s :
  c ≠ underscore → has_uu (c :: s) = false → has_uu (x ++ c :: s) = has_uu x.
Proof.
  intros Hc Hs. induction x as [| a | a b t _ IH] using pair_ind.
  - done.
  - change (has_uu ([a] ++ c :: s)) with (has_uu (a :: c :: s)).
    rewrite has_uu_cons, Hs, (bool_decide_eq_false_2 (c = underscore)) by done.
    by rewrite andb_false_r.
  - change (has_uu ((a :: b :: t) ++ c :: s)) with (has_uu (a :: b :: (t ++ c :: s))).
    rewrite !has_uu_cons. by rewrite <- IH.
Qed.

Lemma replace_uu_app x c s :
  c ≠ underscore → replace_uu (c :: s) = c :: s →
  replace_uu (x ++ c :: s) = replace_uu x ++ c :: s.
Proof.
  intros Hc Hs. induction x as [| a | a b t IH1 IH2] using pair_ind.
  - done.
  - change (replace_uu ([a] ++ c :: s)) with (replace_uu (a :: c :: s)).
    rewrite replace_uu_cons, Hs, (bool_decide_eq_false_2 (c = underscore)) by done.
    by rewrite andb_false_r.
  - change (replace_uu ((a :: b :: t) ++ c :: s))
      with (replace_uu (a :: b :: (t ++ c :: s))).
    rewrite !replace_uu_cons.
    destruct (bool_decide (a = underscore) && bool_decide (b = underscore)).
    + by rewrite IH1.
    + change (b :: t ++ c :: s) with ((b :: t) ++ c :: s). by rewrite IH2.
Qed.

Lemma squeeze_app fuel x c s :
  c ≠ underscore → has_uu (c :: s) = false → replace_uu (c :: s) = c :: s →
  squeeze fuel (x ++ c :: s) = squeeze fuel x ++ c :: s.
Proof.
  intros Hc Hs Hr. revert x. induction fuel as [|n IH]; intros x; [done|].
  simpl. rewrite has_uu_app by done. destruct (has_uu x); [|done].
  by rewrite replace_uu_app, IH.
Qed.

Lemma list_ascii_of_string_app (s t : string) :
  String.list_ascii_of_string (s +:+ t)
  = String.list_ascii_of_string s ++ String.list_ascii_of_string t.
Proof. induction s as [|c s IH]; simpl; [done | by rewrite IH]. Qed.

Lemma string_of_list_ascii_app (l k : list Ascii.ascii) :
  String.string_of_list_ascii (l ++ k)
  = String.string_of_list_ascii l +:+ String.string_of_list_ascii k.
Proof. induction l as [|c l IH]; simpl; [done | by rewrite IH]. Qed.

Lemma strip_keeps_tail chars fuel x c s :
  c ≠ underscore → has_uu (c :: s) = false → replace_uu (c :: s) = c :: s →
  c ∉ chars → (∀ d, last (c :: s) = Some d → d ∉ chars) →
  ∃ y, strip chars (squeeze fuel (x ++ c :: s)) = y ++ c :: s.
Proof.
  intros Hc Hs Hr Hin Hlast. rewrite squeeze_app by done. unfold strip.
  destruct (lstrip_keeps chars (squeeze fuel x) c s Hin) as [y ->].
  exists y. apply rstrip_fixed. intros d Hd. apply Hlast.
  by rewrite last_app_cons in Hd.
Qed.

(** X27.  The name under which the bulk export files a student's image,
    [create_safe_filename(f"{student_name}_QR.png")], always ends in
    "QR.png", whatever the student's name: the fallback name "file" does
    not occur there, and the extension is kept. *)
Theorem archive_name_keeps_extension (student_name : string) :
  ∃ stem, create_safe_filename (student_name +:+ "_QR.png") = stem +:+ "QR.png".
Proof.
  unfold create_safe_filename.
  rewrite list_ascii_of_string_app, sanitize_app.
  change (sanitize (String.list_ascii_of_string "_QR.png"))
    with ([underscore] ++ String.list_ascii_of_string "QR.png").
  rewrite app_assoc.
  set (x := sanitize (String.list_ascii_of_string student_name) ++ [underscore]).
  destruct (String.list_ascii_of_string "QR.png") as [|c s] eqn:E; [done|].
  cbn in E. injection E as <- <-.
  match goal with
  | |- context [strip ?chars (squeeze ?n (x ++ ?c :: ?s))] =>
      destruct (strip_keeps_tail chars n x c s) as [y ->];
        [done | reflexivity | reflexivity
        | apply (bool_decide_unpack _); vm_compute; exact I
        | intros d [= <-]; apply (bool_decide_unpack _); vm_compute; exact I |]
  end.
  exists (String.string_of_list_ascii y).
  rewrite string_of_list_ascii_app. by destruct y.
Qed.

End FileNamesExtra.
